(** * GSD-240 (A2Z Flashing): the transformation pipeline of [app.py]

    A shallow embedding of [process_file] and of the functions nested in
    it ([create_document_number], [format_date], [format_amount],
    [determine_transaction_type]), together with the pieces of the Python
    run time they call: [str] methods, [float()], the [.2f] format,
    [datetime.strptime] and [strftime].

    Conventions.
    - A Python [str] is a list of Unicode code points.
    - A Python [float] is an IEEE 754 binary64 value, [spec_float] of the
      standard library.
    - Of the Unicode decimal digits (category Nd) only the ASCII ones are
      known to the model; [float()] and [strptime] read the others as
      digits too.  Every other character class used here is exact.
    - [strftime] is the one of CPython on glibc, which writes the year
      without padding.
    - A row of [df.apply(f, axis=1)] holds the cells of the columns as
      they are; the conversion pandas makes in a frame whose columns are
      all numeric is described at [row]. *)

From Stdlib Require Import List ZArith NArith QArith Bool Lia String Ascii.
From Stdlib Require Import Floats.SpecFloat.
Import ListNotations.

Close Scope Q_scope.

(** ** Python text *)

Module Py.

Local Open Scope N_scope.

Definition str := list N.

(** An ASCII literal of the source. *)
Definition lit (s : string) : str :=
  List.map N_of_ascii (list_ascii_of_string s).

Fixpoint eqb (a b : str) : bool :=
  match a, b with
  | [], [] => true
  | x :: a', y :: b' => (x =? y) && eqb a' b'
  | _, _ => false
  end.

(** [str.isspace] of one character: the code points whose bidirectional
    class is WS, B or S, or whose category is Zs. *)
Definition isspace (c : N) : bool :=
  ((9 <=? c) && (c <=? 13)) || ((28 <=? c) && (c <=? 32))
  || (c =? 133) || (c =? 160) || (c =? 5760)
  || ((8192 <=? c) && (c <=? 8202))
  || (c =? 8232) || (c =? 8233) || (c =? 8239) || (c =? 8287)
  || (c =? 12288).

Fixpoint lstrip_by (sp : N -> bool) (s : str) : str :=
  match s with
  | c :: s' => if sp c then lstrip_by sp s' else s
  | [] => []
  end.

Definition strip_by (sp : N -> bool) (s : str) : str :=
  rev (lstrip_by sp (rev (lstrip_by sp s))).

(** [s.strip()] *)
Definition strip (s : str) : str := strip_by isspace s.

(** [s.lower()].  Exact on ASCII; any other character is kept.  No
    character outside ASCII lowers to an ASCII letter other than [k]
    (KELVIN SIGN) or [i] (with a combining dot), and the program compares
    lowered text only with literals that contain neither, so every
    comparison it makes comes out as in Python. *)
Definition lower_char (c : N) : N :=
  if (65 <=? c) && (c <=? 90) then c + 32 else c.

Definition lower (s : str) : str := List.map lower_char s.

(** [s.replace(old, new)] for a one-character [old]. *)
Definition replace (old : N) (new : str) (s : str) : str :=
  flat_map (fun c => if c =? old then new else [c]) s.

Definition is_digit (c : N) : bool := (48 <=? c) && (c <=? 57).

Definition digit_val (c : N) : N := c - 48.

(** Decimal rendering of a natural number, most significant digit first. *)
Fixpoint digits_aux (fuel : nat) (n : N) (acc : str) : str :=
  match fuel with
  | O => acc
  | S f =>
      let acc' := (48 + n mod 10) :: acc in
      if n <? 10 then acc' else digits_aux f (n / 10) acc'
  end.

Definition digits (n : N) : str :=
  digits_aux (S (N.to_nat (N.log2 n))) n [].

(** Zero padding on the left up to [w] characters, as [%02d] does. *)
Definition zfill (w : nat) (s : str) : str :=
  repeat 48 (w - List.length s)%nat ++ s.

End Py.

Import Py.

(** ** Python floats *)

Module Float.

Local Open Scope Z_scope.

Definition float := spec_float.

(** Nearest integer to [n / d], ties to the even one ([0 <= n], [0 < d]). *)
Definition round_half_even (n d : Z) : Z :=
  let q := n / d in
  match 2 * (n mod d) ?= d with
  | Lt => q
  | Gt => q + 1
  | Eq => if Z.even q then q else q + 1
  end.

(** [floor (log2 (n / d))] for [0 < n], [0 < d]. *)
Definition ilog2_ratio (n d : Z) : Z :=
  let k := Z.log2 n - Z.log2 d in
  let below := if 0 <=? k then n <? d * 2 ^ k else n * 2 ^ (- k) <? d in
  if below then k - 1 else k.

(** The binary64 number nearest to [n / d], ties to even, with overflow to
    infinity and gradual underflow: what a correctly rounded decimal to
    binary conversion returns. *)
Definition of_ratio (s : bool) (n d : Z) : float :=
  if n =? 0 then S754_zero s else
  let e := Z.max (ilog2_ratio n d - 52) (-1074) in
  let q := if 0 <=? e then round_half_even n (d * 2 ^ e)
           else round_half_even (n * 2 ^ (- e)) d in
  if q =? 0 then S754_zero s
  else if q =? 2 ^ 53 then
         if 971 <=? e then S754_infinity s
         else S754_finite s (Z.to_pos (2 ^ 52)) (e + 1)
  else if 971 <? e then S754_infinity s
  else S754_finite s (Z.to_pos q) e.

(** *** [float(text)] *)

(** A run of ASCII digits: its value, its length and what follows it. *)
Fixpoint read_digits (s : str) (acc : Z) (n : Z) : Z * Z * str :=
  match s with
  | c :: s' =>
      if is_digit c
      then read_digits s' (10 * acc + Z.of_N (digit_val c)) (n + 1)
      else (acc, n, s)
  | [] => (acc, n, [])
  end.

Definition read_sign (s : str) : bool * str :=
  match s with
  | 45%N :: s' => (true, s')
  | 43%N :: s' => (false, s')
  | _ => (false, s)
  end.

(** The exponent part: absent, or [e] or [E], an optional sign and at
    least one digit, up to the end of the text. *)
Definition read_exponent (s : str) : option Z :=
  match s with
  | [] => Some 0
  | c :: s' =>
      if ((c =? 101) || (c =? 69))%N then
        let '(neg, s'') := read_sign s' in
        match read_digits s'' 0 0 with
        | (v, n, []) => if 0 <? n then Some (if neg then - v else v) else None
        | _ => None
        end
      else None
  end.

(** The decimal number [digits [. digits] [exponent]], at least one digit
    in the mantissa, as a ratio of two integers. *)
Definition read_number (s : str) : option (Z * Z) :=
  let '(ip, ni, r1) := read_digits s 0 0 in
  let '(m, nf, r2) :=
    match r1 with
    | 46%N :: r => read_digits r ip 0
    | _ => (ip, 0, r1)
    end in
  if 0 <? ni + nf then
    match read_exponent r2 with
    | Some x =>
        let p := x - nf in
        Some (if 0 <=? p then (m * 10 ^ p, 1) else (m, 10 ^ (- p)))
    | None => None
    end
  else None.

(** Underscores are accepted between two digits only; they are dropped
    before the number is read. *)
Fixpoint drop_underscores (prev : N) (s : str) : option str :=
  match s with
  | [] => if (prev =? 95)%N then None else Some []
  | c :: s' =>
      if (c =? 95)%N then
        if is_digit prev then drop_underscores c s' else None
      else if (prev =? 95)%N && negb (is_digit c) then None
      else option_map (cons c) (drop_underscores c s')
  end.

(** White space that [float()] trims: the ASCII set of C, and outside
    ASCII whatever [str.isspace] accepts. *)
Definition float_space (c : N) : bool :=
  (((9 <=? c) && (c <=? 13)) || (c =? 32) || ((127 <=? c) && isspace c))%N.

Definition parse (s : str) : option float :=
  match drop_underscores 0%N (strip_by float_space s) with
  | None => None
  | Some t =>
      let '(neg, body) := read_sign t in
      let low := lower body in
      if eqb low (lit "inf") || eqb low (lit "infinity")
      then Some (S754_infinity neg)
      else if eqb low (lit "nan") then Some S754_nan
      else match read_number body with
           | Some (n, d) => Some (of_ratio neg n d)
           | None => None
           end
  end.

(** *** [f"{x:.2f}"] *)

(** The number of hundredths nearest to [|x|], ties to even. *)
Definition hundredths (m : positive) (e : Z) : Z :=
  if 0 <=? e then Z.pos m * 2 ^ e * 100
  else round_half_even (Z.pos m * 100) (2 ^ (- e)).

Definition sign_text (s : bool) : str := if s then lit "-" else [].

Definition fixed2 (q : Z) : str :=
  digits (Z.to_N (q / 100)) ++ lit "." ++ zfill 2 (digits (Z.to_N (q mod 100))).

Definition format_2f (x : float) : str :=
  match x with
  | S754_nan => lit "nan"
  | S754_infinity s => sign_text s ++ lit "inf"
  | S754_zero s => sign_text s ++ fixed2 0
  | S754_finite s m e => sign_text s ++ fixed2 (hundredths m e)
  end.

(** [x >= 0], false on NaN. *)
Definition ge0 (x : float) : bool := SFleb (S754_zero false) x.

(** [x < 0], false on NaN. *)
Definition lt0 (x : float) : bool := SFltb x (S754_zero false).

End Float.

Import Float.

(** ** Cells

    The code looks at a cell of the input table in three ways only:
    [pd.isna(val)] / [pd.notna(val)], [str(val)], and
    [pd.to_datetime(val, ...)].  A cell is modelled by the first two
    observations; the third is a parameter of the pipeline.  A missing
    value (NaN, None, NaT) has [isna = true] and its own text
    (["nan"], ["None"], ["NaT"]). *)

Record cell := Cell { isna : bool; to_str : str }.

Definition notna (c : cell) : bool := negb (isna c).

(** A text cell, as the transformers produce. *)
Definition text (s : str) : cell := Cell false s.

(** A missing numeric cell, as the readers produce for an empty field. *)
Definition NaN : cell := Cell true (lit "nan").

(** ** Amount -> Document Balance  ([format_amount]) *)

Definition dollar : N := 36.
Definition comma : N := 44.
Definition pound : N := 163.
Definition euro : N := 8364.

Definition clean (s : str) : str :=
  strip (replace euro [] (replace pound [] (replace comma []
        (replace dollar [] s)))).

(** [float(clean_val)] raises [ValueError] exactly when [parse] is [None];
    the bare [except] turns that into ["0.00"]. *)
Definition format_amount (val : cell) : str :=
  let clean_val := clean (to_str val) in
  if eqb clean_val [] || eqb (lower clean_val) (lit "nan") then lit "0.00"
  else match parse clean_val with
       | Some x => format_2f x
       | None => lit "0.00"
       end.

(** ** Transaction Type  ([determine_transaction_type]) *)

Definition determine_transaction_type (balance_str : str) : str :=
  match parse balance_str with
  | Some balance_val => if ge0 balance_val then lit "INV" else lit "CRD"
  | None => lit "INV"
  end.

(** The shape [-?\d+\.\d{2}] of a Document Balance. *)
Definition drop_minus (s : str) : str :=
  match s with
  | 45%N :: t => t
  | _ => s
  end.

Definition two_decimals (s : str) : bool :=
  match rev (drop_minus s) with
  | d2 :: d1 :: dot :: ip =>
      is_digit d2 && is_digit d1 && (dot =? 46)%N
      && negb (Nat.eqb (List.length ip) 0) && forallb is_digit ip
  | _ => false
  end.

(** ** Dates: [datetime.strptime] and [strftime] *)

Module Datetime.

Local Open Scope N_scope.

Record datetime := Datetime
  { year : N; month : N; day : N; hour : N; minute : N; second : N }.

(** The regular expression [strptime] builds from a format matches with
    backtracking; a matcher returns its successes in the order the
    engine tries them, each with the text left over. *)
Definition matcher (A : Type) := str -> list (A * str).

(** One alternative of a group: a fixed-shape prefix read as a number. *)
Fixpoint alt (shape : list (N -> bool)) (acc : N) (s : str)
  : option (N * str) :=
  match shape with
  | [] => Some (acc, s)
  | p :: shape' =>
      match s with
      | c :: s' =>
          if p c
          then alt shape' (if is_digit c then 10 * acc + digit_val c else acc) s'
          else None
      | [] => None
      end
  end.

Definition between (lo hi : N) (c : N) : bool := (lo <=? c) && (c <=? hi).
Definition chr (a : N) (c : N) : bool := c =? a.

Definition alts (shapes : list (list (N -> bool))) : matcher N :=
  fun s =>
    flat_map (fun sh => match alt sh 0 s with
                        | Some r => [r]
                        | None => []
                        end) shapes.

Definition d09 := between 48 57.

(** [%d]: [3[0-1]|[1-2]\d|0[1-9]|[1-9]| [1-9]] *)
Definition re_d : matcher N :=
  alts [ [chr 51; between 48 49]; [between 49 50; d09];
         [chr 48; between 49 57]; [between 49 57]; [chr 32; between 49 57] ].

(** [%m]: [1[0-2]|0[1-9]|[1-9]] *)
Definition re_m : matcher N :=
  alts [ [chr 49; between 48 50]; [chr 48; between 49 57]; [between 49 57] ].

(** [%Y]: [\d\d\d\d] *)
Definition re_Y : matcher N := alts [ [d09; d09; d09; d09] ].

(** [%H]: [2[0-3]|[0-1]\d|\d] *)
Definition re_H : matcher N :=
  alts [ [chr 50; between 48 51]; [between 48 49; d09]; [d09] ].

(** [%M]: [[0-5]\d|\d] *)
Definition re_M : matcher N := alts [ [between 48 53; d09]; [d09] ].

(** [%S]: [6[0-1]|[0-5]\d|\d] *)
Definition re_S : matcher N :=
  alts [ [chr 54; between 48 49]; [between 48 53; d09]; [d09] ].

(** [%b]: the abbreviated month names of the C locale, in any case. *)
Definition month_names : list str :=
  List.map lit ["jan"; "feb"; "mar"; "apr"; "may"; "jun";
                "jul"; "aug"; "sep"; "oct"; "nov"; "dec"]%string.

Fixpoint re_b_from (names : list str) (k : N) : matcher N :=
  fun s =>
    match names with
    | [] => []
    | nm :: names' =>
        (if eqb (lower (firstn 3 s)) nm then [(k, skipn 3 s)] else [])
        ++ re_b_from names' (k + 1) s
    end.

Definition re_b : matcher N := re_b_from month_names 1.

(** [\s+], greedy: the longest run first, then shorter ones. *)
Fixpoint re_ws_from (s : str) : list (unit * str) :=
  match s with
  | c :: s' => if isspace c then re_ws_from s' ++ [(tt, s')] else []
  | [] => []
  end.

Definition re_ws : matcher unit := re_ws_from.

Definition re_lit (a : N) : matcher unit :=
  fun s => match s with
           | c :: s' => if c =? a then [(tt, s')] else []
           | [] => []
           end.

Inductive directive :=
| Dd | Dm | DY | Db | DH | DM | DS | Dws | Dlit (c : N).

(** A format string as the sequence of its directives; a run of white
    space in the format stands for [\s+]. *)
Fixpoint parse_format (prev_ws : bool) (fmt : str) : option (list directive) :=
  match fmt with
  | [] => Some []
  | 37 :: c :: fmt' =>
      match (if c =? 100 then Some Dd else if c =? 109 then Some Dm
             else if c =? 89 then Some DY else if c =? 98 then Some Db
             else if c =? 72 then Some DH else if c =? 77 then Some DM
             else if c =? 83 then Some DS else None),
            parse_format false fmt' with
      | Some d, Some ds => Some (d :: ds)
      | _, _ => None
      end
  | c :: fmt' =>
      if isspace c then
        if prev_ws then parse_format true fmt'
        else option_map (cons Dws) (parse_format true fmt')
      else option_map (cons (Dlit c)) (parse_format false fmt')
  end.

Definition set_field (d : directive) (v : N) (t : datetime) : datetime :=
  match d with
  | Dd => Datetime (year t) (month t) v (hour t) (minute t) (second t)
  | Dm | Db => Datetime (year t) v (day t) (hour t) (minute t) (second t)
  | DY => Datetime v (month t) (day t) (hour t) (minute t) (second t)
  | DH => Datetime (year t) (month t) (day t) v (minute t) (second t)
  | DM => Datetime (year t) (month t) (day t) (hour t) v (second t)
  | DS => Datetime (year t) (month t) (day t) (hour t) (minute t) v
  | _ => t
  end.

Definition run_directive (d : directive) (t : datetime) : matcher datetime :=
  fun s =>
    let num (m : matcher N) :=
      List.map (fun '(v, r) => (set_field d v t, r)) (m s) in
    let skip (m : matcher unit) :=
      List.map (fun '(_, r) => (t, r)) (m s) in
    match d with
    | Dd => num re_d | Dm => num re_m | DY => num re_Y | Db => num re_b
    | DH => num re_H | DM => num re_M | DS => num re_S
    | Dws => skip re_ws | Dlit c => skip (re_lit c)
    end.

Fixpoint run_format (ds : list directive) (t : datetime) : matcher datetime :=
  fun s =>
    match ds with
    | [] => [(t, s)]
    | d :: ds' =>
        flat_map (fun '(t', s') => run_format ds' t' s') (run_directive d t s)
    end.

Definition is_leap (y : N) : bool :=
  (y mod 4 =? 0) && (negb (y mod 100 =? 0) || (y mod 400 =? 0)).

Definition days_in_month (y m : N) : N :=
  if m =? 2 then (if is_leap y then 29 else 28)
  else if (m =? 4) || (m =? 6) || (m =? 9) || (m =? 11) then 30 else 31.

(** What the [datetime] constructor accepts. *)
Definition valid (t : datetime) : bool :=
  (1 <=? year t) && (year t <=? 9999) && (1 <=? month t) && (month t <=? 12)
  && (1 <=? day t) && (day t <=? days_in_month (year t) (month t))
  && (hour t <? 24) && (minute t <? 60) && (second t <? 60).

(** Fields a format leaves out default to 1900-01-01 00:00:00. *)
Definition epoch : datetime := Datetime 1900 1 1 0 0 0.

(** [datetime.strptime(s, fmt)]; [None] stands for [ValueError]: no match,
    unconverted data after the first match, or fields that do not make a
    date. *)
Definition strptime (s fmt : str) : option datetime :=
  match parse_format false fmt with
  | None => None
  | Some ds =>
      match run_format ds epoch s with
      | (t, []) :: _ => if valid t then Some t else None
      | _ => None
      end
  end.

(** [t.strftime("%d/%m/%Y")].  CPython hands the format to [strftime] of
    the C library; glibc writes [%d] and [%m] with two digits and [%Y]
    as the decimal digits of the year, without padding: a year below
    1000 comes out with fewer than four digits ([999], not [0999]). *)
Definition strftime (t : datetime) : str :=
  zfill 2 (digits (day t)) ++ lit "/" ++ zfill 2 (digits (month t))
  ++ lit "/" ++ digits (year t).

End Datetime.

Import Datetime.

(** ** Tables *)

Inductive error :=
| UnsupportedFormat
| EmptyInput
| MissingColumns (missing_cols : list str)
| KeyError (label : str).

Inductive result (A : Type) :=
| Ok (a : A)
| Err (e : error).

Arguments Ok {A} a.
Arguments Err {A} e.

Definition bind {A B} (r : result A) (k : A -> result B) : result B :=
  match r with
  | Ok a => k a
  | Err e => Err e
  end.

Notation "x <- r ;; k" := (bind r (fun x => k))
  (at level 61, r at next level, right associativity).

(** A pandas [Series]: values under an index of row labels. *)
Record Series := MkSeries { s_index : list N; values : list cell }.

(** A pandas [DataFrame]: named columns, in order, under one index.  The
    readers give every column as many values as the index has labels. *)
Record DataFrame := MkFrame { index : list N; columns : list (str * list cell) }.

Definition labels (df : DataFrame) : list str := List.map fst (columns df).

Fixpoint lookup {A} (k : str) (l : list (str * A)) : option A :=
  match l with
  | [] => None
  | (k', v) :: l' => if eqb k' k then Some v else lookup k l'
  end.

(** [df[label]] *)
Definition getitem (df : DataFrame) (label : str) : result Series :=
  match lookup label (columns df) with
  | Some vs => Ok (MkSeries (index df) vs)
  | None => Err (KeyError label)
  end.

(** [df[label] = series]; a frame without columns takes the index of the
    series, and all series of this program share one index. *)
Fixpoint assoc_set {A} (k : str) (v : A) (l : list (str * A)) : list (str * A) :=
  match l with
  | [] => [(k, v)]
  | (k', v') :: l' =>
      if eqb k' k then (k', v) :: l' else (k', v') :: assoc_set k v l'
  end.

Definition setitem (df : DataFrame) (label : str) (s : Series) : DataFrame :=
  MkFrame (match columns df with [] => s_index s | _ => index df end)
          (assoc_set label (values s) (columns df)).

(** [series.apply(f)] *)
Definition apply (f : cell -> cell) (s : Series) : Series :=
  MkSeries (s_index s) (List.map f (values s)).

(** Row number [i] of a frame, as the labelled series [df.apply(f, axis=1)]
    hands to [f].

    pandas takes these series from [df.values], where the columns share
    one dtype: in a frame whose columns are all numeric and not all
    integer, an integer cell reaches [f] as a float ([100] as [100.0]).
    The model hands over the cells of the columns as they are.  It
    follows the code on every frame with a column that is not numeric
    (text, dates, mixed values), and on the others up to this
    conversion of the two cells [create_document_number] reads: there
    the parts of a Document Number are the texts of the converted
    cells. *)
Definition row := list (str * cell).

Definition heads (cols : list (str * list cell)) : row :=
  List.map (fun '(h, vs) => (h, hd NaN vs)) cols.

Definition tails (cols : list (str * list cell)) : list (str * list cell) :=
  List.map (fun '(h, vs) => (h, tl vs)) cols.

Fixpoint rows_of (idx : list N) (cols : list (str * list cell)) : list row :=
  match idx with
  | [] => []
  | _ :: idx' => heads cols :: rows_of idx' (tails cols)
  end.

Definition rows (df : DataFrame) : list row := rows_of (index df) (columns df).

(** [row[label]] *)
Definition row_get (r : row) (label : str) : result cell :=
  match lookup label r with
  | Some c => Ok c
  | None => Err (KeyError label)
  end.

Fixpoint sequence {A} (l : list (result A)) : result (list A) :=
  match l with
  | [] => Ok []
  | r :: l' => a <- r ;; t <- sequence l' ;; Ok (a :: t)
  end.

(** [df.apply(f, axis=1)] *)
Definition apply_rows (f : row -> result cell) (df : DataFrame) : result Series :=
  vs <- sequence (List.map f (rows df)) ;; Ok (MkSeries (index df) vs).

(** [l[mask]] *)
Fixpoint select {A} (mask : list bool) (l : list A) : list A :=
  match mask, l with
  | b :: mask', a :: l' => if b then a :: select mask' l' else select mask' l'
  | _, _ => []
  end.

(** [df[mask]] *)
Definition filter_rows (mask : list bool) (df : DataFrame) : DataFrame :=
  MkFrame (select mask (index df))
          (List.map (fun '(h, vs) => (h, select mask vs)) (columns df)).

(** [df.reset_index(drop=True)] *)
Definition reset_index (df : DataFrame) : DataFrame :=
  MkFrame (List.map N.of_nat (seq 0 (List.length (index df)))) (columns df).

(** [df[[label, ...]]] *)
Definition project (df : DataFrame) (names : list str) : result DataFrame :=
  cols <- sequence (List.map (fun h => s <- getitem df h ;; Ok (h, values s)) names) ;;
  Ok (MkFrame (index df) cols).

(** [df.empty] *)
Definition empty (df : DataFrame) : bool :=
  match index df, columns df with
  | _ :: _, _ :: _ => false
  | _, _ => true
  end.

Fixpoint endswith (s suffix : str) : bool :=
  eqb s suffix || match s with
                  | [] => false
                  | _ :: s' => endswith s' suffix
                  end.

(** ** The dictionary [required_cols] *)

Definition dict := list (str * option str).

Definition required_cols_init : dict :=
  [ (lit "customer", None); (lit "order_number", None);
    (lit "reference", None); (lit "date", None); (lit "amount", None) ].

(** [required_cols[key]] where a header is expected. *)
Definition required (required_cols : dict) (key : str) : result str :=
  match lookup key required_cols with
  | Some (Some col) => Ok col
  | _ => Err (KeyError key)
  end.

(** The body of the loop over [df.columns]. *)
Definition match_column (required_cols : dict) (col : str) : dict :=
  let col_lower := strip (lower col) in
  if eqb (lit "customer") col_lower
  then assoc_set (lit "customer") (Some col) required_cols
  else if eqb (lit "order nbr.") col_lower
  then assoc_set (lit "order_number") (Some col) required_cols
  else if eqb (lit "reference nbr.") col_lower
  then assoc_set (lit "reference") (Some col) required_cols
  else if eqb (lit "date") col_lower
  then assoc_set (lit "date") (Some col) required_cols
  else if eqb (lit "amount") col_lower
  then assoc_set (lit "amount") (Some col) required_cols
  else required_cols.

Definition find_columns (cols : list str) : dict :=
  fold_left match_column cols required_cols_init.

(** [[k for k, v in required_cols.items() if v is None]] *)
Definition missing (required_cols : dict) : list str :=
  List.map fst (filter (fun '(_, v) => match v with None => true | _ => false end)
                       required_cols).

(** ** [process_file] *)

Record file := MkFile { name : str; content : list N }.

Definition output_columns : list str :=
  List.map lit [ "Debtor Reference"; "Transaction Type"; "Document Number";
                 "Document Date"; "Document Balance" ]%string.

Definition date_formats : list str :=
  List.map lit [ "%d/%m/%Y"; "%Y-%m-%d"; "%d-%m-%Y"; "%m/%d/%Y"; "%Y/%m/%d";
                 "%d-%b-%Y"; "%d %b %Y"; "%Y-%m-%d %H:%M:%S";
                 "%d/%m/%Y %H:%M:%S" ]%string.

Definition create_document_number (required_cols : dict) (r : row) : result str :=
  k1 <- required required_cols (lit "order_number") ;;
  c1 <- row_get r k1 ;;
  let order_num := if notna c1 then to_str c1 else [] in
  k2 <- required required_cols (lit "reference") ;;
  c2 <- row_get r k2 ;;
  let reference := if notna c2 then to_str c2 else [] in
  Ok (lit "O_" ++ order_num ++ lit "_" ++ reference).

(** The loop over the explicit formats: the first one that parses
    returns; a [ValueError] moves on to the next. *)
Fixpoint try_formats (fmts : list str) (s : str) : option str :=
  match fmts with
  | [] => None
  | fmt :: fmts' =>
      match strptime s fmt with
      | Some t => Some (strftime t)
      | None => try_formats fmts' s
      end
  end.

Definition keep_row (debtor number : cell) : bool :=
  notna debtor && negb (eqb (strip (to_str debtor)) [])
  && notna number && negb (eqb (strip (to_str number)) []).

Section Pipeline.

(** The pandas functions the program calls on the raw input:
    [pd.to_datetime(val, dayfirst=True, errors="coerce")], with [None] for
    [NaT] or an exception, and the two readers. *)
Variable to_datetime : cell -> option datetime.
Variable read_csv read_excel : file -> DataFrame.

Definition format_date (val : cell) : str :=
  if isna val || eqb (strip (to_str val)) [] then []
  else match try_formats date_formats (to_str val) with
       | Some s => s
       | None =>
           match to_datetime val with
           | Some parsed_date => strftime parsed_date
           | None => to_str val
           end
       end.

(** The part of [process_file] after the columns are found. *)
Definition transform (required_cols : dict) (df : DataFrame) : result DataFrame :=
  let output := MkFrame [] [] in
  c <- required required_cols (lit "customer") ;;
  customer <- getitem df c ;;
  let output := setitem output (lit "Debtor Reference") customer in
  numbers <- apply_rows (fun r => n <- create_document_number required_cols r ;;
                                  Ok (text n)) df ;;
  let output := setitem output (lit "Document Number") numbers in
  d <- required required_cols (lit "date") ;;
  dates <- getitem df d ;;
  let output := setitem output (lit "Document Date")
                        (apply (fun v => text (format_date v)) dates) in
  a <- required required_cols (lit "amount") ;;
  amounts <- getitem df a ;;
  let balances := apply (fun v => text (format_amount v)) amounts in
  let output := setitem output (lit "Document Balance") balances in
  let output := setitem output (lit "Transaction Type")
                        (apply (fun b => text (determine_transaction_type (to_str b)))
                               balances) in
  debtor <- getitem output (lit "Debtor Reference") ;;
  number <- getitem output (lit "Document Number") ;;
  let mask := List.map (fun '(x, y) => keep_row x y)
                       (combine (values debtor) (values number)) in
  let output := reset_index (filter_rows mask output) in
  project output output_columns.

(** The choice of a reader by the file name. *)
Definition read_file (f : file) : result DataFrame :=
  let fname := lower (name f) in
  if endswith fname (lit ".csv") then Ok (read_csv f)
  else if endswith fname (lit ".xls") || endswith fname (lit ".xlsx")
  then Ok (read_excel f)
  else Err UnsupportedFormat.

Definition process_file (f : file) : result DataFrame :=
  df <- read_file f ;;
  if empty df then Err EmptyInput else
  let required_cols := find_columns (labels df) in
  let missing_cols := missing required_cols in
  match missing_cols with
  | _ :: _ => Err (MissingColumns missing_cols)
  | [] => transform required_cols df
  end.

End Pipeline.


(** * What the properties are stated with *)

(** ** The column resolver *)

(** The semantic keys with the header text each one answers to. *)
Definition aliases : list (str * str) :=
  [ (lit "customer", lit "customer"); (lit "order_number", lit "order nbr.");
    (lit "reference", lit "reference nbr."); (lit "date", lit "date");
    (lit "amount", lit "amount") ].

(** A header matches an alias when its lower-cased, trimmed text is the
    alias. *)
Definition matches (alias col : str) : bool := eqb alias (strip (lower col)).

(** The keys for which no header of [cols] matches, in the order of the
    dictionary. *)
Definition unresolved (cols : list str) : list str :=
  List.map fst
    (filter (fun '(_, a) => forallb (fun c => negb (matches a c)) cols) aliases).

(** ** Rows and columns *)

Definition field (r : row) (h : str) : cell :=
  match lookup h r with
  | Some c => c
  | None => NaN
  end.

(** The text a cell contributes to a Document Number. *)
Definition shown (c : cell) : str := if notna c then to_str c else [].

Definition well_formed (df : DataFrame) : Prop :=
  Forall (fun '(_, vs) => List.length vs = List.length (index df)) (columns df).

Section Output.

Variable to_datetime : cell -> option datetime.
Variables c o r d a : str.

(** What one row of the input becomes, field by field, in the order of
    the output columns. *)
Definition output_fields : list (str * (row -> cell)) :=
  [ (lit "Debtor Reference", fun rw => field rw c);
    (lit "Transaction Type",
     fun rw => text (determine_transaction_type (format_amount (field rw a))));
    (lit "Document Number",
     fun rw => text (lit "O_" ++ shown (field rw o) ++ lit "_" ++ shown (field rw r)));
    (lit "Document Date", fun rw => text (format_date to_datetime (field rw d)));
    (lit "Document Balance", fun rw => text (format_amount (field rw a))) ].

Definition output_row (rw : row) : row :=
  List.map (fun '(l, g) => (l, g rw)) output_fields.

(** The rows that pass the filter: customer present and not blank. *)
Definition kept (rw : row) : bool :=
  notna (field rw c) && negb (eqb (strip (to_str (field rw c))) []).

End Output.

(** The two fields the filter looks at. *)
Definition complete (rw : row) : Prop :=
  notna (field rw (lit "Debtor Reference")) = true
  /\ strip (to_str (field rw (lit "Debtor Reference"))) <> []
  /\ notna (field rw (lit "Document Number")) = true
  /\ strip (to_str (field rw (lit "Document Number"))) <> [].

(** ** Amounts *)

(** The exact value of a finite float. *)
Definition magnitude (m : positive) (e : Z) : Q :=
  match e with
  | Z0 => inject_Z (Z.pos m)
  | Zpos p => inject_Z (Z.pos (m * 2 ^ p))
  | Zneg p => Z.pos m # (2 ^ p)
  end.

Definition value (x : float) : option Q :=
  match x with
  | S754_zero _ => Some 0%Q
  | S754_finite s m e =>
      Some (if s then Qopp (magnitude m e) else magnitude m e)
  | _ => None
  end.

Definition finite (x : float) : bool :=
  match x with
  | S754_zero _ | S754_finite _ _ _ => true
  | _ => false
  end.

(** The exponent and the mantissa [of_ratio] rounds to, the mantissa
    written with magnitudes scaled by [2 ^ 1074], which makes every
    binary64 number an integer. *)
Definition rounded_exponent (n d : Z) : Z :=
  Z.max (ilog2_ratio n d - 52) (-1074)%Z.

Definition rounded_mantissa (n d : Z) : Z :=
  round_half_even (n * 2 ^ 1074)%Z (d * 2 ^ (rounded_exponent n d + 1074))%Z.

(** [|x| * 2 ^ 1074] for a finite [x]. *)
Definition scaled (m : positive) (e : Z) : Z := (Z.pos m * 2 ^ (e + 1074))%Z.

(** The finite binary64 numbers. *)
Definition binary64 (m : positive) (e : Z) : Prop :=
  (Z.pos m < 2 ^ 53 /\ -1074 <= e <= 971)%Z.

(** The number a run of digits stands for, read after [acc]. *)
Definition dval (ds : str) (acc : Z) : Z :=
  fold_left (fun a c => 10 * a + Z.of_N (digit_val c))%Z ds acc.

(** The characters of a formatted number. *)
Definition plain (c : N) : bool := is_digit c || (c =? 45)%N || (c =? 46)%N.

(** ** Dates *)

(** Day, month and year with slashes between them: day and month with
    two digits, the year with the digits it has. *)
Definition day_month_year (d m y : N) : str :=
  zfill 2 (digits d) ++ lit "/" ++ zfill 2 (digits m) ++ lit "/" ++ digits y.

(** The shape [DD/MM/YYYY]. *)
Definition dd_mm_yyyy (s : str) : bool :=
  match s with
  | [d1; d2; s1; m1; m2; s2; y1; y2; y3; y4] =>
      forallb is_digit [d1; d2; m1; m2; y1; y2; y3; y4]
      && (s1 =? 47)%N && (s2 =? 47)%N
  | _ => false
  end.

(** ** Sample tables *)

Definition two_column_table : DataFrame :=
  MkFrame [0%N] [ (lit "Customer", [text (lit "Acme")]);
                  (lit "Amount", [text (lit "1")]) ].

Definition sample_row : row :=
  [ (lit "Order Nbr.", NaN); (lit "Reference Nbr.", text []) ].

Definition scenario_table : DataFrame :=
  MkFrame [0; 1; 2]%N
    [ (lit "Customer", [text (lit "Acme"); text (lit "  "); text (lit "Bolt")]);
      (lit "Order Nbr.", [text (lit "100"); text (lit "101"); text (lit "102")]);
      (lit "Reference Nbr.", [text (lit "R1"); text (lit "R2"); NaN]);
      (lit "Date", [text (lit "01/02/2023"); text (lit "2023-03-04");
                    text (lit "02/13/2023")]);
      (lit "Amount", [text (lit "$1,200.50"); text (lit "7"); text (lit "-50")]) ].

Definition scenario_file : file := MkFile (lit "export.CSV") [].

(** ** Cleaning and matching *)

(** The text of an amount cell without the four signs [format_amount]
    removes. *)
Definition unsymbol (s : str) : str :=
  replace euro [] (replace pound [] (replace comma [] (replace dollar [] s))).

(** A run of digits without its leading zeros, one digit at least:
    [ds.lstrip("0") or "0"]. *)
Definition unpadded (ds : str) : str :=
  match lstrip_by (fun c => c =? 48)%N ds with
  | [] => lit "0"
  | r => r
  end.

(** A header that matches none of the five aliases. *)
Definition unmatched (h : str) : Prop :=
  forall key alias, In (key, alias) aliases -> matches alias h = false.

(** ** Reading a date *)

(** The first result of a backtracking matcher: the one [strptime]
    takes. *)
Definition starts {A} (l : list A) (x : A) : Prop := exists more, l = x :: more.

(** The matcher of a directive that reads a number. *)
Definition numeric (d : directive) : option (matcher N) :=
  match d with
  | Dd => Some re_d | Dm => Some re_m | DY => Some re_Y | Db => Some re_b
  | DH => Some re_H | DM => Some re_M | DS => Some re_S
  | _ => None
  end.

(** A date written day first, with slashes and a year of four digits. *)
Definition day_first_text (y m d : N) : str :=
  zfill 2 (digits d) ++ lit "/" ++ zfill 2 (digits m) ++ lit "/"
  ++ zfill 4 (digits y).

(** A date written year first, with dashes. *)
Definition iso_text (y m d : N) : str :=
  zfill 4 (digits y) ++ lit "-" ++ zfill 2 (digits m) ++ lit "-"
  ++ zfill 2 (digits d).

(** A date written month first, with slashes. *)
Definition month_first_text (y m d : N) : str :=
  zfill 2 (digits m) ++ lit "/" ++ zfill 2 (digits d) ++ lit "/"
  ++ zfill 4 (digits y).

(** ** More sample tables *)

(** [scenario_table] with a column more. *)
Definition scenario_with_notes : DataFrame :=
  MkFrame (index scenario_table)
          (firstn 2 (columns scenario_table)
           ++ (lit "Notes", [text (lit "a"); NaN; text (lit "c")])
           :: skipn 2 (columns scenario_table)).

(** What [process_file] makes of [scenario_table]. *)
Definition scenario_result : DataFrame :=
  MkFrame [0; 1]%N
    [ (lit "Debtor Reference", [text (lit "Acme"); text (lit "Bolt")]);
      (lit "Transaction Type", [text (lit "INV"); text (lit "CRD")]);
      (lit "Document Number", [text (lit "O_100_R1"); text (lit "O_102_")]);
      (lit "Document Date", [text (lit "01/02/2023"); text (lit "13/02/2023")]);
      (lit "Document Balance", [text (lit "1200.50"); text (lit "-50.00")]) ].

(** A table without a customer in any row. *)
Definition blank_customers : DataFrame :=
  MkFrame [0; 1]%N
    [ (lit "Customer", [NaN; text (lit "   ")]);
      (lit "Order Nbr.", [text (lit "1"); text (lit "2")]);
      (lit "Reference Nbr.", [text (lit "a"); text (lit "b")]);
      (lit "Date", [text (lit "01/02/2023"); NaN]);
      (lit "Amount", [text (lit "5"); text (lit "6")]) ].

(** * Properties *)

(** ** Text *)

Lemma eqb_eq (a b : str) : eqb a b = true <-> a = b.
Proof.
  revert b; induction a as [|x a IH]; intros [|y b]; simpl;
    try (split; congruence).
  rewrite andb_true_iff, N.eqb_eq, IH. split.
  - intros [-> ->]; reflexivity.
  - intros H; inversion H; auto.
Qed.

Lemma eqb_refl (a : str) : eqb a a = true.
Proof. now apply eqb_eq. Qed.

Lemma eqb_neq (a b : str) : eqb a b = false <-> a <> b.
Proof.
  rewrite <- eqb_eq. destruct (eqb a b); split; congruence.
Qed.

(** ** The column resolver *)

Lemma match_column_step (found : str -> option str) (col : str) :
  match_column (List.map (fun '(k, a) => (k, found a)) aliases) col
  = List.map (fun '(k, a) => (k, if matches a col then Some col else found a))
             aliases.
Proof.
  unfold match_column, matches.
  destruct (eqb (lit "customer") (strip (lower col))) eqn:E1.
  { apply eqb_eq in E1. rewrite <- E1. reflexivity. }
  destruct (eqb (lit "order nbr.") (strip (lower col))) eqn:E2.
  { apply eqb_eq in E2. rewrite <- E2. reflexivity. }
  destruct (eqb (lit "reference nbr.") (strip (lower col))) eqn:E3.
  { apply eqb_eq in E3. rewrite <- E3. reflexivity. }
  destruct (eqb (lit "date") (strip (lower col))) eqn:E4.
  { apply eqb_eq in E4. rewrite <- E4. reflexivity. }
  destruct (eqb (lit "amount") (strip (lower col))) eqn:E5.
  { apply eqb_eq in E5. rewrite <- E5. reflexivity. }
  unfold aliases. cbn [List.map]. rewrite E1, E2, E3, E4, E5. reflexivity.
Qed.

(** After the scan every key holds the last header that matches it. *)
Lemma find_columns_eq (cols : list str) :
  find_columns cols
  = List.map (fun '(k, a) => (k, find (matches a) (rev cols))) aliases.
Proof.
  unfold find_columns. rewrite <- fold_left_rev_right.
  induction (rev cols) as [|c l IH].
  - reflexivity.
  - cbn [fold_right]. rewrite IH, match_column_step. reflexivity.
Qed.

Lemma lookup_aliases (found : str -> option str) (key alias : str) :
  In (key, alias) aliases ->
  lookup key (List.map (fun '(k, a) => (k, found a)) aliases) = Some (found alias).
Proof.
  intros H. simpl in H.
  repeat (destruct H as [H|H]; [inversion H; subst; reflexivity|]).
  contradiction.
Qed.

Lemma find_last (p : str -> bool) (before after : list str) (c : str) :
  p c = true -> Forall (fun c' => p c' = false) after ->
  find p (rev (before ++ c :: after)) = Some c.
Proof.
  intros Hc Ha. rewrite rev_app_distr. cbn [rev]. rewrite <- app_assoc.
  apply Forall_rev in Ha. induction (rev after) as [|x l IH].
  - simpl. now rewrite Hc.
  - inversion Ha; subst. simpl. rewrite H1. auto.
Qed.

Lemma find_none_iff (p : str -> bool) (l : list str) :
  find p l = None <-> Forall (fun c => p c = false) l.
Proof.
  induction l as [|x l IH]; simpl.
  - split; auto.
  - destruct (p x) eqn:E.
    + split; [discriminate|]. intros H; inversion H; congruence.
    + rewrite IH. split; [auto|]. intros H; inversion H; auto.
Qed.

(** C3, amended to what the code does: when several headers normalise
    to the alias of one key, the key is bound to the last of them in the
    left-to-right scan; every earlier match is overwritten. *)
Theorem find_columns_last_match_wins
  (before after : list str) (col key alias : str) :
  In (key, alias) aliases ->
  matches alias col = true ->
  Forall (fun c => matches alias c = false) after ->
  lookup key (find_columns (before ++ col :: after)) = Some (Some col).
Proof.
  intros Hk Hc Ha. rewrite find_columns_eq.
  rewrite (lookup_aliases (fun a => find (matches a) (rev (before ++ col :: after))) _ _ Hk).
  f_equal. now apply find_last.
Qed.

Lemma find_columns_last_match_wins_witness :
  lookup (lit "customer")
         (find_columns ([lit "Customer"; lit "Date"] ++ lit " CUSTOMER " :: [lit "Amount"]))
  = Some (Some (lit " CUSTOMER ")).
Proof.
  apply (@find_columns_last_match_wins
           [lit "Customer"; lit "Date"] [lit "Amount"] (lit " CUSTOMER ")
           (lit "customer") (lit "customer")).
  - simpl. left. reflexivity.
  - reflexivity.
  - repeat constructor.
Defined.

(** C3 as stated fails: of the two headers [Customer] and [CUSTOMER],
    which both normalise to [customer], the resolver keeps the second
    and not the first. *)
Lemma first_match_is_overwritten :
  let cols := [lit "Customer"; lit "CUSTOMER"] in
  matches (lit "customer") (lit "Customer") = true /\
  matches (lit "customer") (lit "CUSTOMER") = true /\
  find (matches (lit "customer")) cols = Some (lit "Customer") /\
  lookup (lit "customer") (find_columns cols) <> Some (Some (lit "Customer")).
Proof.
  cbv zeta. repeat split; try reflexivity.
  vm_compute. discriminate.
Qed.

Lemma find_rev_none (p : str -> bool) (l : list str) :
  match find p (rev l) with None => true | Some _ => false end
  = forallb (fun c => negb (p c)) l.
Proof.
  destruct (find p (rev l)) eqn:E.
  - symmetry. apply not_true_is_false. intros H.
    rewrite forallb_forall in H.
    apply find_some in E. destruct E as [Hin Hp].
    apply in_rev in Hin. apply H in Hin. rewrite Hp in Hin. discriminate.
  - symmetry. apply forallb_forall. intros x Hx.
    apply find_none with (x := x) in E; [now rewrite E|].
    now apply in_rev in Hx.
Qed.

Lemma missing_map (found : str -> option str) (l : list (str * str)) :
  missing (List.map (fun '(k, a) => (k, found a)) l)
  = List.map fst
      (filter (fun '(_, a) => match found a with None => true | _ => false end) l).
Proof.
  unfold missing. induction l as [|[k a] l IH]; simpl; [reflexivity|].
  destruct (found a); simpl; now rewrite IH.
Qed.

Lemma missing_find_columns (cols : list str) :
  missing (find_columns cols) = unresolved cols.
Proof.
  rewrite find_columns_eq, missing_map. unfold unresolved. f_equal.
  apply filter_ext. intros [k a]. apply find_rev_none.
Qed.

Lemma in_unresolved (cols : list str) (key : str) :
  In key (unresolved cols) <->
  exists alias, In (key, alias) aliases /\
                Forall (fun c => matches alias c = false) cols.
Proof.
  unfold unresolved. rewrite in_map_iff. split.
  - intros [[k a] [Hk Hin]]. simpl in Hk. subst k.
    apply filter_In in Hin. destruct Hin as [Hin Hf].
    exists a. split; [assumption|].
    rewrite forallb_forall in Hf. apply Forall_forall. intros c Hc.
    apply Hf in Hc. now apply negb_true_iff in Hc.
  - intros [a [Hin Hf]]. exists (key, a). split; [reflexivity|].
    apply filter_In. split; [assumption|].
    apply forallb_forall. intros c Hc. rewrite Forall_forall in Hf.
    apply negb_true_iff. auto.
Qed.

(** C4: for an input table (one a reader delivered and that is not
    empty) in which some key has no matching header, [process_file]
    stops with [MissingColumns] listing every key that has none, in
    the order of the dictionary, and returns no table. *)
Theorem missing_columns_all_reported
  (to_datetime : cell -> option datetime) (read_csv read_excel : file -> DataFrame)
  (f : file) (df : DataFrame) (key alias : str) :
  read_file read_csv read_excel f = Ok df ->
  empty df = false ->
  In (key, alias) aliases ->
  Forall (fun c => matches alias c = false) (labels df) ->
  process_file to_datetime read_csv read_excel f
  = Err (MissingColumns (unresolved (labels df)))
  /\ In key (unresolved (labels df))
  /\ forall k, In k (unresolved (labels df)) <->
               exists a, In (k, a) aliases /\
                         Forall (fun c => matches a c = false) (labels df).
Proof.
  intros Hread Hne Hk Hnone.
  assert (Hin : In key (unresolved (labels df))).
  { apply in_unresolved. eauto. }
  split; [|split; [assumption|intros k; apply in_unresolved]].
  unfold process_file. rewrite Hread. cbn [bind]. rewrite Hne.
  rewrite missing_find_columns.
  destruct (unresolved (labels df)); [contradiction|reflexivity].
Qed.

Lemma missing_columns_all_reported_witness :
  process_file (fun _ => None) (fun _ => two_column_table)
               (fun _ => two_column_table) (MkFile (lit "in.csv") [])
  = Err (MissingColumns [lit "order_number"; lit "reference"; lit "date"]).
Proof.
  refine (proj1 (@missing_columns_all_reported
                   (fun _ => None) (fun _ => two_column_table)
                   (fun _ => two_column_table) (MkFile (lit "in.csv") [])
                   two_column_table (lit "date") (lit "date") _ _ _ _)).
  - reflexivity.
  - reflexivity.
  - simpl. tauto.
  - repeat constructor.
Defined.

(** ** Decimal digits *)

Lemma digits_aux_app (fuel : nat) (n : N) (acc : str) :
  digits_aux fuel n acc = digits_aux fuel n [] ++ acc.
Proof.
  revert n acc. induction fuel as [|f IH]; intros n acc; simpl; [reflexivity|].
  destruct (n <? 10)%N; [reflexivity|].
  rewrite IH. rewrite (IH _ [_]). now rewrite <- app_assoc.
Qed.

Lemma is_digit_mod10 (n : N) : is_digit (48 + n mod 10) = true.
Proof.
  pose proof (N.mod_lt n 10 ltac:(discriminate)) as H.
  revert H. generalize (n mod 10)%N. intros r H.
  unfold is_digit. apply andb_true_iff. split; apply N.leb_le; lia.
Qed.

Lemma digits_aux_all (fuel : nat) (n : N) :
  forallb is_digit (digits_aux fuel n []) = true.
Proof.
  revert n. induction fuel as [|f IH]; intros n; cbn [digits_aux];
    [reflexivity|].
  destruct (n <? 10)%N.
  - cbn [forallb]. now rewrite is_digit_mod10.
  - rewrite digits_aux_app, forallb_app, IH. cbn [forallb].
    now rewrite is_digit_mod10.
Qed.

Lemma digits_aux_S (fuel : nat) (n : N) (acc : str) :
  digits_aux (S fuel) n acc
  = if (n <? 10)%N then (48 + n mod 10)%N :: acc
    else digits_aux fuel (n / 10) ((48 + n mod 10)%N :: acc).
Proof. reflexivity. Qed.

Lemma digits_aux_length (fuel : nat) (n : N) (k : nat) :
  (n < 10 ^ N.of_nat (S k))%N ->
  (List.length (digits_aux (S fuel) n []) <= S k)%nat.
Proof.
  revert n k. induction fuel as [|f IH]; intros n k Hn.
  - simpl. destruct (n <? 10)%N; simpl; lia.
  - rewrite digits_aux_S. destruct (n <? 10)%N eqn:E; [simpl; lia|].
    rewrite digits_aux_app, length_app. cbn [List.length].
    apply N.ltb_ge in E.
    destruct k as [|k].
    { change (10 ^ N.of_nat 1)%N with 10%N in Hn. lia. }
    assert (n / 10 < 10 ^ N.of_nat (S k))%N.
    { apply N.Div0.div_lt_upper_bound.
      replace (N.of_nat (S (S k))) with (N.succ (N.of_nat (S k))) in Hn by lia.
      now rewrite N.pow_succ_r' in Hn. }
    specialize (IH _ _ H). lia.
Qed.

Lemma digits_all (n : N) : forallb is_digit (digits n) = true.
Proof. apply digits_aux_all. Qed.

Lemma digits_not_nil (n : N) : digits n <> [].
Proof.
  unfold digits. cbn [digits_aux]. destruct (n <? 10)%N; [discriminate|].
  rewrite digits_aux_app. intros H. apply app_eq_nil in H. destruct H; discriminate.
Qed.

Lemma digits_length (n : N) (k : nat) :
  (n < 10 ^ N.of_nat (S k))%N -> (List.length (digits n) <= S k)%nat.
Proof. apply digits_aux_length. Qed.

Lemma zfill_all (w : nat) (s : str) :
  forallb is_digit s = true -> forallb is_digit (zfill w s) = true.
Proof.
  intros H. unfold zfill. rewrite forallb_app, H, andb_true_r.
  induction (w - List.length s)%nat; simpl; auto.
Qed.

Lemma zfill_length (w : nat) (s : str) :
  (List.length s <= w)%nat -> List.length (zfill w s) = w.
Proof.
  intros H. unfold zfill. rewrite length_app, repeat_length. lia.
Qed.

(** The digits do not depend on the fuel, as long as there is enough. *)
Lemma digits_aux_fuel (f1 f2 : nat) (n : N) (acc : str) :
  (n < 10 ^ N.of_nat (S f1))%N -> (n < 10 ^ N.of_nat (S f2))%N ->
  digits_aux (S f1) n acc = digits_aux (S f2) n acc.
Proof.
  revert f2 n acc. induction f1 as [|f1 IH]; intros f2 n acc H1 H2.
  - change (10 ^ N.of_nat 1)%N with 10%N in H1.
    rewrite !digits_aux_S.
    destruct (n <? 10)%N eqn:E; [reflexivity|]. apply N.ltb_ge in E. lia.
  - rewrite (digits_aux_S (S f1)), (digits_aux_S f2).
    destruct (n <? 10)%N eqn:E; [reflexivity|]. apply N.ltb_ge in E.
    destruct f2 as [|f2].
    { change (10 ^ N.of_nat 1)%N with 10%N in H2. lia. }
    apply IH.
    + apply N.Div0.div_lt_upper_bound.
      replace (N.of_nat (S (S f1))) with (N.succ (N.of_nat (S f1))) in H1 by lia.
      now rewrite N.pow_succ_r' in H1.
    + apply N.Div0.div_lt_upper_bound.
      replace (N.of_nat (S (S f2))) with (N.succ (N.of_nat (S f2))) in H2 by lia.
      now rewrite N.pow_succ_r' in H2.
Qed.

Lemma digits_fuel_enough (n : N) :
  (n < 10 ^ N.of_nat (S (N.to_nat (N.log2 n))))%N.
Proof.
  destruct n as [|p]; [reflexivity|].
  pose proof (N.log2_spec (N.pos p) ltac:(lia)) as [_ H].
  apply (N.lt_le_trans _ _ _ H).
  replace (N.of_nat (S (N.to_nat (N.log2 (N.pos p)))))
    with (N.succ (N.log2 (N.pos p))) by lia.
  apply N.pow_le_mono_l. lia.
Qed.

Lemma digits_fuel (f : nat) (n : N) :
  (n < 10 ^ N.of_nat (S f))%N -> digits n = digits_aux (S f) n [].
Proof.
  intros H. unfold digits. apply digits_aux_fuel; [apply digits_fuel_enough|exact H].
Qed.

Lemma digits_small (c : N) : (c < 10)%N -> digits c = [(48 + c)%N].
Proof.
  intros H. rewrite (digits_fuel 0) by (change (10 ^ N.of_nat 1)%N with 10%N; lia).
  rewrite digits_aux_S. apply N.ltb_lt in H as E. rewrite E.
  now rewrite N.mod_small.
Qed.

Lemma digits_snoc (a c : N) :
  (0 < a)%N -> (c < 10)%N -> digits (10 * a + c) = digits a ++ [(48 + c)%N].
Proof.
  intros Ha Hc.
  pose proof (digits_fuel_enough a) as Hf.
  set (f := N.to_nat (N.log2 a)) in *.
  rewrite (digits_fuel (S f)).
  - rewrite digits_aux_S.
    assert (E : (10 * a + c <? 10)%N = false) by (apply N.ltb_ge; lia).
    rewrite E.
    replace ((10 * a + c) / 10)%N with a
      by (apply (N.div_unique _ 10 a c); lia).
    replace ((10 * a + c) mod 10)%N with c
      by (apply (N.mod_unique _ 10 a c); lia).
    rewrite digits_aux_app. now rewrite <- (digits_fuel f a Hf).
  - replace (N.of_nat (S (S f))) with (N.succ (N.of_nat (S f))) by lia.
    rewrite N.pow_succ_r'. lia.
Qed.

Lemma digits_length_ge (n : N) (k : nat) :
  (10 ^ N.of_nat k <= n)%N -> (S k <= List.length (digits n))%nat.
Proof.
  revert n. induction k as [|k IH]; intros n H.
  - pose proof (digits_not_nil n). destruct (digits n); [contradiction|].
    cbn [List.length]. lia.
  - replace (N.of_nat (S k)) with (N.succ (N.of_nat k)) in H by lia.
    rewrite N.pow_succ_r' in H.
    pose proof (N.div_mod n 10 ltac:(discriminate)) as D.
    pose proof (N.mod_lt n 10 ltac:(discriminate)) as B.
    assert (Ha : (10 ^ N.of_nat k <= n / 10)%N).
    { apply N.div_le_lower_bound; [discriminate|exact H]. }
    assert (0 < 10 ^ N.of_nat k)%N by (apply N.neq_0_lt_0, N.pow_nonzero; discriminate).
    rewrite D, digits_snoc by lia.
    rewrite length_app. cbn [List.length]. specialize (IH _ Ha). lia.
Qed.

Lemma zfill_long (w : nat) (s : str) :
  (w <= List.length s)%nat -> zfill w s = s.
Proof.
  intros H. unfold zfill. now replace (w - List.length s)%nat with O by lia.
Qed.

(** ** The shape of [fixed2] *)

Lemma two_digits (r : N) :
  (r < 100)%N ->
  exists d1 d2, zfill 2 (digits r) = [d1; d2]
                /\ is_digit d1 = true /\ is_digit d2 = true.
Proof.
  intros Hr.
  pose proof (zfill_length 2 (digits r) (digits_length r 1 Hr)) as Hl.
  pose proof (zfill_all 2 (digits r) (digits_all r)) as Ha.
  destruct (zfill 2 (digits r)) as [|d1 [|d2 [|d3 l]]]; try discriminate.
  simpl in Ha. rewrite andb_true_r in Ha. apply andb_true_iff in Ha.
  exists d1, d2. tauto.
Qed.

Lemma is_digit_not_minus (c : N) : is_digit c = true -> c <> 45%N.
Proof.
  unfold is_digit. rewrite andb_true_iff, !N.leb_le. lia.
Qed.

Lemma forallb_rev' {A} (p : A -> bool) (l : list A) :
  forallb p (rev l) = forallb p l.
Proof.
  induction l as [|x l IH]; [reflexivity|].
  cbn [rev forallb]. rewrite forallb_app, IH. cbn [forallb].
  rewrite andb_true_r. apply andb_comm.
Qed.

Lemma drop_minus_digit (c : N) (l : str) :
  is_digit c = true -> drop_minus (c :: l) = c :: l.
Proof.
  intros H. apply is_digit_not_minus in H. unfold drop_minus.
  destruct c as [|p]; [reflexivity|].
  do 6 (destruct p; try reflexivity). congruence.
Qed.

Lemma two_decimals_intro (s : bool) (ip : str) (d1 d2 : N) :
  ip <> [] -> forallb is_digit ip = true ->
  is_digit d1 = true -> is_digit d2 = true ->
  two_decimals (sign_text s ++ ip ++ lit "." ++ [d1; d2]) = true.
Proof.
  intros Hne Hip H1 H2.
  assert (Hd : drop_minus (sign_text s ++ ip ++ lit "." ++ [d1; d2])
               = ip ++ lit "." ++ [d1; d2]).
  { destruct s; [reflexivity|]. cbn [sign_text app].
    destruct ip as [|c ip']; [contradiction|].
    cbn [forallb] in Hip. apply andb_true_iff in Hip.
    apply drop_minus_digit. tauto. }
  unfold two_decimals. rewrite Hd, rev_app_distr.
  change (rev (lit "." ++ [d1; d2])) with [d2; d1; 46%N]. cbn [app].
  rewrite H1, H2. cbn [andb]. rewrite N.eqb_refl. cbn [andb].
  rewrite length_rev, forallb_rev', Hip, andb_true_r.
  destruct ip; [contradiction|reflexivity].
Qed.

Lemma fixed2_shape (s : bool) (q : Z) :
  two_decimals (sign_text s ++ fixed2 q) = true.
Proof.
  unfold fixed2.
  destruct (two_digits (Z.to_N (q mod 100))) as [d1 [d2 [E [H1 H2]]]].
  { pose proof (Z.mod_pos_bound q 100 ltac:(lia)). lia. }
  rewrite E.
  apply two_decimals_intro; auto using digits_not_nil, digits_all.
Qed.

(** ** Amounts *)

Lemma parse_lower_nan (s : str) :
  lower s = lit "nan" -> parse s = Some S754_nan.
Proof.
  assert (Hn : forall c, lower_char c = 110%N -> c = 110%N \/ c = 78%N).
  { intros c. unfold lower_char.
    destruct ((65 <=? c)%N && (c <=? 90)%N) eqn:E; [|auto].
    intros H. right. lia. }
  assert (Ha : forall c, lower_char c = 97%N -> c = 97%N \/ c = 65%N).
  { intros c. unfold lower_char.
    destruct ((65 <=? c)%N && (c <=? 90)%N) eqn:E; [|auto].
    intros H. right. lia. }
  destruct s as [|c1 [|c2 [|c3 [|c4 s]]]]; try discriminate.
  intros H. injection H as H1 H2 H3.
  apply Hn in H1, H3. apply Ha in H2.
  destruct H1, H2, H3; subst; reflexivity.
Qed.

(** What [format_amount] returns, by the reading of the cleaned text. *)
Lemma format_amount_cases (val : cell) :
  (format_amount val = lit "0.00"
   /\ (parse (clean (to_str val)) = None
       \/ parse (clean (to_str val)) = Some S754_nan))
  \/ exists x, parse (clean (to_str val)) = Some x
               /\ format_amount val = format_2f x.
Proof.
  unfold format_amount.
  destruct (eqb (clean (to_str val)) []) eqn:E1.
  { apply eqb_eq in E1. rewrite E1. left. split; [reflexivity|now left]. }
  destruct (eqb (lower (clean (to_str val))) (lit "nan")) eqn:E2.
  { apply eqb_eq in E2. apply parse_lower_nan in E2. left.
    split; [reflexivity|now right]. }
  cbn [orb]. destruct (parse (clean (to_str val))) as [x|].
  - right. exists x. split; reflexivity.
  - left. split; [reflexivity|now left].
Qed.

(** A balance has two decimals unless the cleaned text reads as an
    infinity or a NaN. *)
Lemma format_amount_shape (val : cell) :
  two_decimals (format_amount val) = true
  \/ exists x, parse (clean (to_str val)) = Some x /\ finite x = false
               /\ format_amount val = format_2f x.
Proof.
  destruct (format_amount_cases val) as [[H _]|[x [Hp Hf]]].
  - left. rewrite H. reflexivity.
  - destruct x as [s|s| |s m e].
    + left. rewrite Hf. apply fixed2_shape.
    + right. exists (S754_infinity s). auto.
    + right. exists S754_nan. auto.
    + left. rewrite Hf. apply fixed2_shape.
Qed.

Lemma ge0_lt0 (x : float) :
  x <> S754_nan -> ge0 x = negb (lt0 x).
Proof.
  destruct x as [s|s| |s m e]; try (destruct s; reflexivity).
  congruence.
Qed.

(** The classifier, by the reading of the balance text. *)
Lemma determine_transaction_type_cases (balance_str : str) :
  match parse balance_str with
  | None => determine_transaction_type balance_str = lit "INV"
  | Some x =>
      determine_transaction_type balance_str
      = if ge0 x then lit "INV" else lit "CRD"
  end.
Proof.
  unfold determine_transaction_type. now destruct (parse balance_str).
Qed.

Lemma round_half_even_small (n d : Z) :
  (0 <= n)%Z -> (2 * n < d)%Z -> round_half_even n d = 0%Z.
Proof.
  intros Hn Hd. unfold round_half_even.
  rewrite Z.mod_small, Z.div_small by lia.
  destruct (Z.compare_spec (2 * n) d); lia.
Qed.

Lemma hundredths_tiny (m : positive) (e : Z) :
  (magnitude m e < 5 # 1000)%Q -> hundredths m e = 0%Z.
Proof.
  unfold magnitude, hundredths, Qlt. destruct e as [|p|p]; simpl Qnum; simpl Qden.
  - intros H. lia.
  - intros H. lia.
  - intros H. change (0 <=? Z.neg p)%Z with false. cbv iota.
    apply round_half_even_small; [lia|].
    change (- Z.neg p)%Z with (Z.pos p).
    rewrite Pos2Z.inj_pow in H. lia.
Qed.

(** C1, at the input where the code departs from it: the amount cell
    ["inf"] passes the cleaning, is read by [float()] as infinity and
    is formatted as ["inf"], which is not of the shape [-?\d+\.\d{2}]
    and is not ["0.00"] either. *)
Theorem infinite_amount_is_not_two_decimals :
  clean (lit "inf") = lit "inf"
  /\ parse (lit "inf") = Some (S754_infinity false)
  /\ format_amount (text (lit "inf")) = lit "inf"
  /\ two_decimals (format_amount (text (lit "inf"))) = false.
Proof. repeat split; reflexivity. Qed.

(** The other balances without two decimals: ["-inf"] and ["nan"]. *)
Example format_amount_non_finite :
  List.map (fun s => format_amount (text (lit s)))
           ["Infinity"; "-inf"; "1e999"; "+nan"; "-NaN"]%string
  = List.map lit ["inf"; "-inf"; "inf"; "nan"; "nan"]%string.
Proof. vm_compute. reflexivity. Qed.

(** X18: with the three texts ["inf"], ["-inf"] and ["nan"] set aside,
    every Document Balance is an optional minus sign, digits, a point
    and two digits. *)
Lemma format_amount_two_decimals (val : cell) :
  format_amount val <> lit "inf" -> format_amount val <> lit "-inf" ->
  format_amount val <> lit "nan" ->
  two_decimals (format_amount val) = true.
Proof.
  intros H1 H2 H3.
  destruct (format_amount_shape val) as [H|[x [_ [Hx Hf]]]]; [exact H|].
  exfalso. destruct x as [s|[|]| |s m e]; try discriminate;
    rewrite Hf in *; [apply H2|apply H1|apply H3]; reflexivity.
Qed.

(** C2, at the input where the code departs from it: the amount cell
    ["+nan"] yields the balance ["nan"]; [float("nan")] is a NaN, which
    is not strictly negative, and yet the row is classified ["CRD"],
    because the test [balance_val >= 0] is false on a NaN. *)
Theorem nan_balance_is_classified_as_credit :
  format_amount (text (lit "+nan")) = lit "nan"
  /\ parse (lit "nan") = Some S754_nan
  /\ lt0 S754_nan = false
  /\ determine_transaction_type (format_amount (text (lit "+nan"))) = lit "CRD".
Proof. repeat split; reflexivity. Qed.

(** X19: on every balance that does not read as a NaN the classifier is
    as specified: ["CRD"] exactly when the number read is strictly
    negative, ["INV"] otherwise and when nothing can be read. *)
Lemma determine_transaction_type_by_sign (balance_str : str) :
  parse balance_str <> Some S754_nan ->
  (determine_transaction_type balance_str = lit "CRD"
   <-> exists x, parse balance_str = Some x /\ lt0 x = true)
  /\ (determine_transaction_type balance_str = lit "INV"
      <-> parse balance_str = None
          \/ exists x, parse balance_str = Some x /\ ge0 x = true).
Proof.
  intros Hn. pose proof (determine_transaction_type_cases balance_str) as H.
  destruct (parse balance_str) as [x|].
  - assert (Hx : x <> S754_nan) by (intros E; apply Hn; now rewrite E).
    rewrite H, (ge0_lt0 x Hx).
    destruct (lt0 x) eqn:E; cbn [negb]; split; split.
    + intros _. exists x. split; [reflexivity|exact E].
    + reflexivity.
    + discriminate.
    + intros [D|[y [Ey Hy]]]; [discriminate|].
      inversion Ey; subst y. rewrite (ge0_lt0 x Hx), E in Hy. discriminate.
    + discriminate.
    + intros [y [Ey Hy]]. inversion Ey; subst y. rewrite E in Hy. discriminate.
    + intros _. right. exists x. split; [reflexivity|].
      now rewrite (ge0_lt0 x Hx), E.
    + reflexivity.
  - rewrite H. split; split.
    + discriminate.
    + intros [x [E _]]. discriminate.
    + intros _. now left.
    + reflexivity.
Qed.

Example transaction_types :
  List.map (fun s => determine_transaction_type (format_amount (text (lit s))))
           ["$1,200.50"; "-50"; "abc"; "0"; "-0.001"; "inf"; "-inf"]%string
  = List.map lit ["INV"; "CRD"; "INV"; "INV"; "INV"; "INV"; "CRD"]%string.
Proof. vm_compute. reflexivity. Qed.

(** C10: when the cleaned text of an amount cell reads as a number
    strictly between -0.005 and 0, the balance is ["-0.00"] and the row
    is classified ["INV"]: a strictly negative amount that counts as an
    invoice. *)
Theorem tiny_negative_amount_is_invoice (val : cell) (x : float) (v : Q) :
  parse (clean (to_str val)) = Some x ->
  value x = Some v ->
  (- (5 # 1000) < v)%Q -> (v < 0)%Q ->
  format_amount val = lit "-0.00"
  /\ determine_transaction_type (format_amount val) = lit "INV".
Proof.
  intros Hp Hv Hlo Hhi.
  assert (Hf : format_amount val = lit "-0.00").
  { destruct (format_amount_cases val) as [[_ [H|H]]|[y [Hy Hf]]];
      try (rewrite H in Hp; inversion Hp; subst; discriminate).
    rewrite Hy in Hp. inversion Hp; subst y. rewrite Hf.
    destruct x as [s|s| |s m e]; try discriminate.
    - inversion Hv; subst v. discriminate.
    - cbn [value] in Hv. inversion Hv; subst v. clear Hv.
      destruct s.
      + cbn [format_2f]. rewrite hundredths_tiny; [reflexivity|].
        apply Qopp_lt_compat in Hlo. rewrite !Qopp_involutive in Hlo.
        exact Hlo.
      + exfalso. unfold magnitude, Qlt in Hhi.
        destruct e; simpl in Hhi; lia. }
  split; [exact Hf|]. rewrite Hf. reflexivity.
Qed.

Lemma tiny_negative_amount_is_invoice_witness :
  format_amount (text (lit "-0.001")) = lit "-0.00"
  /\ determine_transaction_type (format_amount (text (lit "-0.001"))) = lit "INV".
Proof.
  apply (tiny_negative_amount_is_invoice
           (text (lit "-0.001"))
           (S754_finite true 4611686018427388 (-62))
           (- (4611686018427388 # 2 ^ 62))%Q).
  - vm_compute. reflexivity.
  - reflexivity.
  - vm_compute. reflexivity.
  - vm_compute. reflexivity.
Defined.

Section Rounding.

Local Open Scope Z_scope.

(** ** Rounding to the nearest integer *)

Lemma round_half_even_spec (n d q : Z) :
  0 < d ->
  round_half_even n d = q <->
  (2 * Z.abs (n - q * d) < d
   \/ (2 * Z.abs (n - q * d) = d /\ Z.even q = true)).
Proof.
  intros Hd. unfold round_half_even.
  pose proof (Z.div_mod n d ltac:(lia)) as E.
  pose proof (Z.mod_pos_bound n d Hd) as B.
  set (a := n / d) in *. set (r := n mod d) in *.
  assert (Hs : Z.even (a + 1) = negb (Z.even a)).
  { rewrite Z.even_add. now destruct (Z.even a). }
  split.
  - intros <-. destruct (Z.compare_spec (2 * r) d) as [C|C|C].
    + right. destruct (Z.even a) eqn:Ea.
      * split; [lia|exact Ea].
      * split; [lia|exact Hs].
    + left. lia.
    + left. lia.
  - intros H.
    assert (Hq : q = a \/ q = a + 1) by nia.
    destruct (Z.compare_spec (2 * r) d) as [C|C|C].
    + destruct (Z.even a) eqn:Ea.
      * destruct Hq as [->| ->]; [reflexivity|].
        destruct H as [H|[_ H]]; [lia|]. rewrite Hs in H. discriminate.
      * destruct Hq as [->| ->]; [|reflexivity].
        destruct H as [H|[_ H]]; [lia|]. congruence.
    + destruct Hq as [->| ->]; [reflexivity|]. lia.
    + destruct Hq as [->| ->]; [|reflexivity]. lia.
Qed.

Lemma round_half_even_scale (n d c : Z) :
  0 < d -> 0 < c -> round_half_even (n * c) (d * c) = round_half_even n d.
Proof.
  intros Hd Hc. apply round_half_even_spec; [now apply Z.mul_pos_pos|].
  set (q := round_half_even n d).
  assert (E : 2 * Z.abs (n * c - q * (d * c)) = 2 * Z.abs (n - q * d) * c).
  { replace (n * c - q * (d * c)) with ((n - q * d) * c) by ring.
    rewrite Z.abs_mul, (Z.abs_eq c) by lia. ring. }
  rewrite E.
  destruct (proj1 (round_half_even_spec n d q Hd) eq_refl) as [H|[H Ev]].
  - left. now apply Z.mul_lt_mono_pos_r.
  - right. split; [now rewrite H|exact Ev].
Qed.

Lemma round_half_even_close (n d : Z) :
  0 < d -> 2 * Z.abs (n - round_half_even n d * d) <= d.
Proof.
  intros Hd.
  destruct (proj1 (round_half_even_spec n d (round_half_even n d) Hd) eq_refl)
    as [H|[H _]]; lia.
Qed.

Lemma round_half_even_nearest (n d j : Z) :
  0 < d ->
  Z.abs (n - round_half_even n d * d) <= Z.abs (n - j * d).
Proof.
  intros Hd. pose proof (round_half_even_close n d Hd) as H.
  set (q := round_half_even n d) in *.
  replace (n - j * d) with ((n - q * d) + (q - j) * d) by ring.
  destruct (Z.lt_trichotomy (q - j) 0) as [L|[E|G]].
  - assert ((q - j) * d <= - d) by nia. lia.
  - rewrite E. simpl. rewrite Z.add_0_r. lia.
  - assert (d <= (q - j) * d) by nia. lia.
Qed.

Lemma round_half_even_bounds (n d lo hi : Z) :
  0 < d -> lo * d <= n -> n <= hi * d ->
  lo <= round_half_even n d <= hi.
Proof.
  intros Hd Hlo Hhi. pose proof (round_half_even_close n d Hd) as H.
  set (q := round_half_even n d) in *.
  split.
  - destruct (Z_lt_le_dec q lo) as [L|L]; [|exact L]. exfalso.
    assert ((lo - q) * d >= d) by nia. lia.
  - destruct (Z_lt_le_dec hi q) as [L|L]; [|exact L]. exfalso.
    assert ((q - hi) * d >= d) by nia. lia.
Qed.

Lemma round_half_even_exact (k d : Z) :
  0 < d -> round_half_even (k * d) d = k.
Proof.
  intros Hd. apply round_half_even_spec; [exact Hd|]. left.
  replace (k * d - k * d) with 0 by ring. simpl. lia.
Qed.


(** ** The binary exponent of a ratio *)

Lemma ilog2_ratio_bounds (n d B : Z) :
  0 < n -> 0 < d -> 0 <= B -> 0 <= ilog2_ratio n d + B ->
  2 ^ (ilog2_ratio n d + B) * d <= n * 2 ^ B
  /\ n * 2 ^ B < 2 ^ (ilog2_ratio n d + 1 + B) * d.
Proof.
  intros Hn Hd HB. unfold ilog2_ratio.
  destruct (Z.log2_spec n Hn) as [Ha1 Ha2].
  destruct (Z.log2_spec d Hd) as [Hb1 Hb2].
  pose proof (Z.log2_nonneg n) as Ha0. pose proof (Z.log2_nonneg d) as Hb0.
  set (a := Z.log2 n) in *. set (b := Z.log2 d) in *.
  assert (HB0 : 0 < 2 ^ B) by (apply Z.pow_pos_nonneg; lia).
  (* bounds that come from the logarithms alone *)
  assert (Llow : 0 <= a - b - 1 + B -> 2 ^ (a - b - 1 + B) * d <= n * 2 ^ B).
  { intros Hk.
    assert (P : 2 ^ (a - b - 1 + B) * 2 ^ Z.succ b = 2 ^ a * 2 ^ B).
    { rewrite <- !Z.pow_add_r by lia. f_equal. lia. }
    assert (0 < 2 ^ (a - b - 1 + B)) by (apply Z.pow_pos_nonneg; lia).
    nia. }
  assert (Lupp : 0 <= a - b + B -> n * 2 ^ B < 2 ^ (a - b + 1 + B) * d).
  { intros Hk.
    assert (P : 2 ^ (a - b + 1 + B) * 2 ^ b = 2 ^ Z.succ a * 2 ^ B).
    { rewrite <- !Z.pow_add_r by lia. f_equal. lia. }
    assert (0 < 2 ^ (a - b + 1 + B)) by (apply Z.pow_pos_nonneg; lia).
    nia. }
  destruct (0 <=? a - b) eqn:Ek.
  - apply Z.leb_le in Ek.
    destruct (n <? d * 2 ^ (a - b)) eqn:T; intros Hk.
    + apply Z.ltb_lt in T.
      replace (a - b - 1 + 1 + B) with (a - b + B) by lia.
      split; [apply Llow; lia|].
      rewrite Z.pow_add_r by lia. nia.
    + apply Z.ltb_ge in T. split; [|apply Lupp; lia].
      rewrite Z.pow_add_r by lia. nia.
  - apply Z.leb_gt in Ek.
    destruct (n * 2 ^ (- (a - b)) <? d) eqn:T; intros Hk.
    + apply Z.ltb_lt in T.
      replace (a - b - 1 + 1 + B) with (a - b + B) by lia.
      split; [apply Llow; lia|].
      assert (P : 2 ^ B = 2 ^ (- (a - b)) * 2 ^ (a - b + B)).
      { rewrite <- Z.pow_add_r by lia. f_equal. lia. }
      assert (0 < 2 ^ (a - b + B)) by (apply Z.pow_pos_nonneg; lia).
      rewrite P. nia.
    + apply Z.ltb_ge in T. split; [|apply Lupp; lia].
      assert (P : 2 ^ B = 2 ^ (- (a - b)) * 2 ^ (a - b + B)).
      { rewrite <- Z.pow_add_r by lia. f_equal. lia. }
      assert (0 < 2 ^ (a - b + B)) by (apply Z.pow_pos_nonneg; lia).
      rewrite P. nia.
Qed.

(** ** Correct rounding of a ratio

    Magnitudes are compared after scaling by [2 ^ 1074], which makes
    every binary64 number an integer. *)

Lemma rounded_exponent_ge (n d : Z) : -1074 <= rounded_exponent n d.
Proof. unfold rounded_exponent. lia. Qed.

Lemma pow2_pos (k : Z) : 0 <= k -> 0 < 2 ^ k.
Proof. intros. apply Z.pow_pos_nonneg; lia. Qed.

Lemma of_ratio_mantissa (n d : Z) :
  0 < d ->
  let e := rounded_exponent n d in
  (if 0 <=? e then round_half_even n (d * 2 ^ e)
   else round_half_even (n * 2 ^ (- e)) d) = rounded_mantissa n d.
Proof.
  intros Hd e. unfold rounded_mantissa. fold e.
  pose proof (rounded_exponent_ge n d) as He. fold e in He.
  destruct (0 <=? e) eqn:E.
  - apply Z.leb_le in E.
    rewrite <- (round_half_even_scale n (d * 2 ^ e) (2 ^ 1074)).
    + f_equal. rewrite Z.pow_add_r by lia. ring.
    + pose proof (pow2_pos e E). nia.
    + now apply pow2_pos.
  - apply Z.leb_gt in E.
    rewrite <- (round_half_even_scale (n * 2 ^ (- e)) d (2 ^ (e + 1074))).
    + f_equal. rewrite <- Z.mul_assoc, <- Z.pow_add_r by lia. do 2 f_equal. lia.
    + exact Hd.
    + apply pow2_pos. lia.
Qed.

Lemma rounded_mantissa_bounds (n d : Z) :
  0 < n -> 0 < d ->
  0 <= rounded_mantissa n d <= 2 ^ 53
  /\ (-1074 < rounded_exponent n d -> 2 ^ 52 <= rounded_mantissa n d).
Proof.
  intros Hn Hd. unfold rounded_mantissa, rounded_exponent.
  set (k := ilog2_ratio n d).
  destruct (Z.max_spec (k - 52) (-1074)) as [[Hk ->]|[Hk ->]].
  - (* subnormal range *)
    change (-1074 + 1074) with 0. rewrite Z.pow_0_r, Z.mul_1_r.
    split; [|lia].
    apply round_half_even_bounds; [exact Hd| |].
    + pose proof (pow2_pos 1074 ltac:(lia)). nia.
    + destruct (ilog2_ratio_bounds n d (- k) Hn Hd ltac:(lia) ltac:(fold k; lia))
        as [_ U]. fold k in U.
      replace (k + 1 + - k) with 1 in U by lia. change (2 ^ 1) with 2 in U.
      destruct (Z_lt_le_dec (1074 + k) 0) as [L|L].
      * assert (2 ^ 1074 <= 2 ^ (- k)) by (apply Z.pow_le_mono_r; lia).
        assert (2 <= 2 ^ 53) by (change 2 with (2 ^ 1) at 1; apply Z.pow_le_mono_r; lia).
        nia.
      * assert (0 < 2 ^ (1074 + k)) by (apply pow2_pos; lia).
        assert (P3 : 2 ^ 1074 = 2 ^ (- k) * 2 ^ (1074 + k)).
        { rewrite <- Z.pow_add_r by lia. f_equal. lia. }
        assert (P4 : 2 * 2 ^ (1074 + k) <= 2 ^ 53).
        { change 2 with (2 ^ 1) at 1. rewrite <- Z.pow_add_r by lia.
          apply Z.pow_le_mono_r; lia. }
        rewrite P3. nia.
  - destruct (ilog2_ratio_bounds n d 1074 Hn Hd ltac:(lia) ltac:(fold k; lia))
      as [L U]. fold k in L, U.
    assert (P1 : 2 ^ (k + 1074) = 2 ^ 52 * 2 ^ (k - 52 + 1074)).
    { rewrite <- Z.pow_add_r by lia. f_equal. lia. }
    assert (P2 : 2 ^ (k + 1 + 1074) = 2 ^ 53 * 2 ^ (k - 52 + 1074)).
    { rewrite <- Z.pow_add_r by lia. f_equal. lia. }
    rewrite P1 in L. rewrite P2 in U.
    assert (Hg : 0 < d * 2 ^ (k - 52 + 1074)).
    { pose proof (pow2_pos (k - 52 + 1074) ltac:(lia)). nia. }
    assert (B : 2 ^ 52 <= round_half_even (n * 2 ^ 1074) (d * 2 ^ (k - 52 + 1074)) <= 2 ^ 53).
    { apply round_half_even_bounds; [exact Hg|lia|lia]. }
    split; [|lia]. split; [|lia].
    assert (0 < 2 ^ 52) by (apply pow2_pos; lia). lia.
Qed.

Lemma of_ratio_cases (s : bool) (n d : Z) :
  0 < n -> 0 < d ->
  let Y := rounded_mantissa n d * 2 ^ (rounded_exponent n d + 1074) in
  (of_ratio s n d = S754_zero s /\ Y = 0)
  \/ (of_ratio s n d = S754_infinity s /\ 2 ^ (1024 + 1074) <= Y)
  \/ (exists m e, of_ratio s n d = S754_finite s m e
                  /\ binary64 m e /\ scaled m e = Y).
Proof.
  intros Hn Hd Y. unfold of_ratio.
  assert (E0 : (n =? 0) = false) by (apply Z.eqb_neq; lia). rewrite E0.
  cbv zeta. fold (rounded_exponent n d).
  rewrite (of_ratio_mantissa n d Hd).
  destruct (rounded_mantissa_bounds n d Hn Hd) as [[Q0 Q1] Q2].
  pose proof (rounded_exponent_ge n d) as He.
  subst Y. set (q := rounded_mantissa n d) in *.
  set (e := rounded_exponent n d) in *.
  destruct (q =? 0) eqn:Eq0.
  { apply Z.eqb_eq in Eq0. left. split; [reflexivity|]. rewrite Eq0. ring. }
  apply Z.eqb_neq in Eq0.
  destruct (q =? 2 ^ 53) eqn:Eq1.
  { apply Z.eqb_eq in Eq1. destruct (971 <=? e) eqn:Ee.
    - apply Z.leb_le in Ee. right. left. split; [reflexivity|].
      rewrite Eq1, <- Z.pow_add_r by lia. apply Z.pow_le_mono_r; lia.
    - apply Z.leb_gt in Ee. right. right.
      exists (Z.to_pos (2 ^ 52)), (e + 1). split; [reflexivity|]. split.
      + split; [reflexivity|lia].
      + unfold scaled. rewrite Eq1.
        change (Z.pos (Z.to_pos (2 ^ 52))) with (2 ^ 52).
        rewrite <- !Z.pow_add_r by lia. f_equal. lia. }
  apply Z.eqb_neq in Eq1.
  destruct (971 <? e) eqn:Ee.
  - apply Z.ltb_lt in Ee. right. left. split; [reflexivity|].
    specialize (Q2 ltac:(lia)).
    assert (P : 2 ^ (1024 + 1074) = 2 ^ 52 * 2 ^ (972 + 1074)) by reflexivity.
    assert (2 ^ (972 + 1074) <= 2 ^ (e + 1074)) by (apply Z.pow_le_mono_r; lia).
    assert (0 < 2 ^ (972 + 1074)) by (apply pow2_pos; lia).
    rewrite P. nia.
  - apply Z.ltb_ge in Ee. right. right.
    exists (Z.to_pos q), e. split; [reflexivity|].
    assert (Hq : Z.pos (Z.to_pos q) = q) by (apply Z2Pos.id; lia).
    split.
    + split; [rewrite Hq; lia|lia].
    + unfold scaled. now rewrite Hq.
Qed.

(** The result is at least as close to [n / d] as any binary64 number. *)
Lemma of_ratio_nearest (n d : Z) (m : positive) (e : Z) :
  0 < n -> 0 < d -> binary64 m e ->
  let Y := rounded_mantissa n d * 2 ^ (rounded_exponent n d + 1074) in
  Z.abs (n * 2 ^ 1074 - Y * d) <= Z.abs (n * 2 ^ 1074 - scaled m e * d).
Proof.
  intros Hn Hd [Hm He] Y. subst Y. unfold rounded_mantissa.
  pose proof (rounded_exponent_ge n d) as Hr.
  destruct (rounded_mantissa_bounds n d Hn Hd) as [_ Q2].
  unfold rounded_mantissa in Q2.
  set (r := rounded_exponent n d) in *.
  set (g := d * 2 ^ (r + 1074)).
  assert (Hg : 0 < g).
  { unfold g. pose proof (pow2_pos (r + 1074) ltac:(lia)). nia. }
  set (q := round_half_even (n * 2 ^ 1074) g) in *.
  replace (q * 2 ^ (r + 1074) * d) with (q * g) by (unfold g; ring).
  destruct (Z_lt_le_dec e r) as [L|L].
  - (* a finer number lies below the binade of [n / d] *)
    specialize (Q2 ltac:(lia)).
    pose proof (round_half_even_nearest (n * 2 ^ 1074) g (2 ^ 52) Hg) as N.
    fold q in N.
    assert (Hlow : 2 ^ 52 * g <= n * 2 ^ 1074).
    { unfold r, rounded_exponent in *.
      destruct (Z.max_spec (ilog2_ratio n d - 52) (-1074)) as [[Hk Ek]|[Hk Ek]];
        [lia|].
      destruct (ilog2_ratio_bounds n d 1074 Hn Hd ltac:(lia) ltac:(lia)) as [B _].
      unfold g. rewrite Ek.
      replace (2 ^ (ilog2_ratio n d + 1074))
        with (2 ^ 52 * 2 ^ (ilog2_ratio n d - 52 + 1074)) in B
        by (rewrite <- Z.pow_add_r by lia; f_equal; lia).
      lia. }
    assert (Hx : scaled m e * d < 2 ^ 52 * g).
    { unfold scaled, g.
      assert (P : 2 ^ (r + 1074) = 2 ^ (e + 1074) * 2 ^ (r - e)).
      { rewrite <- Z.pow_add_r by lia. f_equal. lia. }
      assert (2 <= 2 ^ (r - e)).
      { change 2 with (2 ^ 1) at 1. apply Z.pow_le_mono_r; lia. }
      assert (0 < 2 ^ (e + 1074)) by (apply pow2_pos; lia).
      rewrite P.
      assert (Z.pos m * 2 ^ (e + 1074) < 2 ^ 52 * (2 ^ (e + 1074) * 2 ^ (r - e))).
      { change (2 ^ 53) with (2 ^ 52 * 2) in Hm.
        assert (0 < 2 ^ 52) by (apply pow2_pos; lia). nia. }
      nia. }
    lia.
  - (* the number lies on the grid of the result *)
    assert (P : scaled m e * d = (Z.pos m * 2 ^ (e - r)) * g).
    { unfold scaled, g.
      replace (e + 1074) with ((e - r) + (r + 1074)) by lia.
      rewrite Z.pow_add_r by lia. ring. }
    rewrite P. apply round_half_even_nearest. exact Hg.
Qed.

(** ** Formatting what was read from a formatted number *)

Lemma hundredths_scaled (m : positive) (e : Z) :
  -1074 <= e ->
  hundredths m e = round_half_even (100 * scaled m e) (2 ^ 1074).
Proof.
  intros He. unfold hundredths, scaled.
  assert (HS : 0 < 2 ^ 1074) by (apply pow2_pos; lia).
  destruct (0 <=? e) eqn:E.
  - apply Z.leb_le in E. symmetry.
    replace (100 * (Z.pos m * 2 ^ (e + 1074)))
      with (Z.pos m * 2 ^ e * 100 * 2 ^ 1074)
      by (rewrite Z.pow_add_r by lia; ring).
    now apply round_half_even_exact.
  - apply Z.leb_gt in E.
    rewrite <- (round_half_even_scale (Z.pos m * 100) (2 ^ (- e)) (2 ^ (e + 1074))).
    + f_equal; [ring|]. rewrite <- Z.pow_add_r by lia. f_equal. lia.
    + apply pow2_pos. lia.
    + apply pow2_pos. lia.
Qed.

Lemma hundredths_nonneg (m : positive) (e : Z) :
  -1074 <= e -> 0 <= hundredths m e.
Proof.
  intros He. rewrite hundredths_scaled by exact He.
  assert (HS : 0 < 2 ^ 1074) by (apply pow2_pos; lia).
  apply (round_half_even_bounds (100 * scaled m e) (2 ^ 1074) 0 (100 * scaled m e));
    [exact HS| |].
  - unfold scaled. pose proof (pow2_pos (e + 1074) ltac:(lia)). nia.
  - unfold scaled. pose proof (pow2_pos (e + 1074) ltac:(lia)). nia.
Qed.

(** Reading the hundredths of a binary64 number back as a float and
    formatting the float again gives the same hundredths. *)
Lemma format_of_hundredths (s : bool) (m : positive) (e : Z) :
  binary64 m e ->
  format_2f (of_ratio s (hundredths m e) 100)
  = sign_text s ++ fixed2 (hundredths m e).
Proof.
  intros Hb. pose proof Hb as [Hm He].
  assert (HS : 0 < 2 ^ 1074) by (apply pow2_pos; lia).
  pose proof (hundredths_nonneg m e ltac:(lia)) as Hq0.
  pose proof (hundredths_scaled m e ltac:(lia)) as Hq.
  set (q := hundredths m e) in *. set (X := scaled m e) in *.
  pose proof (round_half_even_close (100 * X) (2 ^ 1074) HS) as Hc.
  rewrite <- Hq in Hc.
  destruct (Z.eq_dec q 0) as [Z0|NZ].
  { rewrite Z0. reflexivity. }
  pose proof (of_ratio_nearest q 100 m e ltac:(lia) ltac:(lia) Hb) as Hn.
  cbv zeta in Hn. fold X in Hn.
  destruct (of_ratio_cases s q 100 ltac:(lia) ltac:(lia))
    as [[-> HY]|[[-> HY]|[m' [e' [-> [[Hm' He'] HY]]]]]];
    cbv zeta in HY; rewrite <- ?HY in Hn.
  - (* zero *)
    exfalso. rewrite HY in Hn. nia.
  - (* infinity *)
    exfalso.
    set (Y := rounded_mantissa q 100 * 2 ^ (rounded_exponent q 100 + 1074)) in *.
    assert (HX : X + 2 ^ (971 + 1074) <= 2 ^ (1024 + 1074)).
    { unfold X, scaled.
      assert (P : 2 ^ (1024 + 1074) = 2 ^ 53 * 2 ^ (971 + 1074)) by reflexivity.
      assert (2 ^ (e + 1074) <= 2 ^ (971 + 1074)) by (apply Z.pow_le_mono_r; lia).
      assert (0 < 2 ^ (e + 1074)) by (apply pow2_pos; lia).
      rewrite P. nia. }
    assert (P : 2 ^ (971 + 1074) = 2 ^ 971 * 2 ^ 1074) by reflexivity.
    assert (1 <= 2 ^ 971) by (pose proof (pow2_pos 971 ltac:(lia)); lia).
    nia.
  - (* finite *)
    cbn [format_2f]. do 2 f_equal.
    rewrite (hundredths_scaled m' e') by lia.
    apply round_half_even_spec; [exact HS|].
    set (Y := scaled m' e') in *.
    assert (Hd : Z.abs (100 * Y - q * 2 ^ 1074) <= Z.abs (100 * X - q * 2 ^ 1074)) by lia.
    destruct (Z_lt_le_dec (2 * Z.abs (100 * Y - q * 2 ^ 1074)) (2 ^ 1074)) as [L|L];
      [now left|].
    right. split; [lia|].
    assert (T : 2 * Z.abs (100 * X - q * 2 ^ 1074) = 2 ^ 1074) by lia.
    destruct (proj1 (round_half_even_spec (100 * X) (2 ^ 1074) q HS) (eq_sym Hq))
      as [H|[_ H]]; [lia|exact H].
Qed.

(** ** Reading a formatted number *)

Lemma read_digits_run (ds rest : str) (acc cnt : Z) :
  forallb is_digit ds = true ->
  match rest with [] => True | c :: _ => is_digit c = false end ->
  read_digits (ds ++ rest) acc cnt
  = (dval ds acc, cnt + Z.of_nat (List.length ds), rest).
Proof.
  intros Hd Hr. revert acc cnt.
  induction ds as [|c ds IH]; intros acc cnt.
  - cbn [app List.length dval fold_left]. rewrite Z.add_0_r.
    destruct rest as [|c rest]; [reflexivity|]. cbn [read_digits]. now rewrite Hr.
  - cbn [forallb] in Hd. apply andb_true_iff in Hd. destruct Hd as [Hc Hd].
    cbn [app read_digits]. rewrite Hc, (IH Hd).
    cbn [dval fold_left List.length]. f_equal. f_equal. lia.
Qed.

Lemma dval_app (a b : str) (acc : Z) : dval (a ++ b) acc = dval b (dval a acc).
Proof. apply fold_left_app. Qed.

Lemma digit_val_mod10 (n : N) : digit_val (48 + n mod 10) = (n mod 10)%N.
Proof. unfold digit_val. now rewrite N.add_comm, N.add_sub. Qed.

Lemma dval_digits_aux (fuel : nat) (n : N) (acc : Z) :
  (n < 2 ^ N.of_nat fuel)%N ->
  dval (digits_aux fuel n []) acc
  = acc * 10 ^ Z.of_nat (List.length (digits_aux fuel n [])) + Z.of_N n.
Proof.
  revert n acc. induction fuel as [|f IH]; intros n acc Hn.
  - cbn [digits_aux dval fold_left List.length]. simpl in Hn.
    replace n with 0%N by lia. simpl. lia.
  - rewrite digits_aux_S. destruct (n <? 10)%N eqn:E.
    + apply N.ltb_lt in E. cbn [dval fold_left List.length].
      rewrite digit_val_mod10, N.mod_small by exact E.
      change (10 ^ Z.of_nat 1) with 10. lia.
    + apply N.ltb_ge in E. rewrite digits_aux_app, dval_app, IH.
      * rewrite length_app. cbn [dval fold_left List.length].
        rewrite digit_val_mod10.
        replace (Z.of_nat (List.length (digits_aux f (n / 10) []) + 1))
          with (Z.of_nat (List.length (digits_aux f (n / 10) [])) + 1) by lia.
        rewrite Z.pow_add_r by lia. change (10 ^ 1) with 10.
        pose proof (N.div_mod n 10 ltac:(discriminate)) as D.
        rewrite N2Z.inj_div, N2Z.inj_mod in *.
        pose proof (Z.div_mod (Z.of_N n) 10 ltac:(lia)). 
        change (Z.of_N 10) with 10. nia.
      * replace (N.of_nat (S f)) with (N.succ (N.of_nat f)) in Hn by lia.
        rewrite N.pow_succ_r' in Hn.
        apply N.Div0.div_lt_upper_bound. lia.
Qed.

Lemma dval_digits (n : N) (acc : Z) :
  dval (digits n) acc = acc * 10 ^ Z.of_nat (List.length (digits n)) + Z.of_N n.
Proof.
  apply dval_digits_aux.
  destruct n as [|p]; [reflexivity|].
  replace (N.of_nat (S (N.to_nat (N.log2 (N.pos p)))))
    with (N.succ (N.log2 (N.pos p))) by lia.
  apply N.log2_spec. reflexivity.
Qed.

Lemma dval_zeros (k : nat) (ds : str) (acc : Z) :
  dval (repeat 48%N k ++ ds) acc = dval ds (acc * 10 ^ Z.of_nat k).
Proof.
  revert acc. induction k as [|k IH]; intros acc.
  - cbn [repeat app]. f_equal. simpl. lia.
  - cbn [repeat app dval fold_left]. fold (dval (repeat 48%N k ++ ds)).
    rewrite IH. f_equal. change (Z.of_N (digit_val 48)) with 0.
    replace (Z.of_nat (S k)) with (Z.of_nat k + 1) by lia.
    rewrite Z.pow_add_r by lia. change (10 ^ 1) with 10. lia.
Qed.

Lemma dval_zfill (w : nat) (n : N) (acc : Z) :
  dval (zfill w (digits n)) acc
  = acc * 10 ^ Z.of_nat (List.length (zfill w (digits n))) + Z.of_N n.
Proof.
  unfold zfill. rewrite dval_zeros, dval_digits, length_app, repeat_length.
  rewrite Nat2Z.inj_add, Z.pow_add_r by lia. ring.
Qed.

Lemma plain_cases (c : N) :
  plain c = true ->
  In c [45; 46; 48; 49; 50; 51; 52; 53; 54; 55; 56; 57]%N.
Proof.
  unfold plain, is_digit.
  rewrite !orb_true_iff, andb_true_iff, !N.leb_le, !N.eqb_eq.
  intros H. simpl.
  assert (c = 45 \/ c = 46 \/ c = 48 \/ c = 49 \/ c = 50 \/ c = 51 \/ c = 52
          \/ c = 53 \/ c = 54 \/ c = 55 \/ c = 56 \/ c = 57)%N by lia.
  intuition auto.
Qed.

Ltac plain_char H :=
  apply plain_cases in H; simpl in H;
  repeat (destruct H as [H|H]; [subst; reflexivity|]); contradiction.

Lemma plain_not_space (c : N) : plain c = true -> isspace c = false.
Proof. intros H. plain_char H. Qed.

Lemma plain_not_float_space (c : N) : plain c = true -> float_space c = false.
Proof. intros H. plain_char H. Qed.

Lemma plain_not (old c : N) :
  In old [dollar; comma; pound; euro; 95%N] -> plain c = true -> (c =? old)%N = false.
Proof.
  intros Ho H. simpl in Ho.
  repeat (destruct Ho as [Ho|Ho]; [subst old; plain_char H|]). contradiction.
Qed.

Lemma is_digit_plain (c : N) : is_digit c = true -> plain c = true.
Proof. intros H. unfold plain. now rewrite H. Qed.

Lemma forallb_impl {A} (p q : A -> bool) (l : list A) :
  (forall x, p x = true -> q x = true) ->
  forallb p l = true -> forallb q l = true.
Proof.
  intros H. rewrite !forallb_forall. auto.
Qed.

Lemma fixed2_plain (q : Z) : forallb plain (fixed2 q) = true.
Proof.
  unfold fixed2. rewrite !forallb_app.
  rewrite (forallb_impl is_digit plain _ is_digit_plain (digits_all _)).
  rewrite (forallb_impl is_digit plain _ is_digit_plain
             (zfill_all 2 _ (digits_all _))).
  reflexivity.
Qed.

Lemma sign_fixed2_plain (s : bool) (q : Z) :
  forallb plain (sign_text s ++ fixed2 q) = true.
Proof.
  rewrite forallb_app, fixed2_plain. now destruct s.
Qed.

Lemma replace_absent (old : N) (new s : str) :
  forallb (fun c => negb (c =? old)%N) s = true -> replace old new s = s.
Proof.
  unfold replace. induction s as [|c s IH]; [reflexivity|].
  cbn [forallb flat_map]. rewrite andb_true_iff, negb_true_iff.
  intros [Hc Hs]. rewrite Hc, IH by exact Hs. reflexivity.
Qed.

Lemma lstrip_by_id (sp : N -> bool) (s : str) :
  forallb (fun c => negb (sp c)) s = true -> lstrip_by sp s = s.
Proof.
  destruct s as [|c s]; [reflexivity|].
  cbn [forallb lstrip_by]. rewrite andb_true_iff, negb_true_iff.
  now intros [-> _].
Qed.

Lemma strip_by_id (sp : N -> bool) (s : str) :
  forallb (fun c => negb (sp c)) s = true -> strip_by sp s = s.
Proof.
  intros H. unfold strip_by. rewrite (lstrip_by_id sp s H).
  rewrite lstrip_by_id by (now rewrite forallb_rev').
  apply rev_involutive.
Qed.

Lemma clean_plain (s : str) : forallb plain s = true -> clean s = s.
Proof.
  intros H. unfold clean.
  assert (R : forall old, In old [dollar; comma; pound; euro; 95%N] ->
                          forallb (fun c => negb (c =? old)%N) s = true).
  { intros old Ho. apply (forallb_impl plain _ s); [|exact H].
    intros c Hc. now rewrite (plain_not old c Ho Hc). }
  rewrite (replace_absent dollar) by (apply R; simpl; tauto).
  rewrite (replace_absent comma) by (apply R; simpl; tauto).
  rewrite (replace_absent pound) by (apply R; simpl; tauto).
  rewrite (replace_absent euro) by (apply R; simpl; tauto).
  apply strip_by_id. apply (forallb_impl plain _ s); [|exact H].
  intros c Hc. now rewrite (plain_not_space c Hc).
Qed.

Lemma drop_underscores_plain (prev : N) (s : str) :
  (prev =? 95)%N = false -> forallb plain s = true ->
  drop_underscores prev s = Some s.
Proof.
  revert prev. induction s as [|c s IH]; intros prev Hp H.
  - cbn [drop_underscores]. now rewrite Hp.
  - cbn [forallb] in H. apply andb_true_iff in H. destruct H as [Hc Hs].
    cbn [drop_underscores].
    assert (Hu : (c =? 95)%N = false) by (apply plain_not; [simpl; tauto|exact Hc]).
    rewrite Hu, Hp. cbn [andb]. now rewrite (IH c Hu Hs).
Qed.

Lemma read_sign_digit (c : N) (s : str) :
  is_digit c = true -> read_sign (c :: s) = (false, c :: s).
Proof.
  intros H. unfold read_sign.
  assert (c <> 45 /\ c <> 43)%N.
  { unfold is_digit in H. rewrite andb_true_iff, !N.leb_le in H. lia. }
  destruct c as [|p]; [reflexivity|].
  do 6 (destruct p; try reflexivity); lia.
Qed.

Lemma lower_digit_not_word (c : N) (s : str) (w : string) :
  is_digit c = true ->
  In w ["inf"; "infinity"; "nan"]%string ->
  eqb (lower (c :: s)) (lit w) = false.
Proof.
  intros H Hw.
  assert (Hc : lower_char c = c /\ c <> 105%N /\ c <> 110%N).
  { unfold is_digit in H. rewrite andb_true_iff, !N.leb_le in H.
    unfold lower_char.
    destruct ((65 <=? c)%N && (c <=? 90)%N) eqn:E; [|lia].
    rewrite andb_true_iff, !N.leb_le in E. lia. }
  destruct Hc as [Hl [H1 H2]].
  simpl in Hw. destruct Hw as [<-|[<-|[<-|[]]]];
    cbn [lower List.map]; rewrite Hl;
    change (lit "inf") with (105 :: lit "nf")%N;
    change (lit "infinity") with (105 :: lit "nfinity")%N;
    change (lit "nan") with (110 :: lit "an")%N;
    cbn [eqb];
    (replace (c =? 105)%N with false by (symmetry; now apply N.eqb_neq))
    || (replace (c =? 110)%N with false by (symmetry; now apply N.eqb_neq));
    reflexivity.
Qed.

Lemma fixed2_head (q : Z) :
  exists c t, fixed2 q = c :: t /\ is_digit c = true.
Proof.
  unfold fixed2. pose proof (digits_all (Z.to_N (q / 100))) as Ha.
  pose proof (digits_not_nil (Z.to_N (q / 100))) as Hn.
  destruct (digits (Z.to_N (q / 100))) as [|c t]; [contradiction|].
  cbn [forallb] in Ha. apply andb_true_iff in Ha.
  exists c, (t ++ lit "." ++ zfill 2 (digits (Z.to_N (q mod 100)))).
  split; [reflexivity|tauto].
Qed.

Lemma read_number_fixed2 (q : Z) :
  0 <= q -> read_number (fixed2 q) = Some (q, 100).
Proof.
  intros Hq. unfold read_number, fixed2.
  pose proof (Z.div_mod q 100 ltac:(lia)) as D.
  pose proof (Z.mod_pos_bound q 100 ltac:(lia)) as B.
  assert (0 <= q / 100) by (apply Z.div_pos; lia).
  destruct (two_digits (Z.to_N (q mod 100)) ltac:(lia)) as [d1 [d2 [E [H1 H2]]]].
  rewrite (read_digits_run (digits (Z.to_N (q / 100))) _ 0 0 (digits_all _))
    by reflexivity.
  change (lit "." ++ zfill 2 (digits (Z.to_N (q mod 100))))
    with (46%N :: zfill 2 (digits (Z.to_N (q mod 100)))).
  cbv iota beta.
  rewrite <- (app_nil_r (zfill 2 (digits (Z.to_N (q mod 100))))).
  rewrite (read_digits_run (zfill 2 (digits (Z.to_N (q mod 100)))) [] _ 0
             (zfill_all 2 _ (digits_all _)) I).
  rewrite dval_zfill, dval_digits. rewrite E.
  cbn [List.length]. cbv iota beta.
  pose proof (digits_not_nil (Z.to_N (q / 100))) as Hn.
  assert (L : 0 < Z.of_nat (List.length (digits (Z.to_N (q / 100))))).
  { destruct (digits (Z.to_N (q / 100))); [contradiction|]. cbn [List.length]. lia. }
  replace (0 <? 0 + Z.of_nat (List.length (digits (Z.to_N (q / 100)))) + (0 + Z.of_nat 2))
    with true by (symmetry; apply Z.ltb_lt; lia).
  cbn [read_exponent].
  change (0 - (0 + Z.of_nat 2)) with (-2). cbv iota beta zeta.
  change (0 <=? -2) with false. cbv iota.
  change (10 ^ (- -2)) with 100.
  f_equal. f_equal. rewrite !Z2N.id by lia.
  change (10 ^ Z.of_nat 2) with 100. lia.
Qed.

Lemma parse_formatted (s : bool) (q : Z) :
  0 <= q -> parse (sign_text s ++ fixed2 q) = Some (of_ratio s q 100).
Proof.
  intros Hq. unfold parse.
  pose proof (sign_fixed2_plain s q) as Hp.
  rewrite strip_by_id
    by (apply (forallb_impl plain _ _); [|exact Hp];
        intros c Hc; now rewrite (plain_not_float_space c Hc)).
  rewrite drop_underscores_plain by (reflexivity || exact Hp).
  destruct (fixed2_head q) as [c [t [E Hc]]].
  assert (Hs : read_sign (sign_text s ++ fixed2 q) = (s, fixed2 q)).
  { destruct s; [reflexivity|]. cbn [sign_text app]. rewrite E.
    now apply read_sign_digit. }
  rewrite Hs. cbv iota beta zeta.
  assert (W : forall w, In w ["inf"; "infinity"; "nan"]%string ->
                        eqb (lower (fixed2 q)) (lit w) = false).
  { intros w Hw. rewrite E. now apply lower_digit_not_word. }
  rewrite !W by (simpl; tauto).
  cbn [orb]. rewrite (read_number_fixed2 q Hq). reflexivity.
Qed.

(** ** Finite floats come out of [float()] as binary64 numbers *)

Lemma read_digits_nonneg (s : str) (acc n : Z) :
  0 <= acc -> 0 <= fst (fst (read_digits s acc n)).
Proof.
  revert acc n. induction s as [|c s IH]; intros acc n Ha; [exact Ha|].
  cbn [read_digits]. destruct (is_digit c); [|exact Ha].
  apply IH. lia.
Qed.

Lemma read_number_sign (s : str) (n d : Z) :
  read_number s = Some (n, d) -> 0 <= n /\ 0 < d.
Proof.
  unfold read_number.
  pose proof (read_digits_nonneg s 0 0 ltac:(lia)) as H0.
  destruct (read_digits s 0 0) as [[ip ni] r1]. cbn [fst] in H0.
  assert (Hm : forall m nf r2,
             (match r1 with
              | 46%N :: r => read_digits r ip 0
              | _ => (ip, 0, r1)
              end) = (m, nf, r2) -> 0 <= m).
  { intros m nf r2 E.
    assert (G : forall r, read_digits r ip 0 = (m, nf, r2) -> 0 <= m).
    { intros r Er. pose proof (read_digits_nonneg r ip 0 H0) as Hr.
      now rewrite Er in Hr. }
    destruct r1 as [|c r]; [inversion E; lia|].
    destruct (N.eq_dec c 46) as [->|Hc]; [eauto|].
    assert (E' : (ip, 0, c :: r) = (m, nf, r2)).
    { rewrite <- E. destruct c as [|p]; [reflexivity|].
      do 6 (destruct p; try reflexivity). congruence. }
    inversion E'; lia. }
  destruct (match r1 with
            | 46%N :: r => read_digits r ip 0
            | _ => (ip, 0, r1)
            end) as [[m nf] r2].
  specialize (Hm m nf r2 eq_refl).
  destruct (0 <? ni + nf); [|discriminate].
  destruct (read_exponent r2) as [x|]; [|discriminate].
  destruct (0 <=? x - nf) eqn:Ep; intros H; inversion H; subst.
  - apply Z.leb_le in Ep. pose proof (Z.pow_nonneg 10 (x - nf) ltac:(lia)).
    split; [nia|lia].
  - apply Z.leb_gt in Ep. split; [exact Hm|].
    apply Z.pow_pos_nonneg; lia.
Qed.

Lemma of_ratio_binary64 (s sg : bool) (n d : Z) (m : positive) (e : Z) :
  0 <= n -> 0 < d -> of_ratio s n d = S754_finite sg m e -> binary64 m e.
Proof.
  intros Hn Hd H.
  destruct (Z.eq_dec n 0) as [->|Hz]; [discriminate|].
  destruct (of_ratio_cases s n d ltac:(lia) Hd)
    as [[E _]|[[E _]|[m' [e' [E [Hb _]]]]]]; rewrite E in H;
    try discriminate.
  inversion H; subst. exact Hb.
Qed.

Lemma parse_binary64 (s : str) (sg : bool) (m : positive) (e : Z) :
  parse s = Some (S754_finite sg m e) -> binary64 m e.
Proof.
  unfold parse.
  destruct (drop_underscores 0 (strip_by float_space s)) as [t|]; [|discriminate].
  destruct (read_sign t) as [neg body].
  destruct (eqb (lower body) (lit "inf") || eqb (lower body) (lit "infinity"));
    [discriminate|].
  destruct (eqb (lower body) (lit "nan")); [discriminate|].
  destruct (read_number body) as [[n d]|] eqn:E; [|discriminate].
  apply read_number_sign in E. destruct E as [Hn Hd].
  intros H. inversion H as [H']. now apply of_ratio_binary64 in H'.
Qed.

(** ** Idempotence *)

Lemma format_amount_formatted (s : bool) (m : positive) (e : Z) :
  binary64 m e ->
  format_amount (text (format_2f (S754_finite s m e)))
  = format_2f (S754_finite s m e).
Proof.
  intros Hb. cbn [format_2f].
  pose proof (hundredths_nonneg m e ltac:(destruct Hb; lia)) as Hq.
  set (q := hundredths m e) in *.
  pose proof (sign_fixed2_plain s q) as Hp.
  unfold format_amount. cbn [to_str text].
  rewrite (clean_plain _ Hp).
  destruct (fixed2_head q) as [c [t [E Hc]]].
  assert (G1 : eqb (sign_text s ++ fixed2 q) [] = false).
  { rewrite E. now destruct s. }
  assert (G2 : eqb (lower (sign_text s ++ fixed2 q)) (lit "nan") = false).
  { destruct s.
    - reflexivity.
    - cbn [sign_text app]. rewrite E. apply lower_digit_not_word; [exact Hc|].
      simpl. tauto. }
  rewrite G1, G2. cbn [orb].
  rewrite (parse_formatted s q Hq).
  apply format_of_hundredths. exact Hb.
Qed.

(** X20: [format_amount] leaves every balance it produces as it is, the
    balance ["nan"] excepted. *)
Lemma format_amount_idempotent (val : cell) :
  format_amount val <> lit "nan" ->
  format_amount (text (format_amount val)) = format_amount val.
Proof.
  intros Hn.
  destruct (format_amount_cases val) as [[H _]|[x [Hp Hf]]].
  - rewrite H. reflexivity.
  - rewrite Hf in *. destruct x as [s|s| |s m e].
    + now destruct s.
    + now destruct s.
    + contradiction Hn. reflexivity.
    + apply format_amount_formatted. now apply parse_binary64 in Hp.
Qed.

End Rounding.

(** C9, at the input where the code departs from it: the amount cell
    ["+nan"] yields ["nan"], and ["nan"] given back to [format_amount]
    yields ["0.00"]; on ["12.50"] the second pass changes nothing, as
    on every other balance ([format_amount_idempotent]). *)
Theorem format_amount_changes_its_nan_output :
  format_amount (text (lit "+nan")) = lit "nan"
  /\ format_amount (text (format_amount (text (lit "+nan")))) = lit "0.00"
  /\ format_amount (text (lit "12.50")) = lit "12.50"
  /\ format_amount (text (format_amount (text (lit "12.50")))) = lit "12.50".
Proof. repeat split; reflexivity. Qed.

(** ** Dates *)

Lemma try_formats_first (s : str) (before after : list str) (fmt : str)
      (t : datetime) :
  Forall (fun f => strptime s f = None) before ->
  strptime s fmt = Some t ->
  try_formats (before ++ fmt :: after) s = Some (strftime t).
Proof.
  intros Hb Hf. induction Hb as [|f l Hn _ IH]; simpl.
  - now rewrite Hf.
  - now rewrite Hn.
Qed.

Lemma try_formats_none (s : str) (fmts : list str) :
  Forall (fun f => strptime s f = None) fmts -> try_formats fmts s = None.
Proof.
  intros H. induction H as [|f l Hn _ IH]; simpl; [reflexivity|].
  now rewrite Hn.
Qed.

Lemma strptime_valid (s fmt : str) (t : datetime) :
  strptime s fmt = Some t -> valid t = true.
Proof.
  unfold strptime. destruct (parse_format false fmt); [|discriminate].
  destruct (run_format l epoch s) as [|[t' [|c r]] l']; try discriminate.
  destruct (valid t') eqn:E; [|discriminate].
  intros H. inversion H. now subst.
Qed.

Lemma zfill_digits (w : nat) (n : N) :
  (n < 10 ^ N.of_nat (S w))%N ->
  List.length (zfill (S w) (digits n)) = S w
  /\ forallb is_digit (zfill (S w) (digits n)) = true.
Proof.
  intros H. split.
  - apply zfill_length. now apply digits_length.
  - apply zfill_all, digits_all.
Qed.

Lemma strftime_day_month_year (t : datetime) :
  strftime t = day_month_year (day t) (month t) (year t).
Proof. reflexivity. Qed.

Lemma valid_day (t : datetime) : valid t = true -> (day t < 100)%N.
Proof.
  unfold valid. rewrite !andb_true_iff, !N.leb_le, !N.ltb_lt.
  intros [[[[[[[[Hy1 Hy2] Hm1] Hm2] Hd1] Hd2] _] _] _].
  unfold days_in_month in Hd2.
  destruct (month t =? 2)%N; [destruct (is_leap (year t)); lia|].
  destruct ((month t =? 4) || (month t =? 6) || (month t =? 9)
            || (month t =? 11))%N; lia.
Qed.

(** From the year 1000 on the rendering has the shape [DD/MM/YYYY]. *)
Lemma day_month_year_shape (d m y : N) :
  (d < 100)%N -> (m < 100)%N -> (1000 <= y <= 9999)%N ->
  dd_mm_yyyy (day_month_year d m y) = true.
Proof.
  intros Hd Hm Hy.
  destruct (zfill_digits 1 d) as [L1 A1]; [exact Hd|].
  destruct (zfill_digits 1 m) as [L2 A2]; [exact Hm|].
  destruct (zfill_digits 3 y) as [L3 A3];
    [change (10 ^ N.of_nat 4)%N with 10000%N; lia|].
  rewrite zfill_long in L3, A3
    by (apply (digits_length_ge y 3); change (10 ^ N.of_nat 3)%N with 1000%N; lia).
  unfold day_month_year.
  destruct (zfill 2 (digits d)) as [|a1 [|a2 [|? ?]]]; try discriminate.
  destruct (zfill 2 (digits m)) as [|b1 [|b2 [|? ?]]]; try discriminate.
  destruct (digits y) as [|c1 [|c2 [|c3 [|c4 [|? ?]]]]]; try discriminate.
  cbn [forallb] in A1, A2, A3.
  repeat match goal with
         | H : _ && _ = true |- _ => apply andb_true_iff in H; destruct H
         end.
  change (dd_mm_yyyy [a1; a2; 47%N; b1; b2; 47%N; c1; c2; c3; c4] = true).
  unfold dd_mm_yyyy. cbn [forallb].
  repeat match goal with
         | H : is_digit _ = true |- _ => rewrite H; clear H
         end.
  reflexivity.
Qed.

Lemma strftime_shape (t : datetime) :
  valid t = true -> (1000 <= year t)%N -> dd_mm_yyyy (strftime t) = true.
Proof.
  intros Hv Hy. rewrite strftime_day_month_year.
  pose proof (valid_day t Hv) as Hd.
  unfold valid in Hv. rewrite !andb_true_iff, !N.leb_le, !N.ltb_lt in Hv.
  apply day_month_year_shape; lia.
Qed.

(** C5, at the input where the code departs from it: the date cell
    ["31/12/0999"] is read by the first format as the last day of the
    year 999 and comes out as ["31/12/999"], which is not
    [DD/MM/YYYY]: [strftime] writes a year below 1000 without
    padding. *)
Theorem year_below_1000_is_not_padded
  (to_datetime : cell -> option datetime) :
  strptime (lit "31/12/0999") (lit "%d/%m/%Y")
  = Some (Datetime 999 12 31 0 0 0)
  /\ format_date to_datetime (text (lit "31/12/0999")) = lit "31/12/999"
  /\ dd_mm_yyyy (format_date to_datetime (text (lit "31/12/0999"))) = false.
Proof. repeat split; reflexivity. Qed.

(** X21: a missing or blank date cell gives the empty text; otherwise
    the nine formats are tried in their order on the text of the cell
    and the first one that parses gives the result: day and month with
    two digits and the year with the digits it has, which is
    [DD/MM/YYYY] from the year 1000 on; when none parses, the day-first
    parser of pandas is asked, and when that fails too the text of the
    cell is returned as it is.  [format_date] is a total function: no
    row fails. *)
Theorem format_date_first_success
  (to_datetime : cell -> option datetime) (val : cell) :
  (isna val = true \/ strip (to_str val) = [] ->
   format_date to_datetime val = [])
  /\ (isna val = false -> strip (to_str val) <> [] ->
      (forall before fmt after t,
          date_formats = before ++ fmt :: after ->
          Forall (fun f => strptime (to_str val) f = None) before ->
          strptime (to_str val) fmt = Some t ->
          format_date to_datetime val
          = day_month_year (day t) (month t) (year t)
          /\ ((1000 <= year t)%N ->
              dd_mm_yyyy (format_date to_datetime val) = true))
      /\ (Forall (fun f => strptime (to_str val) f = None) date_formats ->
          format_date to_datetime val
          = match to_datetime val with
            | Some t => day_month_year (day t) (month t) (year t)
            | None => to_str val
            end))
  /\ date_formats
     = List.map lit [ "%d/%m/%Y"; "%Y-%m-%d"; "%d-%m-%Y"; "%m/%d/%Y";
                      "%Y/%m/%d"; "%d-%b-%Y"; "%d %b %Y";
                      "%Y-%m-%d %H:%M:%S"; "%d/%m/%Y %H:%M:%S" ]%string.
Proof.
  split; [|split; [|reflexivity]].
  - intros [H|H]; unfold format_date.
    + now rewrite H.
    + rewrite H. cbn [eqb]. now rewrite orb_true_r.
  - intros Hna Hne. apply eqb_neq in Hne.
    unfold format_date. rewrite Hna, Hne. cbn [orb]. split.
    + intros before fmt after t Hd Hb Hf. rewrite Hd.
      rewrite (try_formats_first _ _ after _ _ Hb Hf).
      split; [reflexivity|]. intros Hy. apply strftime_shape; [|exact Hy].
      now apply strptime_valid in Hf.
    + intros Hall. rewrite (try_formats_none _ _ Hall).
      now destruct (to_datetime val).
Qed.

Lemma format_date_first_success_witness :
  format_date (fun _ => None) (text (lit "02/13/2023")) = lit "13/02/2023".
Proof.
  refine (proj1 (proj1 (proj1 (proj2 (@format_date_first_success
            (fun _ => None) (text (lit "02/13/2023")))) _ _)
            (List.map lit ["%d/%m/%Y"; "%Y-%m-%d"; "%d-%m-%Y"]%string)
            (lit "%m/%d/%Y")
            (List.map lit ["%Y/%m/%d"; "%d-%b-%Y"; "%d %b %Y";
                           "%Y-%m-%d %H:%M:%S"; "%d/%m/%Y %H:%M:%S"]%string)
            (Datetime 2023 2 13 0 0 0) _ _ _)).
  - reflexivity.
  - vm_compute. discriminate.
  - reflexivity.
  - repeat constructor.
  - reflexivity.
Defined.

Example format_date_examples :
  List.map (fun s => format_date (fun _ => None) (text (lit s)))
           ["02/03/2023"; "2023-03-02"; "02-03-2023"; "02/13/2023";
            "2023/03/02"; "2-Mar-2023"; "2 mar 2023"; "2023-03-02 10:20:30";
            "02/03/2023 10:20:30"; "31/02/2023"; "next week"; "   "]%string
  = List.map lit
           ["02/03/2023"; "02/03/2023"; "02/03/2023"; "13/02/2023";
            "02/03/2023"; "02/03/2023"; "02/03/2023"; "02/03/2023";
            "02/03/2023"; "31/02/2023"; "next week"; ""]%string.
Proof. vm_compute. reflexivity. Qed.

(** ** Rows and columns *)

Lemma lookup_in {A} (h : str) (l : list (str * A)) :
  In h (List.map fst l) -> exists v, lookup h l = Some v.
Proof.
  induction l as [|[k v] l IH]; simpl; [contradiction|].
  intros H. destruct (eqb k h) eqn:E; [eauto|].
  destruct H as [H|H]; [|auto].
  subst. rewrite eqb_refl in E. discriminate.
Qed.

Lemma lookup_some_in {A} (h : str) (l : list (str * A)) (v : A) :
  lookup h l = Some v -> In (h, v) l.
Proof.
  induction l as [|[k w] l IH]; simpl; [discriminate|].
  destruct (eqb k h) eqn:E.
  - apply eqb_eq in E. intros H; inversion H; subst. now left.
  - auto.
Qed.

Lemma lookup_heads (h : str) (cols : list (str * list cell)) (vs : list cell) :
  lookup h cols = Some vs -> lookup h (heads cols) = Some (hd NaN vs).
Proof.
  induction cols as [|[k w] l IH]; simpl; [discriminate|].
  destruct (eqb k h); [intros H; inversion H; reflexivity|auto].
Qed.

Lemma lookup_tails (h : str) (cols : list (str * list cell)) (vs : list cell) :
  lookup h cols = Some vs -> lookup h (tails cols) = Some (tl vs).
Proof.
  induction cols as [|[k w] l IH]; simpl; [discriminate|].
  destruct (eqb k h); [intros H; inversion H; reflexivity|auto].
Qed.

Lemma rows_of_length (idx : list N) (cols : list (str * list cell)) :
  List.length (rows_of idx cols) = List.length idx.
Proof.
  revert cols; induction idx; simpl; auto.
Qed.

(** Every row carries every label of the frame. *)
Lemma rows_of_lookup (h : str) (idx : list N) (cols : list (str * list cell))
      (vs : list cell) (r : row) :
  lookup h cols = Some vs -> In r (rows_of idx cols) ->
  exists c, lookup h r = Some c.
Proof.
  revert cols vs. induction idx as [|i idx IH]; simpl; [contradiction|].
  intros cols vs Hl [Hr|Hr].
  - subst r. eauto using lookup_heads.
  - eapply IH; [|exact Hr]. eauto using lookup_tails.
Qed.

(** A column of the right length is the list of its field in each row. *)
Lemma column_by_rows (h : str) (idx : list N) (cols : list (str * list cell))
      (vs : list cell) :
  lookup h cols = Some vs -> List.length vs = List.length idx ->
  vs = List.map (fun r => field r h) (rows_of idx cols).
Proof.
  revert cols vs. induction idx as [|i idx IH]; intros cols vs Hl Hn.
  - destruct vs; [reflexivity|discriminate].
  - destruct vs as [|v vs]; [discriminate|]. simpl. f_equal.
    + unfold field. now rewrite (lookup_heads _ _ _ Hl).
    + apply IH; [apply (lookup_tails _ _ _ Hl)|simpl in Hn; lia].
Qed.

(** Columns computed row by row give the rows one expects. *)
Lemma rows_of_by_rows {A} (gs : list (str * (A -> cell))) (idx : list N) (R : list A) :
  List.length idx = List.length R ->
  rows_of idx (List.map (fun '(l, g) => (l, List.map g R)) gs)
  = List.map (fun r => List.map (fun '(l, g) => (l, g r)) gs) R.
Proof.
  revert R. induction idx as [|i idx IH]; intros [|r R] Hn; try discriminate.
  - reflexivity.
  - simpl. f_equal.
    + unfold heads. rewrite map_map. apply map_ext. now intros [l g].
    + rewrite <- IH by (simpl in Hn; lia). f_equal.
      unfold tails. rewrite map_map. apply map_ext. now intros [l g].
Qed.

Lemma select_map_filter {A B} (p : A -> bool) (g : A -> B) (R : list A) :
  select (List.map p R) (List.map g R) = List.map g (filter p R).
Proof.
  induction R as [|r R IH]; simpl; [reflexivity|].
  destruct (p r); simpl; now rewrite IH.
Qed.

Lemma select_length_map {A B} (p : A -> bool) (R : list A) (l : list B) :
  List.length l = List.length R ->
  List.length (select (List.map p R) l) = List.length (filter p R).
Proof.
  revert l. induction R as [|r R IH]; intros [|x l] Hn; try discriminate;
    simpl; [reflexivity|].
  destruct (p r); simpl; rewrite IH; auto.
Qed.

Lemma combine_map_map {A B C} (f : A -> B) (g : A -> C) (l : list A) :
  combine (List.map f l) (List.map g l) = List.map (fun x => (f x, g x)) l.
Proof.
  induction l; simpl; congruence.
Qed.

Lemma sequence_map_ok {A B} (f : A -> result B) (g : A -> B) (l : list A) :
  (forall x, In x l -> f x = Ok (g x)) ->
  sequence (List.map f l) = Ok (List.map g l).
Proof.
  induction l as [|x l IH]; intros H; simpl; [reflexivity|].
  rewrite H by (now left). simpl. rewrite IH by (intros; apply H; now right).
  reflexivity.
Qed.

Lemma create_document_number_eq (rc : dict) (rw : row) (o r : str) (c1 c2 : cell) :
  required rc (lit "order_number") = Ok o -> row_get rw o = Ok c1 ->
  required rc (lit "reference") = Ok r -> row_get rw r = Ok c2 ->
  create_document_number rc rw = Ok (lit "O_" ++ shown c1 ++ lit "_" ++ shown c2).
Proof.
  intros H1 H2 H3 H4. unfold create_document_number.
  rewrite H1. cbn [bind]. rewrite H2. cbn [bind]. rewrite H3. cbn [bind].
  rewrite H4. reflexivity.
Qed.

Lemma row_get_field (rw : row) (h : str) (c : cell) :
  lookup h rw = Some c -> row_get rw h = Ok (field rw h).
Proof.
  intros H. unfold row_get, field. now rewrite H.
Qed.

Lemma strip_cons_nonspace (x : N) (s : str) :
  isspace x = false -> strip (x :: s) <> [].
Proof.
  intros Hx. unfold strip, strip_by. cbn [lstrip_by]. rewrite Hx.
  intros H. apply (f_equal (@rev N)) in H. rewrite rev_involutive in H.
  simpl in H.
  assert (Hl : forall l, lstrip_by isspace (l ++ [x]) <> []).
  { induction l as [|y l IH]; simpl.
    - rewrite Hx. discriminate.
    - destruct (isspace y); [assumption|discriminate]. }
  apply (Hl (rev s)). exact H.
Qed.

Lemma document_number_not_blank (s t : str) :
  strip (lit "O_" ++ s ++ lit "_" ++ t) <> [].
Proof.
  apply (strip_cons_nonspace 79). reflexivity.
Qed.

Lemma finish_output (idx : list N) (v1 v2 v3 v4 v5 : list cell) :
  let output :=
    setitem (setitem (setitem (setitem (setitem (MkFrame [] [])
      (lit "Debtor Reference") (MkSeries idx v1))
      (lit "Document Number") (MkSeries idx v2))
      (lit "Document Date") (MkSeries idx v3))
      (lit "Document Balance") (MkSeries idx v4))
      (lit "Transaction Type") (MkSeries idx v5) in
  let mask := List.map (fun '(x, y) => keep_row x y) (combine v1 v2) in
  (debtor <- getitem output (lit "Debtor Reference") ;;
   number <- getitem output (lit "Document Number") ;;
   let mask := List.map (fun '(x, y) => keep_row x y)
                        (combine (values debtor) (values number)) in
   project (reset_index (filter_rows mask output)) output_columns)
  = Ok (MkFrame (List.map N.of_nat (seq 0 (List.length (select mask idx))))
                [ (lit "Debtor Reference", select mask v1);
                  (lit "Transaction Type", select mask v5);
                  (lit "Document Number", select mask v2);
                  (lit "Document Date", select mask v3);
                  (lit "Document Balance", select mask v4) ]).
Proof.
  reflexivity.
Qed.

Lemma transform_ok (to_datetime : cell -> option datetime)
      (rc : dict) (df : DataFrame) (c o r d a : str) :
  required rc (lit "customer") = Ok c ->
  required rc (lit "order_number") = Ok o ->
  required rc (lit "reference") = Ok r ->
  required rc (lit "date") = Ok d ->
  required rc (lit "amount") = Ok a ->
  In c (labels df) -> In o (labels df) -> In r (labels df) ->
  In d (labels df) -> In a (labels df) ->
  well_formed df ->
  let K := filter (kept c) (rows df) in
  transform to_datetime rc df
  = Ok (MkFrame (List.map N.of_nat (seq 0 (List.length K)))
                (List.map (fun '(l, g) => (l, List.map g K))
                          (output_fields to_datetime c o r d a))).
Proof.
  intros Hc Ho Hr Hd Ha Ic Io Ir Id Ia Hwf K.
  destruct (lookup_in _ _ Ic) as [vc Lc].
  destruct (lookup_in _ _ Io) as [vo Lo].
  destruct (lookup_in _ _ Ir) as [vr Lr].
  destruct (lookup_in _ _ Id) as [vd Ld].
  destruct (lookup_in _ _ Ia) as [va La].
  assert (Hlen : forall h vs, lookup h (columns df) = Some vs ->
                              List.length vs = List.length (index df)).
  { intros h vs L. apply lookup_some_in in L.
    unfold well_formed in Hwf. rewrite Forall_forall in Hwf.
    apply (Hwf _ L). }
  pose proof (column_by_rows _ _ _ _ Lc (Hlen _ _ Lc)) as Ec.
  pose proof (column_by_rows _ _ _ _ Ld (Hlen _ _ Ld)) as Ed.
  pose proof (column_by_rows _ _ _ _ La (Hlen _ _ La)) as Ea.
  fold (rows df) in Ec, Ed, Ea.
  assert (Hnum :
    apply_rows (fun rw => n <- create_document_number rc rw ;; Ok (text n)) df
    = Ok (MkSeries (index df)
            (List.map (fun rw => text (lit "O_" ++ shown (field rw o) ++ lit "_"
                                       ++ shown (field rw r))) (rows df)))).
  { unfold apply_rows.
    rewrite (sequence_map_ok _
               (fun rw => text (lit "O_" ++ shown (field rw o) ++ lit "_"
                                ++ shown (field rw r)))); [reflexivity|].
    intros rw Hin.
    destruct (rows_of_lookup _ _ _ _ _ Lo Hin) as [c1 L1].
    destruct (rows_of_lookup _ _ _ _ _ Lr Hin) as [c2 L2].
    rewrite (create_document_number_eq rc rw o r _ _ Ho (row_get_field _ _ _ L1)
               Hr (row_get_field _ _ _ L2)).
    reflexivity. }
  unfold transform. rewrite Hc. cbn [bind].
  unfold getitem at 1. rewrite Lc. cbn [bind].
  rewrite Hnum. cbn [bind]. rewrite Hd. cbn [bind].
  unfold getitem at 1. rewrite Ld. cbn [bind]. rewrite Ha. cbn [bind].
  unfold getitem at 1. rewrite La. cbn [bind].
  rewrite Ec, Ed, Ea.
  unfold apply. cbn [s_index values].
  rewrite finish_output.
  rewrite combine_map_map, !map_map.
  assert (Hmask :
    List.map (fun x : row =>
                let '(x0, y) :=
                  (field x c,
                   text (lit "O_" ++ shown (field x o) ++ lit "_" ++ shown (field x r)))
                in keep_row x0 y) (rows df)
    = List.map (kept c) (rows df)).
  { apply map_ext. intros rw. unfold keep_row, kept. cbn [notna isna text to_str].
    destruct (eqb_neq (strip (lit "O_" ++ shown (field rw o) ++ lit "_"
                               ++ shown (field rw r))) []) as [_ Hn].
    rewrite (Hn (document_number_not_blank _ _)).
    cbn [negb]. now rewrite !andb_true_r. }
  rewrite Hmask.
  rewrite !select_map_filter.
  rewrite select_length_map by (symmetry; apply rows_of_length).
  reflexivity.
Qed.

(** Every key whose alias some header matches is bound to one of the
    headers. *)
Lemma resolved_columns (cols : list str) (key alias : str) :
  unresolved cols = [] -> In (key, alias) aliases ->
  exists h, required (find_columns cols) key = Ok h
            /\ In h cols /\ matches alias h = true.
Proof.
  intros Hu Hk. unfold required.
  rewrite find_columns_eq, (lookup_aliases _ _ _ Hk).
  destruct (find (matches alias) (rev cols)) as [h|] eqn:E.
  - apply find_some in E. destruct E as [Hin Hm]. apply in_rev in Hin. eauto.
  - exfalso. assert (Hin : In key (unresolved cols)).
    { apply in_unresolved. exists alias. split; [assumption|].
      apply find_none_iff in E. apply Forall_forall. intros c Hc.
      rewrite Forall_forall in E. apply E. now apply in_rev in Hc. }
    rewrite Hu in Hin. contradiction.
Qed.

Lemma process_file_ok
  (to_datetime : cell -> option datetime) (read_csv read_excel : file -> DataFrame)
  (f : file) (df : DataFrame) :
  read_file read_csv read_excel f = Ok df ->
  empty df = false ->
  well_formed df ->
  unresolved (labels df) = [] ->
  exists c o r d a,
    let rc := find_columns (labels df) in
    let K := filter (kept c) (rows df) in
    required rc (lit "customer") = Ok c
    /\ required rc (lit "order_number") = Ok o
    /\ required rc (lit "reference") = Ok r
    /\ required rc (lit "date") = Ok d
    /\ required rc (lit "amount") = Ok a
    /\ process_file to_datetime read_csv read_excel f
       = Ok (MkFrame (List.map N.of_nat (seq 0 (List.length K)))
                     (List.map (fun '(l, g) => (l, List.map g K))
                               (output_fields to_datetime c o r d a))).
Proof.
  intros Hread Hne Hwf Hu.
  destruct (resolved_columns (labels df) (lit "customer") (lit "customer") Hu)
    as [c [Hc [Ic _]]]; [simpl; tauto|].
  destruct (resolved_columns (labels df) (lit "order_number") (lit "order nbr.") Hu)
    as [o [Ho [Io _]]]; [simpl; tauto|].
  destruct (resolved_columns (labels df) (lit "reference") (lit "reference nbr.") Hu)
    as [r [Hr [Ir _]]]; [simpl; tauto|].
  destruct (resolved_columns (labels df) (lit "date") (lit "date") Hu)
    as [d [Hd [Id _]]]; [simpl; tauto|].
  destruct (resolved_columns (labels df) (lit "amount") (lit "amount") Hu)
    as [a [Ha [Ia _]]]; [simpl; tauto|].
  exists c, o, r, d, a. cbv zeta. repeat (split; [assumption|]).
  unfold process_file. rewrite Hread. cbn [bind]. rewrite Hne.
  rewrite missing_find_columns, Hu.
  now apply transform_ok.
Qed.

Lemma rows_output (idx : list N) (K : list row) (gs : list (str * (row -> cell))) :
  List.length idx = List.length K ->
  rows (MkFrame idx (List.map (fun '(l, g) => (l, List.map g K)) gs))
  = List.map (fun rw => List.map (fun '(l, g) => (l, g rw)) gs) K.
Proof.
  intros H. unfold rows. cbn [index columns]. now apply rows_of_by_rows.
Qed.

(** C6: the Document Number of a row is ["O_"], the text of the order
    number, ["_"] and the text of the reference, where a missing cell
    counts as the empty text (not as ["nan"]); it is never empty, and
    it is ["O__"] when both cells are missing or empty. *)
Theorem document_number_format
  (required_cols : dict) (rw : row) (o r : str) (c1 c2 : cell) :
  required required_cols (lit "order_number") = Ok o ->
  row_get rw o = Ok c1 ->
  required required_cols (lit "reference") = Ok r ->
  row_get rw r = Ok c2 ->
  let order_num := if isna c1 then [] else to_str c1 in
  let reference := if isna c2 then [] else to_str c2 in
  create_document_number required_cols rw
  = Ok (lit "O_" ++ order_num ++ lit "_" ++ reference)
  /\ lit "O_" ++ order_num ++ lit "_" ++ reference <> []
  /\ ((isna c1 = true \/ to_str c1 = []) ->
      (isna c2 = true \/ to_str c2 = []) ->
      create_document_number required_cols rw = Ok (lit "O__")).
Proof.
  intros H1 H2 H3 H4 order_num reference.
  assert (E : create_document_number required_cols rw
              = Ok (lit "O_" ++ order_num ++ lit "_" ++ reference)).
  { rewrite (create_document_number_eq _ _ _ _ _ _ H1 H2 H3 H4).
    unfold shown, notna, order_num, reference.
    destruct (isna c1), (isna c2); reflexivity. }
  split; [exact E|split; [discriminate|]].
  intros E1 E2. rewrite E. unfold order_num, reference.
  destruct E1 as [-> | E1], E2 as [-> | E2];
    try rewrite E1; try rewrite E2;
    destruct (isna c1), (isna c2); reflexivity.
Qed.

Lemma document_number_format_witness :
  create_document_number
    (find_columns (List.map fst sample_row ++ List.map lit ["Customer"; "Date"; "Amount"]%string))
    sample_row
  = Ok (lit "O__").
Proof.
  refine (proj2 (proj2 (@document_number_format
            (find_columns (List.map fst sample_row
                           ++ List.map lit ["Customer"; "Date"; "Amount"]%string))
            sample_row (lit "Order Nbr.") (lit "Reference Nbr.")
            NaN (text []) _ _ _ _)) _ _).
  - reflexivity.
  - reflexivity.
  - reflexivity.
  - reflexivity.
  - left. reflexivity.
  - right. reflexivity.
Defined.

(** C7: the rows of the output are the input rows whose customer is
    present and not blank, each one transformed, in their input order;
    the index is renumbered from 0 without gaps; and every output row
    has a Debtor Reference and a Document Number that are not blank. *)
Theorem output_rows_are_the_complete_rows_in_order
  (to_datetime : cell -> option datetime) (read_csv read_excel : file -> DataFrame)
  (f : file) (df : DataFrame) :
  read_file read_csv read_excel f = Ok df ->
  empty df = false ->
  well_formed df ->
  unresolved (labels df) = [] ->
  exists out c o r d a,
    process_file to_datetime read_csv read_excel f = Ok out
    /\ required (find_columns (labels df)) (lit "customer") = Ok c
    /\ required (find_columns (labels df)) (lit "order_number") = Ok o
    /\ required (find_columns (labels df)) (lit "reference") = Ok r
    /\ required (find_columns (labels df)) (lit "date") = Ok d
    /\ required (find_columns (labels df)) (lit "amount") = Ok a
    /\ rows out = List.map (output_row to_datetime c o r d a)
                           (filter (kept c) (rows df))
    /\ index out = List.map N.of_nat (seq 0 (List.length (rows out)))
    /\ Forall complete (rows out).
Proof.
  intros Hread Hne Hwf Hu.
  destruct (process_file_ok to_datetime read_csv read_excel f df Hread Hne Hwf Hu)
    as [c [o [r [d [a H]]]]].
  cbv zeta in H. destruct H as [Hc [Ho [Hr [Hd [Ha Hp]]]]].
  eexists. exists c, o, r, d, a.
  split; [exact Hp|]. repeat (split; [assumption|]).
  assert (Hrows :
    rows (MkFrame (List.map N.of_nat (seq 0 (List.length (filter (kept c) (rows df)))))
                  (List.map (fun '(l, g) => (l, List.map g (filter (kept c) (rows df))))
                            (output_fields to_datetime c o r d a)))
    = List.map (output_row to_datetime c o r d a) (filter (kept c) (rows df))).
  { apply rows_output. now rewrite length_map, length_seq. }
  split; [exact Hrows|]. split.
  - rewrite Hrows. cbn [index]. now rewrite length_map.
  - rewrite Hrows. apply Forall_forall. intros rw Hin.
    apply in_map_iff in Hin. destruct Hin as [src [<- Hin]].
    apply filter_In in Hin. destruct Hin as [_ Hk].
    unfold kept in Hk. apply andb_true_iff in Hk. destruct Hk as [Hn Hb].
    apply negb_true_iff, eqb_neq in Hb.
    unfold complete. change (field (output_row to_datetime c o r d a src)
                                   (lit "Debtor Reference")) with (field src c).
    change (field (output_row to_datetime c o r d a src) (lit "Document Number"))
      with (text (lit "O_" ++ shown (field src o) ++ lit "_" ++ shown (field src r))).
    repeat split; auto. apply document_number_not_blank.
Qed.

(** C8: for a valid input table whose five columns all resolve, the
    output has the columns Debtor Reference, Transaction Type, Document
    Number, Document Date, Document Balance, in that order, and no
    other. *)
Theorem output_has_the_five_columns_in_order
  (to_datetime : cell -> option datetime) (read_csv read_excel : file -> DataFrame)
  (f : file) (df : DataFrame) :
  read_file read_csv read_excel f = Ok df ->
  empty df = false ->
  well_formed df ->
  unresolved (labels df) = [] ->
  exists out,
    process_file to_datetime read_csv read_excel f = Ok out
    /\ labels out = output_columns
    /\ labels out
       = List.map lit [ "Debtor Reference"; "Transaction Type"; "Document Number";
                        "Document Date"; "Document Balance" ]%string.
Proof.
  intros Hread Hne Hwf Hu.
  destruct (process_file_ok to_datetime read_csv read_excel f df Hread Hne Hwf Hu)
    as [c [o [r [d [a H]]]]].
  cbv zeta in H. destruct H as [_ [_ [_ [_ [_ Hp]]]]].
  eexists. split; [exact Hp|]. split; reflexivity.
Qed.

Lemma scenario_table_well_formed : well_formed scenario_table.
Proof. repeat constructor. Qed.

Lemma output_rows_are_the_complete_rows_in_order_witness :
  exists out c o r d a,
    process_file (fun _ => None) (fun _ => scenario_table)
                 (fun _ => scenario_table) scenario_file = Ok out
    /\ required (find_columns (labels scenario_table)) (lit "customer") = Ok c
    /\ required (find_columns (labels scenario_table)) (lit "order_number") = Ok o
    /\ required (find_columns (labels scenario_table)) (lit "reference") = Ok r
    /\ required (find_columns (labels scenario_table)) (lit "date") = Ok d
    /\ required (find_columns (labels scenario_table)) (lit "amount") = Ok a
    /\ rows out = List.map (output_row (fun _ => None) c o r d a)
                           (filter (kept c) (rows scenario_table))
    /\ index out = List.map N.of_nat (seq 0 (List.length (rows out)))
    /\ Forall complete (rows out).
Proof.
  apply (@output_rows_are_the_complete_rows_in_order
           (fun _ => None) (fun _ => scenario_table) (fun _ => scenario_table)
           scenario_file scenario_table).
  - reflexivity.
  - reflexivity.
  - repeat constructor.
  - reflexivity.
Defined.

Lemma output_has_the_five_columns_in_order_witness :
  exists out,
    process_file (fun _ => None) (fun _ => scenario_table)
                 (fun _ => scenario_table) scenario_file = Ok out
    /\ labels out = output_columns
    /\ labels out
       = List.map lit [ "Debtor Reference"; "Transaction Type"; "Document Number";
                        "Document Date"; "Document Balance" ]%string.
Proof.
  apply (@output_has_the_five_columns_in_order
           (fun _ => None) (fun _ => scenario_table) (fun _ => scenario_table)
           scenario_file scenario_table).
  - reflexivity.
  - reflexivity.
  - repeat constructor.
  - reflexivity.
Defined.

(** The scenarios of the specification, run through the whole pipeline:
    the row with a blank customer is dropped, the others keep their
    order. *)
Example scenario_output :
  process_file (fun _ => None) (fun _ => scenario_table)
               (fun _ => scenario_table) scenario_file
  = Ok (MkFrame [0; 1]%N
          [ (lit "Debtor Reference", [text (lit "Acme"); text (lit "Bolt")]);
            (lit "Transaction Type", [text (lit "INV"); text (lit "CRD")]);
            (lit "Document Number", [text (lit "O_100_R1"); text (lit "O_102_")]);
            (lit "Document Date", [text (lit "01/02/2023"); text (lit "13/02/2023")]);
            (lit "Document Balance", [text (lit "1200.50"); text (lit "-50.00")]) ]).
Proof. vm_compute. reflexivity. Qed.

(** The loader: an unknown extension and an empty table stop the
    pipeline before any column is looked for. *)
Example loader_errors :
  process_file (fun _ => None) (fun _ => scenario_table)
               (fun _ => scenario_table) (MkFile (lit "export.txt") [])
  = Err UnsupportedFormat
  /\ process_file (fun _ => None) (fun _ => MkFrame [] [(lit "Customer", [])])
                  (fun _ => scenario_table) scenario_file
     = Err EmptyInput.
Proof. split; reflexivity. Qed.


(** * Further properties *)

(** ** The column resolver *)

(** X1: what the column loop leaves in [required_cols]: a key is bound
    only to a header of the table that matches its alias, it stays
    unbound exactly when no header matches, and the dictionary keeps
    its five keys in their order. *)
Theorem find_columns_binds_matching_headers
  (cols : list str) (key alias : str) :
  In (key, alias) aliases ->
  (forall h, lookup key (find_columns cols) = Some (Some h) ->
             In h cols /\ matches alias h = true)
  /\ (lookup key (find_columns cols) = Some None <->
      Forall (fun c => matches alias c = false) cols)
  /\ List.map fst (find_columns cols) = List.map fst required_cols_init.
Proof.
  intros Hk. rewrite find_columns_eq.
  rewrite (lookup_aliases (fun a => find (matches a) (rev cols)) _ _ Hk).
  split; [|split].
  - intros h H. inversion H as [E]. apply find_some in E.
    destruct E as [Hin Hm]. apply in_rev in Hin. auto.
  - split.
    + intros H. inversion H as [E]. apply find_none_iff in E.
      apply Forall_forall. intros c Hc. rewrite Forall_forall in E.
      apply E. now apply in_rev in Hc.
    + intros H. f_equal. apply find_none_iff. now apply Forall_rev.
  - reflexivity.
Qed.

Lemma find_columns_binds_matching_headers_witness :
  In (lit " Amount ") [lit "Customer"; lit " Amount "; lit "Total"]
  /\ matches (lit "amount") (lit " Amount ") = true.
Proof.
  apply (proj1 (@find_columns_binds_matching_headers
                  [lit "Customer"; lit " Amount "; lit "Total"]
                  (lit "amount") (lit "amount")
                  ltac:(simpl; tauto)) (lit " Amount ")).
  reflexivity.
Defined.

(** ** Trimming *)

Lemma lstrip_by_app_space (sp : N -> bool) (a b : str) :
  forallb sp a = true -> lstrip_by sp (a ++ b) = lstrip_by sp b.
Proof.
  induction a as [|c a IH]; [reflexivity|].
  cbn [forallb app lstrip_by]. rewrite andb_true_iff. intros [-> H]. auto.
Qed.

Lemma lstrip_by_all_space (sp : N -> bool) (a : str) :
  forallb sp a = true -> lstrip_by sp a = [].
Proof.
  intros H. rewrite <- (app_nil_r a). now rewrite lstrip_by_app_space.
Qed.

Lemma lstrip_by_app_kept (sp : N -> bool) (s b : str) (c : N) (t : str) :
  lstrip_by sp s = c :: t -> lstrip_by sp (s ++ b) = c :: t ++ b.
Proof.
  induction s as [|x s IH]; [discriminate|].
  cbn [lstrip_by app]. destruct (sp x); [exact IH|].
  intros H. inversion H. reflexivity.
Qed.

Lemma strip_by_pad (sp : N -> bool) (pre s post : str) :
  forallb sp pre = true -> forallb sp post = true ->
  strip_by sp (pre ++ s ++ post) = strip_by sp s.
Proof.
  intros Hpre Hpost. unfold strip_by.
  rewrite (lstrip_by_app_space sp pre _ Hpre).
  destruct (lstrip_by sp s) as [|c t] eqn:E.
  - assert (Hs : forallb sp s = true).
    { clear - E. induction s as [|x s IH]; [reflexivity|].
      cbn [lstrip_by] in E. cbn [forallb].
      destruct (sp x); [auto|discriminate]. }
    rewrite (lstrip_by_app_space sp s _ Hs), (lstrip_by_all_space sp post Hpost).
    reflexivity.
  - rewrite (lstrip_by_app_kept sp s post c t E).
    change (c :: t ++ post) with ((c :: t) ++ post).
    rewrite rev_app_distr.
    rewrite lstrip_by_app_space by (now rewrite forallb_rev').
    reflexivity.
Qed.

Lemma lstrip_by_head (sp : N -> bool) (s : str) (c : N) (t : str) :
  lstrip_by sp s = c :: t -> sp c = false.
Proof.
  induction s as [|x s IH]; [discriminate|].
  cbn [lstrip_by]. destruct (sp x) eqn:E; [exact IH|].
  intros H. inversion H. now subst.
Qed.

Lemma lstrip_by_idem (sp : N -> bool) (s : str) :
  lstrip_by sp (lstrip_by sp s) = lstrip_by sp s.
Proof.
  destruct (lstrip_by sp s) as [|c t] eqn:E; [reflexivity|].
  cbn [lstrip_by]. now rewrite (lstrip_by_head sp s c t E).
Qed.

Lemma lstrip_by_suffix (sp : N -> bool) (s : str) :
  exists a, s = a ++ lstrip_by sp s /\ forallb sp a = true.
Proof.
  induction s as [|x s [a [E H]]].
  - exists []. split; reflexivity.
  - cbn [lstrip_by]. destruct (sp x) eqn:Ex.
    + exists (x :: a). split; [cbn [app]; now rewrite <- E|].
      cbn [forallb]. now rewrite Ex, H.
    + exists []. split; reflexivity.
Qed.

(** [strip] cuts white space off both ends and nothing else. *)
Lemma strip_by_decompose (sp : N -> bool) (s : str) :
  exists pre post, s = pre ++ strip_by sp s ++ post
                   /\ forallb sp pre = true /\ forallb sp post = true.
Proof.
  destruct (lstrip_by_suffix sp s) as [pre [E1 H1]].
  destruct (lstrip_by_suffix sp (rev (lstrip_by sp s))) as [b [E2 H2]].
  exists pre, (rev b). split; [|split].
  - unfold strip_by.
    rewrite E1 at 1. f_equal.
    rewrite <- (rev_involutive (lstrip_by sp s)) at 1.
    rewrite E2 at 1. now rewrite rev_app_distr.
  - exact H1.
  - now rewrite forallb_rev'.
Qed.

Lemma strip_by_idem (sp : N -> bool) (s : str) :
  strip_by sp (strip_by sp s) = strip_by sp s.
Proof.
  destruct (strip_by_decompose sp s) as [pre [post [E [H1 H2]]]].
  rewrite E at 2. now rewrite strip_by_pad.
Qed.

(** ** Header matching *)

Lemma isspace_lower_char (c : N) : isspace (lower_char c) = isspace c.
Proof.
  unfold lower_char.
  destruct ((65 <=? c)%N && (c <=? 90)%N) eqn:E; [|reflexivity].
  rewrite andb_true_iff, !N.leb_le in E.
  unfold isspace.
  repeat match goal with
         | |- context [(?a <=? ?b)%N] =>
             let H := fresh in
             destruct (N.leb_spec a b) as [H|H]; try lia
         | |- context [(?a =? ?b)%N] =>
             let H := fresh in
             destruct (N.eqb_spec a b) as [H|H]; try lia
         end; reflexivity.
Qed.

Lemma forallb_isspace_lower (s : str) :
  forallb isspace (lower s) = forallb isspace s.
Proof.
  induction s as [|c s IH]; [reflexivity|].
  cbn [lower List.map forallb]. fold (lower s).
  now rewrite isspace_lower_char, IH.
Qed.

Lemma lower_char_idem (c : N) : lower_char (lower_char c) = lower_char c.
Proof.
  unfold lower_char.
  destruct ((65 <=? c)%N && (c <=? 90)%N) eqn:E; [|now rewrite E].
  rewrite andb_true_iff, !N.leb_le in E.
  destruct ((65 <=? c + 32)%N && (c + 32 <=? 90)%N) eqn:E2; [|reflexivity].
  rewrite andb_true_iff, !N.leb_le in E2. lia.
Qed.

Lemma lower_idem (s : str) : lower (lower s) = lower s.
Proof.
  unfold lower. rewrite map_map. apply map_ext. apply lower_char_idem.
Qed.

(** X2: a header is matched whatever the case of its letters and the
    white space around it. *)
Theorem header_match_ignores_case_and_padding
  (alias pre col post : str) :
  forallb isspace pre = true -> forallb isspace post = true ->
  matches alias (pre ++ col ++ post) = matches alias col
  /\ matches alias (lower col) = matches alias col.
Proof.
  intros Hpre Hpost. unfold matches. split.
  - unfold lower. rewrite !map_app. fold (lower pre) (lower col) (lower post).
    unfold strip. rewrite strip_by_pad; [reflexivity| |];
      now rewrite forallb_isspace_lower.
  - now rewrite lower_idem.
Qed.

Lemma header_match_ignores_case_and_padding_witness :
  matches (lit "order nbr.") (lit "  " ++ lit "Order NBR." ++ [9%N; 160%N])
  = matches (lit "order nbr.") (lit "Order NBR.").
Proof.
  apply (proj1 (@header_match_ignores_case_and_padding
                  (lit "order nbr.") (lit "  ") (lit "Order NBR.") [9%N; 160%N]
                  eq_refl eq_refl)).
Defined.

(** ** Cleaning an amount *)

Lemma replace_remove_app (old : N) (a b : str) :
  replace old [] (a ++ b) = replace old [] a ++ replace old [] b.
Proof. unfold replace. apply flat_map_app. Qed.

Lemma replace_other (old c : N) (b : str) :
  c <> old -> replace old [] (c :: b) = c :: replace old [] b.
Proof.
  intros H. unfold replace. cbn [flat_map].
  apply N.eqb_neq in H. now rewrite H.
Qed.

Lemma replace_same (old : N) (b : str) :
  replace old [] (old :: b) = replace old [] b.
Proof.
  unfold replace. cbn [flat_map]. now rewrite N.eqb_refl.
Qed.

Lemma unsymbol_app (a b : str) : unsymbol (a ++ b) = unsymbol a ++ unsymbol b.
Proof. unfold unsymbol. now rewrite !replace_remove_app. Qed.

Lemma unsymbol_symbol (c : N) :
  In c [dollar; comma; pound; euro] -> unsymbol [c] = [].
Proof.
  simpl. intros [<-|[<-|[<-|[<-|[]]]]]; reflexivity.
Qed.

(** X3: the dollar, pound and euro signs and the comma count for
    nothing, wherever they stand in the amount cell. *)
Theorem format_amount_ignores_symbols (a b : str) (c : N) :
  In c [dollar; comma; pound; euro] ->
  format_amount (text (a ++ c :: b)) = format_amount (text (a ++ b)).
Proof.
  intros Hc.
  assert (E : clean (a ++ c :: b) = clean (a ++ b)).
  { unfold clean. fold (unsymbol (a ++ c :: b)) (unsymbol (a ++ b)).
    change (c :: b) with ([c] ++ b).
    now rewrite !unsymbol_app, (unsymbol_symbol c Hc). }
  unfold format_amount. cbn [to_str text]. now rewrite E.
Qed.

Lemma format_amount_ignores_symbols_witness :
  format_amount (text (lit "-1" ++ comma :: lit "5")) = format_amount (text (lit "-1" ++ lit "5")).
Proof.
  apply (@format_amount_ignores_symbols (lit "-1") (lit "5") comma).
  simpl. tauto.
Defined.

Lemma unsymbol_space (s : str) : forallb isspace s = true -> unsymbol s = s.
Proof.
  intros H. unfold unsymbol.
  assert (R : forall old, In old [dollar; comma; pound; euro] ->
                          forallb (fun c => negb (c =? old)%N) s = true).
  { intros old Ho. apply (forallb_impl isspace _ s); [|exact H].
    intros c Hc. apply negb_true_iff, N.eqb_neq. intros ->.
    simpl in Ho. destruct Ho as [<-|[<-|[<-|[<-|[]]]]]; discriminate. }
  rewrite (replace_absent dollar) by (apply R; simpl; tauto).
  rewrite (replace_absent comma) by (apply R; simpl; tauto).
  rewrite (replace_absent pound) by (apply R; simpl; tauto).
  rewrite (replace_absent euro) by (apply R; simpl; tauto).
  reflexivity.
Qed.

(** X4: white space around an amount counts for nothing either. *)
Theorem format_amount_ignores_padding (pre s post : str) :
  forallb isspace pre = true -> forallb isspace post = true ->
  format_amount (text (pre ++ s ++ post)) = format_amount (text s).
Proof.
  intros Hpre Hpost.
  assert (E : clean (pre ++ s ++ post) = clean s).
  { unfold clean. fold (unsymbol (pre ++ s ++ post)) (unsymbol s).
    rewrite !unsymbol_app, (unsymbol_space pre Hpre), (unsymbol_space post Hpost).
    unfold strip. now apply strip_by_pad. }
  unfold format_amount. cbn [to_str text]. now rewrite E.
Qed.

Lemma format_amount_ignores_padding_witness :
  format_amount (text (lit " " ++ lit "$7" ++ [9%N; 10%N])) = format_amount (text (lit "$7")).
Proof.
  apply (@format_amount_ignores_padding (lit " ") (lit "$7") [9%N; 10%N]);
    reflexivity.
Defined.

(** ** Exact amounts *)

Section ExactAmounts.

Local Open Scope Z_scope.

Lemma format_amount_of_formatted (s : bool) (q : Z) :
  0 <= q ->
  format_amount (text (sign_text s ++ fixed2 q)) = format_2f (of_ratio s q 100).
Proof.
  intros Hq. pose proof (sign_fixed2_plain s q) as Hp.
  unfold format_amount. cbn [to_str text].
  rewrite (clean_plain _ Hp).
  destruct (fixed2_head q) as [c [t [E Hc]]].
  assert (G1 : eqb (sign_text s ++ fixed2 q) [] = false).
  { rewrite E. now destruct s. }
  assert (G2 : eqb (lower (sign_text s ++ fixed2 q)) (lit "nan") = false).
  { destruct s.
    - reflexivity.
    - cbn [sign_text app]. rewrite E. apply lower_digit_not_word; [exact Hc|].
      simpl. tauto. }
  rewrite G1, G2. cbn [orb].
  now rewrite (parse_formatted s q Hq).
Qed.

(** The float read from [q] hundredths, when some binary64 number is
    within half a hundredth of them. *)
Lemma of_ratio_hundredths (s : bool) (q : Z) (m : positive) (e : Z) :
  0 < q -> binary64 m e ->
  2 * Z.abs (100 * scaled m e - q * 2 ^ 1074) < 2 ^ 1074 ->
  q < 100 * 2 ^ 1000 ->
  exists m' e', of_ratio s q 100 = S754_finite s m' e'
                /\ binary64 m' e' /\ hundredths m' e' = q.
Proof.
  intros Hq Hb Hx Hbig.
  assert (HS : 0 < 2 ^ 1074) by (apply pow2_pos; lia).
  pose proof (of_ratio_nearest q 100 m e Hq ltac:(lia) Hb) as Hn.
  cbv zeta in Hn.
  destruct (of_ratio_cases s q 100 Hq ltac:(lia))
    as [[_ HY]|[[_ HY]|[m' [e' [E [Hb' HY]]]]]];
    cbv zeta in HY.
  - exfalso. rewrite HY in Hn. nia.
  - exfalso.
    set (Y := rounded_mantissa q 100 * 2 ^ (rounded_exponent q 100 + 1074)) in *.
    assert (P : 2 ^ (1024 + 1074) = 2 ^ 1024 * 2 ^ 1074) by reflexivity.
    assert (P' : 2 ^ 1024 = 2 ^ 1000 * 2 ^ 24) by reflexivity.
    assert (0 < 2 ^ 1000) by (apply pow2_pos; lia).
    assert (2 ^ 24 = 16777216) by reflexivity.
    nia.
  - exists m', e'. split; [exact E|]. split; [exact Hb'|].
    rewrite hundredths_scaled by (destruct Hb'; lia).
    apply round_half_even_spec; [exact HS|]. left.
    rewrite HY. lia.
Qed.

(** The two-decimal text of at most [2 ^ 45] comes out as it went in. *)
Lemma fixed2_amount_kept (s : bool) (q : Z) :
  0 <= q <= 100 * 2 ^ 45 ->
  format_amount (text (sign_text s ++ fixed2 q)) = sign_text s ++ fixed2 q.
Proof.
  intros [Hq0 Hq1]. rewrite format_amount_of_formatted by exact Hq0.
  destruct (Z.eq_dec q 0) as [->|Hz]; [reflexivity|].
  set (m := round_half_even (128 * q) 100).
  assert (Hm : 1 <= m <= 2 ^ 52).
  { apply round_half_even_bounds; [lia|lia|].
    change (2 ^ 52) with (128 * 2 ^ 45). lia. }
  pose proof (round_half_even_close (128 * q) 100 ltac:(lia)) as Hc. fold m in Hc.
  assert (Hb : binary64 (Z.to_pos m) (-7)).
  { split; [|lia]. rewrite Z2Pos.id by lia.
    assert (2 ^ 52 < 2 ^ 53) by reflexivity. lia. }
  destruct (of_ratio_hundredths s q (Z.to_pos m) (-7)) as [m' [e' [E [_ Hh]]]].
  - lia.
  - exact Hb.
  - unfold scaled. rewrite Z2Pos.id by lia.
    change (-7 + 1074) with 1067.
    change (2 ^ 1074) with (128 * 2 ^ 1067).
    assert (0 < 2 ^ 1067) by (apply pow2_pos; lia).
    replace (100 * (m * 2 ^ 1067) - q * (128 * 2 ^ 1067))
      with (- (128 * q - m * 100) * 2 ^ 1067) by ring.
    rewrite Z.abs_mul, Z.abs_opp, (Z.abs_eq (2 ^ 1067)) by lia. nia.
  - assert (2 ^ 45 < 2 ^ 1000) by (apply Z.pow_lt_mono_r; lia). lia.
  - rewrite E. cbn [format_2f]. now rewrite Hh.
Qed.

Lemma read_number_digits (n : N) :
  read_number (digits n) = Some (Z.of_N n, 1).
Proof.
  unfold read_number.
  rewrite <- (app_nil_r (digits n)).
  rewrite (read_digits_run (digits n) [] 0 0 (digits_all n) I).
  cbv iota beta.
  pose proof (digits_not_nil n) as Hn.
  assert (L : 0 < Z.of_nat (List.length (digits n))).
  { destruct (digits n); [contradiction|]. cbn [List.length]. lia. }
  replace (0 <? 0 + Z.of_nat (List.length (digits n)) + 0)
    with true by (symmetry; apply Z.ltb_lt; lia).
  cbn [read_exponent]. change (0 - 0) with 0. cbv iota beta zeta.
  change (0 <=? 0) with true. cbv iota.
  rewrite dval_digits. f_equal. f_equal. simpl. lia.
Qed.

Lemma digits_head (n : N) : exists c t, digits n = c :: t /\ is_digit c = true.
Proof.
  pose proof (digits_all n) as Ha. pose proof (digits_not_nil n) as Hn.
  destruct (digits n) as [|c t]; [contradiction|].
  cbn [forallb] in Ha. apply andb_true_iff in Ha. exists c, t. tauto.
Qed.

Lemma sign_digits_plain (s : bool) (n : N) :
  forallb plain (sign_text s ++ digits n) = true.
Proof.
  rewrite forallb_app.
  rewrite (forallb_impl is_digit plain _ is_digit_plain (digits_all n)).
  now destruct s.
Qed.

Lemma parse_sign_digits (s : bool) (n : N) :
  parse (sign_text s ++ digits n) = Some (of_ratio s (Z.of_N n) 1).
Proof.
  unfold parse. pose proof (sign_digits_plain s n) as Hp.
  rewrite strip_by_id
    by (apply (forallb_impl plain _ _); [|exact Hp];
        intros c Hc; now rewrite (plain_not_float_space c Hc)).
  rewrite drop_underscores_plain by (reflexivity || exact Hp).
  destruct (digits_head n) as [c [t [E Hc]]].
  assert (Hs : read_sign (sign_text s ++ digits n) = (s, digits n)).
  { destruct s; [reflexivity|]. cbn [sign_text app]. rewrite E.
    now apply read_sign_digit. }
  rewrite Hs. cbv iota beta zeta.
  assert (W : forall w, In w ["inf"; "infinity"; "nan"]%string ->
                        eqb (lower (digits n)) (lit w) = false).
  { intros w Hw. rewrite E. now apply lower_digit_not_word. }
  rewrite !W by (simpl; tauto).
  cbn [orb]. now rewrite read_number_digits.
Qed.

(** The digits of a number below [2 ^ 53] come out with [.00] after
    them. *)
Lemma digits_amount_two_zeros (s : bool) (n : N) :
  (n < 2 ^ 53)%N ->
  format_amount (text (sign_text s ++ digits n))
  = sign_text s ++ digits n ++ lit ".00".
Proof.
  intros Hn. pose proof (sign_digits_plain s n) as Hp.
  unfold format_amount. cbn [to_str text].
  rewrite (clean_plain _ Hp).
  destruct (digits_head n) as [c [t [E Hc]]].
  assert (G1 : eqb (sign_text s ++ digits n) [] = false).
  { rewrite E. now destruct s. }
  assert (G2 : eqb (lower (sign_text s ++ digits n)) (lit "nan") = false).
  { destruct s.
    - reflexivity.
    - cbn [sign_text app]. rewrite E. apply lower_digit_not_word; [exact Hc|].
      simpl. tauto. }
  rewrite G1, G2. cbn [orb]. rewrite parse_sign_digits.
  assert (F : fixed2 (Z.of_N n * 100) = digits n ++ lit ".00").
  { unfold fixed2. rewrite Z.div_mul, Z.mod_mul by lia.
    now rewrite N2Z.id. }
  destruct n as [|p]; [reflexivity|].
  assert (HS : 0 < 2 ^ 1074) by (apply pow2_pos; lia).
  assert (Hb : binary64 p 0).
  { split; [|lia]. change (2 ^ 53) with (Z.of_N (2 ^ 53)). lia. }
  pose proof (of_ratio_nearest (Z.pos p) 1 p 0 ltac:(lia) ltac:(lia) Hb) as Hnear.
  cbv zeta in Hnear. unfold scaled in Hnear.
  change (0 + 1074) with 1074 in Hnear.
  replace (Z.pos p * 2 ^ 1074 - Z.pos p * 2 ^ 1074 * 1) with 0 in Hnear by ring.
  change (Z.of_N (N.pos p)) with (Z.pos p) in *.
  destruct (of_ratio_cases s (Z.pos p) 1 ltac:(lia) ltac:(lia))
    as [[_ HY]|[[_ HY]|[m' [e' [-> [Hb' HY]]]]]];
    cbv zeta in HY.
  - exfalso. rewrite HY in Hnear. simpl in Hnear. nia.
  - exfalso.
    set (Y := rounded_mantissa (Z.pos p) 1 * 2 ^ (rounded_exponent (Z.pos p) 1 + 1074)) in *.
    assert (P : 2 ^ (1024 + 1074) = 2 ^ 1024 * 2 ^ 1074) by reflexivity.
    assert (2 ^ 53 < 2 ^ 1024) by (apply Z.pow_lt_mono_r; lia).
    change (2 ^ 53)%N with (Z.to_N (2 ^ 53)) in Hn.
    assert (Z.pos p < 2 ^ 53) by lia.
    nia.
  - cbn [format_2f]. rewrite <- F. do 2 f_equal.
    rewrite hundredths_scaled by (destruct Hb'; lia).
    rewrite HY.
    set (Y := rounded_mantissa (Z.pos p) 1 * 2 ^ (rounded_exponent (Z.pos p) 1 + 1074)) in *.
    assert (EY : Y = Z.pos p * 2 ^ 1074) by lia.
    rewrite EY.
    replace (100 * (Z.pos p * 2 ^ 1074)) with (Z.pos p * 100 * 2 ^ 1074) by ring.
    now apply round_half_even_exact.
Qed.

Lemma digit_val_digit (c : N) :
  is_digit c = true -> (digit_val c < 10)%N /\ (48 + digit_val c)%N = c.
Proof.
  unfold is_digit, digit_val. rewrite andb_true_iff, !N.leb_le. lia.
Qed.

Lemma dval_snoc (l : str) (c : N) :
  dval (l ++ [c]) 0 = 10 * dval l 0 + Z.of_N (digit_val c).
Proof. rewrite dval_app. reflexivity. Qed.

Lemma dval_nonneg (l : str) (acc : Z) : 0 <= acc -> 0 <= dval l acc.
Proof.
  revert acc. induction l as [|c l IH]; intros acc H; [exact H|].
  cbn [dval fold_left]. apply IH. lia.
Qed.

Lemma dval_all_zeros (l : str) :
  forallb (fun c => c =? 48)%N l = true -> dval l 0 = 0.
Proof.
  induction l as [|c l IH] using rev_ind; [reflexivity|].
  rewrite forallb_app. cbn [forallb]. rewrite !andb_true_iff, N.eqb_eq.
  intros [Hl [-> _]]. rewrite dval_snoc, IH by exact Hl. reflexivity.
Qed.

Lemma dval_zero (l : str) :
  forallb is_digit l = true -> dval l 0 = 0 ->
  forallb (fun c => c =? 48)%N l = true.
Proof.
  induction l as [|c l IH] using rev_ind; [reflexivity|].
  rewrite !forallb_app. cbn [forallb]. rewrite !andb_true_iff.
  intros [Hl [Hc _]] H. rewrite dval_snoc in H.
  pose proof (dval_nonneg l 0 ltac:(lia)).
  destruct (digit_val_digit c Hc) as [Hv Hb].
  assert (dval l 0 = 0) by lia. assert (digit_val c = 0%N) by lia.
  repeat split; [now apply IH|]. apply N.eqb_eq. lia.
Qed.

Lemma lstrip_by_nil (sp : N -> bool) (l : str) :
  lstrip_by sp l = [] -> forallb sp l = true.
Proof.
  induction l as [|c l IH]; [reflexivity|].
  cbn [lstrip_by forallb]. destruct (sp c); [exact IH|discriminate].
Qed.

(** The digits of the number a run of digits stands for are the run
    without its leading zeros. *)
Lemma digits_dval (ds : str) :
  forallb is_digit ds = true -> digits (Z.to_N (dval ds 0)) = unpadded ds.
Proof.
  induction ds as [|c l IH] using rev_ind; [reflexivity|].
  rewrite forallb_app. cbn [forallb]. rewrite !andb_true_iff.
  intros [Hl [Hc _]]. rewrite dval_snoc.
  pose proof (dval_nonneg l 0 ltac:(lia)) as Hn.
  destruct (digit_val_digit c Hc) as [Hv Hb].
  destruct (Z.eq_dec (dval l 0) 0) as [E|E].
  - rewrite E. cbn [Z.mul Z.add]. rewrite N2Z.id.
    rewrite digits_small, Hb by exact Hv.
    unfold unpadded.
    rewrite lstrip_by_app_space by (now apply dval_zero).
    cbn [lstrip_by]. destruct (c =? 48)%N eqn:E8; [|reflexivity].
    apply N.eqb_eq in E8. now subst c.
  - replace (Z.to_N (10 * dval l 0 + Z.of_N (digit_val c)))
      with (10 * Z.to_N (dval l 0) + digit_val c)%N by lia.
    rewrite digits_snoc, Hb by lia. rewrite (IH Hl).
    unfold unpadded.
    destruct (lstrip_by (fun c0 => (c0 =? 48)%N) l) as [|x t] eqn:L.
    + exfalso. apply E. now apply dval_all_zeros, lstrip_by_nil.
    + now rewrite (lstrip_by_app_kept _ _ [c] _ _ L).
Qed.

Lemma format_amount_number (s : bool) (body : str) (c : N) (t : str) :
  body = c :: t -> is_digit c = true -> forallb plain body = true ->
  format_amount (text (sign_text s ++ body))
  = match read_number body with
    | Some (n, d) => format_2f (of_ratio s n d)
    | None => lit "0.00"
    end.
Proof.
  intros E Hc Hb.
  assert (Hp : forallb plain (sign_text s ++ body) = true).
  { rewrite forallb_app, Hb. now destruct s. }
  unfold format_amount. cbn [to_str text].
  rewrite (clean_plain _ Hp).
  assert (G1 : eqb (sign_text s ++ body) [] = false).
  { rewrite E. now destruct s. }
  assert (G2 : eqb (lower (sign_text s ++ body)) (lit "nan") = false).
  { destruct s.
    - reflexivity.
    - cbn [sign_text app]. rewrite E. apply lower_digit_not_word; [exact Hc|].
      simpl. tauto. }
  rewrite G1, G2. cbn [orb].
  unfold parse.
  rewrite strip_by_id
    by (apply (forallb_impl plain _ _); [|exact Hp];
        intros x Hx; now rewrite (plain_not_float_space x Hx)).
  rewrite drop_underscores_plain by (reflexivity || exact Hp).
  assert (Hs : read_sign (sign_text s ++ body) = (s, body)).
  { destruct s; [reflexivity|]. cbn [sign_text app]. rewrite E.
    now apply read_sign_digit. }
  rewrite Hs. cbv iota beta zeta.
  assert (W : forall w, In w ["inf"; "infinity"; "nan"]%string ->
                        eqb (lower body) (lit w) = false).
  { intros w Hw. rewrite E. now apply lower_digit_not_word. }
  rewrite !W by (simpl; tauto).
  cbn [orb]. destruct (read_number body) as [[n d]|]; reflexivity.
Qed.

Lemma read_number_two_decimals (ds : str) (d1 d2 : N) :
  ds <> [] -> forallb is_digit (ds ++ [d1; d2]) = true ->
  read_number (ds ++ 46%N :: [d1; d2]) = Some (dval (ds ++ [d1; d2]) 0, 100).
Proof.
  intros Hn Ha. rewrite forallb_app in Ha. apply andb_true_iff in Ha.
  destruct Ha as [Hds H12].
  unfold read_number.
  rewrite (read_digits_run ds _ 0 0 Hds) by reflexivity.
  cbv iota beta.
  rewrite <- (app_nil_r [d1; d2]).
  rewrite (read_digits_run [d1; d2] [] _ 0 H12 I).
  cbn [List.length]. cbv iota beta.
  assert (L : 0 < Z.of_nat (List.length ds)).
  { destruct ds; [contradiction|]. cbn [List.length]. lia. }
  replace (0 <? 0 + Z.of_nat (List.length ds) + (0 + Z.of_nat 2))
    with true by (symmetry; apply Z.ltb_lt; lia).
  cbn [read_exponent].
  change (0 - (0 + Z.of_nat 2)) with (-2). cbv iota beta zeta.
  change (0 <=? -2) with false. cbv iota.
  change (10 ^ (- -2)) with 100.
  now rewrite dval_app.
Qed.

Lemma read_number_whole (ds : str) :
  ds <> [] -> forallb is_digit ds = true ->
  read_number ds = Some (dval ds 0, 1).
Proof.
  intros Hn Ha. unfold read_number.
  rewrite <- (app_nil_r ds).
  rewrite (read_digits_run ds [] 0 0 Ha I).
  cbv iota beta.
  assert (L : 0 < Z.of_nat (List.length ds)).
  { destruct ds; [contradiction|]. cbn [List.length]. lia. }
  replace (0 <? 0 + Z.of_nat (List.length ds) + 0)
    with true by (symmetry; apply Z.ltb_lt; lia).
  cbn [read_exponent]. change (0 - 0) with 0. cbv iota beta zeta.
  change (0 <=? 0) with true. cbv iota.
  change (10 ^ 0) with 1. now rewrite Z.mul_1_r, app_nil_r.
Qed.

Lemma fixed2_of_digits (ds : str) (d1 d2 : N) :
  forallb is_digit (ds ++ [d1; d2]) = true ->
  fixed2 (dval (ds ++ [d1; d2]) 0) = unpadded ds ++ 46%N :: [d1; d2].
Proof.
  intros Ha. rewrite forallb_app in Ha. apply andb_true_iff in Ha.
  destruct Ha as [Hds H12]. cbn [forallb] in H12.
  rewrite andb_true_r in H12. apply andb_true_iff in H12.
  destruct H12 as [H1 H2].
  destruct (digit_val_digit d1 H1) as [V1 B1].
  destruct (digit_val_digit d2 H2) as [V2 B2].
  pose proof (dval_nonneg ds 0 ltac:(lia)) as Hn.
  rewrite dval_app. cbn [dval fold_left].
  set (A := dval ds 0) in *.
  set (r := 10 * Z.of_N (digit_val d1) + Z.of_N (digit_val d2)).
  assert (Hr : 0 <= r < 100) by (unfold r; lia).
  replace (10 * (10 * A + Z.of_N (digit_val d1)) + Z.of_N (digit_val d2))
    with (r + A * 100) by (unfold r; ring).
  unfold fixed2.
  rewrite Z.div_add, Z.mod_add by lia.
  rewrite Z.div_small, Z.mod_small by lia. cbn [Z.add].
  unfold A. rewrite (digits_dval ds Hds).
  do 2 f_equal.
  replace (Z.to_N r) with (10 * digit_val d1 + digit_val d2)%N by (unfold r; lia).
  destruct (N.eq_dec (digit_val d1) 0) as [E|E].
  - rewrite E. cbn [N.mul N.add]. rewrite digits_small by exact V2.
    rewrite B2. replace d1 with 48%N by lia. reflexivity.
  - rewrite digits_snoc by lia. rewrite digits_small by exact V1.
    now rewrite B1, B2.
Qed.

(** X5: an amount written as an optional minus sign, digits, a point
    and two digits, of at most [2 ^ 45], comes out with the same sign
    and the same digits, the leading zeros of the whole part dropped:
    as it went in when it has none. *)
Theorem two_decimal_amounts_are_kept (s : bool) (ds : str) (d1 d2 : N) :
  ds <> [] -> forallb is_digit (ds ++ [d1; d2]) = true ->
  dval (ds ++ [d1; d2]) 0 <= 100 * 2 ^ 45 ->
  format_amount (text (sign_text s ++ ds ++ lit "." ++ [d1; d2]))
  = sign_text s ++ unpadded ds ++ lit "." ++ [d1; d2]
  /\ (unpadded ds = ds ->
      format_amount (text (sign_text s ++ ds ++ lit "." ++ [d1; d2]))
      = sign_text s ++ ds ++ lit "." ++ [d1; d2]).
Proof.
  intros Hn Ha Hq.
  assert (G : format_amount (text (sign_text s ++ ds ++ lit "." ++ [d1; d2]))
              = sign_text s ++ unpadded ds ++ lit "." ++ [d1; d2]);
    [|split; [exact G|intros U; now rewrite G, U]].
  change (lit "." ++ [d1; d2]) with (46%N :: [d1; d2]).
  assert (Hds : forallb is_digit ds = true).
  { rewrite forallb_app in Ha. now apply andb_true_iff in Ha. }
  pose proof (dval_nonneg (ds ++ [d1; d2]) 0 ltac:(lia)) as H0.
  destruct ds as [|c t] eqn:E; [contradiction|]. rewrite <- E in *.
  assert (Hc : is_digit c = true).
  { rewrite E in Hds. cbn [forallb] in Hds. now apply andb_true_iff in Hds. }
  assert (Hb : forallb plain (ds ++ 46%N :: [d1; d2]) = true).
  { rewrite forallb_app in Ha. apply andb_true_iff in Ha. destruct Ha as [_ H12].
    rewrite forallb_app.
    rewrite (forallb_impl is_digit plain _ is_digit_plain Hds).
    cbn [forallb andb].
    exact (forallb_impl is_digit plain _ is_digit_plain H12). }
  rewrite (format_amount_number s _ c (t ++ 46%N :: [d1; d2]));
    [|rewrite E; reflexivity|exact Hc|exact Hb].
  rewrite (read_number_two_decimals ds d1 d2 Hn Ha).
  rewrite <- (fixed2_of_digits ds d1 d2 Ha).
  rewrite <- (fixed2_amount_kept s _ (conj H0 Hq)).
  destruct (fixed2_head (dval (ds ++ [d1; d2]) 0)) as [c' [t' [E' Hc']]].
  rewrite (format_amount_number s _ c' t' E' Hc' (fixed2_plain _)).
  now rewrite (read_number_fixed2 _ H0).
Qed.

Lemma two_decimal_amounts_are_kept_witness :
  format_amount (text (sign_text true ++ lit "007" ++ lit "." ++ lit "50"))
  = lit "-7.50".
Proof.
  apply (proj1 (@two_decimal_amounts_are_kept true (lit "007") 53%N 48%N
                  ltac:(discriminate) eq_refl
                  ltac:(vm_compute; discriminate))).
Defined.

(** X6: a whole number below [2 ^ 53], written with digits only after
    an optional minus sign, comes out with the same sign and digits,
    its leading zeros dropped, and [.00] after them. *)
Theorem whole_amounts_get_two_zeros (s : bool) (ds : str) :
  ds <> [] -> forallb is_digit ds = true -> dval ds 0 < 2 ^ 53 ->
  format_amount (text (sign_text s ++ ds))
  = sign_text s ++ unpadded ds ++ lit ".00".
Proof.
  intros Hn Ha Hq.
  pose proof (dval_nonneg ds 0 ltac:(lia)) as H0.
  destruct ds as [|c t] eqn:E; [contradiction|]. rewrite <- E in *.
  assert (Hc : is_digit c = true).
  { rewrite E in Ha. cbn [forallb] in Ha. now apply andb_true_iff in Ha. }
  rewrite (format_amount_number s _ c t E Hc
             (forallb_impl is_digit plain _ is_digit_plain Ha)).
  rewrite (read_number_whole ds Hn Ha).
  rewrite <- (digits_dval ds Ha).
  rewrite <- (digits_amount_two_zeros s (Z.to_N (dval ds 0)))
    by (change (2 ^ 53)%N with (Z.to_N (2 ^ 53)); lia).
  destruct (digits_head (Z.to_N (dval ds 0))) as [c' [t' [E' Hc']]].
  rewrite (format_amount_number s _ c' t' E' Hc'
             (forallb_impl is_digit plain _ is_digit_plain (digits_all _))).
  rewrite read_number_digits. now rewrite Z2N.id.
Qed.

Lemma whole_amounts_get_two_zeros_witness :
  format_amount (text (sign_text true ++ lit "1200")) = lit "-1200.00".
Proof.
  apply (@whole_amounts_get_two_zeros true (lit "1200")
           ltac:(discriminate) eq_refl).
  reflexivity.
Defined.

(** ** The type of a row, read off its balance *)

Lemma of_ratio_hundredths_sign (s : bool) (q : Z) :
  0 < q -> ge0 (of_ratio s q 100) = negb s.
Proof.
  intros Hq.
  assert (HS : 0 < 2 ^ 1074) by (apply pow2_pos; lia).
  destruct (of_ratio_cases s q 100 Hq ltac:(lia))
    as [[_ HY]|[[-> _]|[m' [e' [-> _]]]]].
  - exfalso. cbv zeta in HY.
    destruct (rounded_mantissa_bounds q 100 Hq ltac:(lia)) as [_ Q2].
    pose proof (rounded_exponent_ge q 100) as He.
    assert (0 < 2 ^ (rounded_exponent q 100 + 1074)) by (apply pow2_pos; lia).
    assert (M0 : rounded_mantissa q 100 = 0) by nia.
    destruct (Z.eq_dec (rounded_exponent q 100) (-1074)) as [E|E].
    + unfold rounded_mantissa in M0. rewrite E in M0.
      change (100 * 2 ^ (-1074 + 1074)) with 100 in M0.
      pose proof (round_half_even_bounds (q * 2 ^ 1074) 100 1 (q * 2 ^ 1074)
                    ltac:(lia) ltac:(nia) ltac:(nia)). lia.
    + assert (2 ^ 52 <= rounded_mantissa q 100) by (apply Q2; lia).
      rewrite M0 in *. assert (0 < 2 ^ 52) by reflexivity. lia.
  - now destruct s.
  - now destruct s.
Qed.

Lemma fixed2_inj0 (q : Z) : 0 <= q -> fixed2 q = fixed2 0 -> q = 0.
Proof.
  intros Hq E. pose proof (read_number_fixed2 q Hq) as H.
  rewrite E, (read_number_fixed2 0 ltac:(lia)) in H. now inversion H.
Qed.

(** X7: the Transaction Type can be read off the Document Balance: it
    is ["CRD"] exactly when the balance begins with a minus sign and is
    not ["-0.00"] (the balance ["nan"] set aside). *)
Theorem transaction_type_from_balance (val : cell) :
  format_amount val <> lit "nan" ->
  determine_transaction_type (format_amount val) = lit "CRD"
  <-> ((exists t, format_amount val = 45%N :: t)
       /\ format_amount val <> lit "-0.00").
Proof.
  intros Hn.
  destruct (format_amount_cases val) as [[H _]|[x [Hp Hf]]].
  { rewrite H. split; [discriminate|]. intros [[t E] _]. discriminate. }
  rewrite Hf in *. destruct x as [s|s| |s m e].
  - destruct s; (split; [discriminate|]).
    + intros [_ H]. now contradiction H.
    + intros [[t E] _]. discriminate.
  - destruct s; split; try discriminate.
    + intros _. split; [now eexists|discriminate].
    + reflexivity.
    + intros [[t E] _]. discriminate.
  - now contradiction Hn.
  - apply parse_binary64 in Hp.
    pose proof (hundredths_nonneg m e ltac:(destruct Hp; lia)) as Hq.
    cbn [format_2f] in *. set (q := hundredths m e) in *.
    unfold determine_transaction_type. rewrite (parse_formatted s q Hq).
    destruct (fixed2_head q) as [c [t [E Hc]]].
    destruct (Z.eq_dec q 0) as [Z0|NZ].
    + rewrite Z0. change (of_ratio s 0 100) with (S754_zero s).
      change (ge0 (S754_zero s)) with true. cbv iota.
      split; [discriminate|]. intros [[t' E'] H].
      destruct s; [now contradiction H|discriminate].
    + rewrite of_ratio_hundredths_sign by lia.
      destruct s; cbn [negb]; cbv iota; split.
      * intros _. split; [now eexists|].
        cbn [sign_text]. intros H.
        change (lit "-0.00") with (lit "-" ++ fixed2 0) in H.
        apply app_inv_head in H. now apply fixed2_inj0 in H.
      * reflexivity.
      * discriminate.
      * intros [[t' E'] _]. cbn [sign_text app] in E'. rewrite E in E'.
        inversion E'; subst. discriminate.
Qed.

Lemma transaction_type_from_balance_witness :
  determine_transaction_type (format_amount (text (lit "-$3.5"))) = lit "CRD"
  <-> ((exists t, format_amount (text (lit "-$3.5")) = 45%N :: t)
       /\ format_amount (text (lit "-$3.5")) <> lit "-0.00").
Proof.
  apply (@transaction_type_from_balance (text (lit "-$3.5"))).
  vm_compute. discriminate.
Defined.

End ExactAmounts.

(** ** The outcomes of [process_file] *)

Lemma read_file_error
  (read_csv read_excel : file -> DataFrame) (f : file) (e : error) :
  read_file read_csv read_excel f = Err e -> e = UnsupportedFormat.
Proof.
  unfold read_file.
  destruct (endswith (lower (name f)) (lit ".csv")); [discriminate|].
  destruct (endswith (lower (name f)) (lit ".xls")
            || endswith (lower (name f)) (lit ".xlsx")); [discriminate|].
  intros H. now inversion H.
Qed.

(** X8: the outcomes of [process_file], in the order the checks are
    made: the extension, then the empty table, then the missing
    columns, which are all the unmatched keys; a table is returned only
    when every key is matched, and no lookup ever fails. *)
Theorem process_file_outcomes
  (to_datetime : cell -> option datetime) (read_csv read_excel : file -> DataFrame)
  (f : file) :
  (forall df, read_file read_csv read_excel f = Ok df -> well_formed df) ->
  match process_file to_datetime read_csv read_excel f with
  | Err UnsupportedFormat =>
      read_file read_csv read_excel f = Err UnsupportedFormat
  | Err EmptyInput =>
      exists df, read_file read_csv read_excel f = Ok df /\ empty df = true
  | Err (MissingColumns l) =>
      exists df, read_file read_csv read_excel f = Ok df /\ empty df = false
                 /\ l = unresolved (labels df) /\ l <> []
  | Err (KeyError _) => False
  | Ok out =>
      exists df, read_file read_csv read_excel f = Ok df /\ empty df = false
                 /\ unresolved (labels df) = []
  end.
Proof.
  intros Hwf.
  destruct (read_file read_csv read_excel f) as [df|e] eqn:Hr.
  - specialize (Hwf df eq_refl).
    destruct (empty df) eqn:He.
    + unfold process_file. rewrite Hr. cbn [bind]. rewrite He. eauto.
    + destruct (unresolved (labels df)) as [|k l] eqn:Hu.
      * destruct (process_file_ok to_datetime read_csv read_excel f df Hr He Hwf Hu)
          as [c [o [r [d [a H]]]]].
        cbv zeta in H. destruct H as [_ [_ [_ [_ [_ Hp]]]]].
        rewrite Hp. eauto.
      * unfold process_file. rewrite Hr. cbn [bind]. rewrite He.
        rewrite missing_find_columns, Hu.
        exists df. repeat split; auto. discriminate.
  - pose proof (read_file_error _ _ _ _ Hr) as ->.
    unfold process_file. rewrite Hr. reflexivity.
Qed.

Lemma process_file_outcomes_witness :
  exists df, read_file (fun _ => scenario_table) (fun _ => scenario_table)
                       scenario_file = Ok df
             /\ empty df = false /\ unresolved (labels df) = [].
Proof.
  exact (@process_file_outcomes (fun _ => None) (fun _ => scenario_table)
           (fun _ => scenario_table) scenario_file
           (fun df H => match H in (_ = r) return
                              match r with Ok d => well_formed d | Err _ => True end
                        with eq_refl => scenario_table_well_formed end)).
Defined.

(** ** Columns that are not asked for *)

Lemma find_columns_extra (la lb : list str) (h : str) :
  unmatched h -> find_columns (la ++ h :: lb) = find_columns (la ++ lb).
Proof.
  intros Hh. rewrite !find_columns_eq. apply map_ext_in.
  intros [k a] Hin. f_equal.
  rewrite !rev_app_distr. cbn [rev]. rewrite <- app_assoc. cbn [app].
  induction (rev lb) as [|x l IH]; cbn [app find].
  - now rewrite (Hh k a Hin).
  - destruct (matches a x); [reflexivity|exact IH].
Qed.

Lemma unresolved_extra (la lb : list str) (h : str) :
  unmatched h -> unresolved (la ++ h :: lb) = unresolved (la ++ lb).
Proof.
  intros Hh. rewrite <- !missing_find_columns. now rewrite find_columns_extra.
Qed.

Lemma lookup_extra {A} (l h : str) (v : A) (xa xb : list (str * A)) :
  l <> h -> lookup l (xa ++ (h, v) :: xb) = lookup l (xa ++ xb).
Proof.
  intros Hl. induction xa as [|[k w] xa IH]; cbn [app lookup].
  - assert (E : eqb h l = false) by (apply eqb_neq; congruence).
    now rewrite E.
  - now rewrite IH.
Qed.

Lemma heads_app (xa xb : list (str * list cell)) :
  heads (xa ++ xb) = heads xa ++ heads xb.
Proof. unfold heads. apply map_app. Qed.

Lemma tails_app (xa xb : list (str * list cell)) :
  tails (xa ++ xb) = tails xa ++ tails xb.
Proof. unfold tails. apply map_app. Qed.

(** Row by row, the extra column changes no other field. *)
Lemma rows_of_extra (idx : list N) (h : str) (vs : list cell)
      (xa xb : list (str * list cell)) :
  Forall2 (fun r' r => forall l, l <> h -> field r' l = field r l)
          (rows_of idx (xa ++ (h, vs) :: xb)) (rows_of idx (xa ++ xb)).
Proof.
  revert vs xa xb. induction idx as [|i idx IH]; intros vs xa xb; cbn [rows_of].
  - constructor.
  - constructor.
    + intros l Hl. unfold field. rewrite !heads_app. cbn [heads List.map].
      fold (heads xb). now rewrite lookup_extra.
    + rewrite !tails_app. cbn [tails List.map]. fold (tails xb). apply IH.
Qed.

Lemma map_filter_Forall2 {A B} (R : A -> A -> Prop) (p : A -> bool) (g : A -> B)
      (l' l : list A) :
  Forall2 R l' l ->
  (forall x' x, R x' x -> p x' = p x /\ g x' = g x) ->
  List.map g (filter p l') = List.map g (filter p l).
Proof.
  intros H HR. induction H as [|x' x l' l Hx _ IH]; [reflexivity|].
  cbn [filter]. destruct (HR x' x Hx) as [-> Hg].
  destruct (p x); cbn [List.map]; now rewrite ?Hg, IH.
Qed.

Lemma filter_length_Forall2 {A} (R : A -> A -> Prop) (p : A -> bool)
      (l' l : list A) :
  Forall2 R l' l -> (forall x' x, R x' x -> p x' = p x) ->
  List.length (filter p l') = List.length (filter p l).
Proof.
  intros H HR.
  rewrite <- (length_map (fun _ => tt) (filter p l')).
  rewrite <- (length_map (fun _ => tt) (filter p l)).
  f_equal. apply (map_filter_Forall2 R); [exact H|].
  intros x' x Hx. split; [now apply HR|reflexivity].
Qed.

(** With the rows handing over the cells of the columns as they are, a
    column whose header matches none of the five aliases changes
    nothing. *)
Lemma unmatched_column_same_cells
  (to_datetime : cell -> option datetime)
  (read_csv read_excel read_csv' read_excel' : file -> DataFrame)
  (f : file) (idx : list N) (xa xb : list (str * list cell))
  (h : str) (vs : list cell) :
  let df := MkFrame idx (xa ++ xb) in
  let df' := MkFrame idx (xa ++ (h, vs) :: xb) in
  read_file read_csv read_excel f = Ok df ->
  read_file read_csv' read_excel' f = Ok df' ->
  empty df = false -> well_formed df' ->
  unmatched h ->
  process_file to_datetime read_csv' read_excel' f
  = process_file to_datetime read_csv read_excel f.
Proof.
  intros df df' Hr Hr' He Hwf' Hh.
  assert (Hwf : well_formed df).
  { unfold well_formed in *. cbn [columns index df df'] in *.
    apply Forall_app in Hwf'. destruct Hwf' as [Ha Hb].
    inversion Hb; subst. apply Forall_app. auto. }
  assert (He' : empty df' = false).
  { unfold empty in *. cbn [index columns df df'] in *.
    destruct idx; [discriminate|]. now destruct xa. }
  assert (Hl : labels df' = List.map fst xa ++ h :: List.map fst xb).
  { unfold labels. cbn [columns df']. now rewrite map_app. }
  assert (Hl0 : labels df = List.map fst xa ++ List.map fst xb).
  { unfold labels. cbn [columns df]. now rewrite map_app. }
  assert (Hfc : find_columns (labels df') = find_columns (labels df)).
  { rewrite Hl, Hl0. now apply find_columns_extra. }
  assert (Hun : unresolved (labels df') = unresolved (labels df)).
  { rewrite Hl, Hl0. now apply unresolved_extra. }
  destruct (unresolved (labels df)) as [|k l] eqn:Hu.
  - destruct (process_file_ok to_datetime read_csv read_excel f df Hr He Hwf Hu)
      as [c [o [r [d [a H]]]]].
    cbv zeta in H. destruct H as [Hc [Ho [Hro [Hd [Ha ->]]]]].
    destruct (process_file_ok to_datetime read_csv' read_excel' f df' Hr' He' Hwf' Hun)
      as [c' [o' [r' [d' [a' H]]]]].
    cbv zeta in H. rewrite Hfc in H. destruct H as [Hc' [Ho' [Hro' [Hd' [Ha' ->]]]]].
    assert (c' = c) by congruence. assert (o' = o) by congruence.
    assert (r' = r) by congruence. assert (d' = d) by congruence.
    assert (a' = a) by congruence. subst c' o' r' d' a'.
    assert (Hne : forall key alias x,
               In (key, alias) aliases ->
               required (find_columns (labels df)) key = Ok x -> x <> h).
    { intros key alias x Hk Hx.
      destruct (resolved_columns (labels df) key alias Hu Hk) as [y [Hy [_ Hm]]].
      assert (x = y) by congruence. subst y. intros ->.
      rewrite (Hh key alias Hk) in Hm. discriminate. }
    assert (Nc : c <> h) by (apply (Hne (lit "customer") (lit "customer")); [simpl; tauto|exact Hc]).
    assert (No : o <> h) by (apply (Hne (lit "order_number") (lit "order nbr.")); [simpl; tauto|exact Ho]).
    assert (Nr : r <> h) by (apply (Hne (lit "reference") (lit "reference nbr.")); [simpl; tauto|exact Hro]).
    assert (Nd : d <> h) by (apply (Hne (lit "date") (lit "date")); [simpl; tauto|exact Hd]).
    assert (Na : a <> h) by (apply (Hne (lit "amount") (lit "amount")); [simpl; tauto|exact Ha]).
    pose proof (rows_of_extra idx h vs xa xb) as HR.
    change (rows_of idx (xa ++ (h, vs) :: xb)) with (rows df') in HR.
    change (rows_of idx (xa ++ xb)) with (rows df) in HR.
    assert (Hk : forall x' x, (forall l, l <> h -> field x' l = field x l) ->
                              kept c x' = kept c x).
    { intros x' x Hx. unfold kept. now rewrite (Hx c Nc). }
    assert (Hg : forall g : row -> cell,
               (forall x' x, (forall l, l <> h -> field x' l = field x l) ->
                             g x' = g x) ->
               List.map g (filter (kept c) (rows df'))
               = List.map g (filter (kept c) (rows df))).
    { intros g Hgx. apply (map_filter_Forall2 _ _ _ _ _ HR).
      intros x' x Hx. split; [now apply Hk|now apply Hgx]. }
    rewrite (filter_length_Forall2 _ _ _ _ HR Hk).
    unfold output_fields. cbn [List.map].
    rewrite (Hg (fun rw => field rw c))
      by (intros x' x Hx; now rewrite (Hx c Nc)).
    rewrite (Hg (fun rw => text (determine_transaction_type
                                   (format_amount (field rw a)))))
      by (intros x' x Hx; now rewrite (Hx a Na)).
    rewrite (Hg (fun rw => text (lit "O_" ++ shown (field rw o) ++ lit "_"
                                 ++ shown (field rw r))))
      by (intros x' x Hx; now rewrite (Hx o No), (Hx r Nr)).
    rewrite (Hg (fun rw => text (format_date to_datetime (field rw d))))
      by (intros x' x Hx; now rewrite (Hx d Nd)).
    rewrite (Hg (fun rw => text (format_amount (field rw a))))
      by (intros x' x Hx; now rewrite (Hx a Na)).
    reflexivity.
  - unfold process_file. rewrite Hr, Hr'. cbn [bind]. rewrite He, He'.
    now rewrite !missing_find_columns, Hun, Hu.
Qed.

(** X9: a column whose header matches none of the five aliases changes
    neither the outcome of [process_file] nor, when a table comes out,
    its index, its labels or any of its columns other than the Document
    Number.  (The parts of a Document Number come out of the rows, and
    pandas may convert the cells of a row when a column is added.) *)
Theorem unmatched_column_is_ignored
  (to_datetime : cell -> option datetime)
  (read_csv read_excel read_csv' read_excel' : file -> DataFrame)
  (f : file) (idx : list N) (xa xb : list (str * list cell))
  (h : str) (vs : list cell) :
  let df := MkFrame idx (xa ++ xb) in
  let df' := MkFrame idx (xa ++ (h, vs) :: xb) in
  read_file read_csv read_excel f = Ok df ->
  read_file read_csv' read_excel' f = Ok df' ->
  empty df = false -> well_formed df' ->
  unmatched h ->
  match process_file to_datetime read_csv' read_excel' f,
        process_file to_datetime read_csv read_excel f with
  | Ok out', Ok out =>
      index out' = index out /\ labels out' = labels out
      /\ (forall l, l <> lit "Document Number" ->
                    lookup l (columns out') = lookup l (columns out))
  | Err e', Err e => e' = e
  | _, _ => False
  end.
Proof.
  intros df df' Hr Hr' He Hwf' Hh.
  rewrite (unmatched_column_same_cells to_datetime read_csv read_excel
             read_csv' read_excel' f idx xa xb h vs Hr Hr' He Hwf' Hh).
  destruct (process_file to_datetime read_csv read_excel f); auto.
Qed.

Lemma unmatched_column_is_ignored_witness :
  match process_file (fun _ => None) (fun _ => scenario_with_notes)
                     (fun _ => scenario_with_notes) scenario_file,
        process_file (fun _ => None) (fun _ => scenario_table)
                     (fun _ => scenario_table) scenario_file with
  | Ok out', Ok out =>
      index out' = index out /\ labels out' = labels out
      /\ (forall l, l <> lit "Document Number" ->
                    lookup l (columns out') = lookup l (columns out))
  | Err e', Err e => e' = e
  | _, _ => False
  end.
Proof.
  apply (@unmatched_column_is_ignored
           (fun _ => None) (fun _ => scenario_table) (fun _ => scenario_table)
           (fun _ => scenario_with_notes) (fun _ => scenario_with_notes)
           scenario_file (index scenario_table)
           (firstn 2 (columns scenario_table)) (skipn 2 (columns scenario_table))
           (lit "Notes") [text (lit "a"); NaN; text (lit "c")]).
  - reflexivity.
  - reflexivity.
  - reflexivity.
  - repeat constructor.
  - intros key alias H. simpl in H.
    repeat (destruct H as [H|H]; [inversion H; subst; reflexivity|]).
    contradiction.
Defined.

(** ** The table that comes out *)

Lemma bind_ok {A B} (r : result A) (k : A -> result B) (b : B) :
  bind r k = Ok b -> exists a, r = Ok a /\ k a = Ok b.
Proof.
  destruct r as [a|e]; [|discriminate]. intros H. now exists a.
Qed.

Lemma project_labels (df out : DataFrame) (names : list str) :
  project df names = Ok out -> labels out = names.
Proof.
  unfold project. intros H. apply bind_ok in H. destruct H as [cols [Hs H]].
  inversion H; subst out. unfold labels. cbn [columns]. clear H.
  revert cols Hs. induction names as [|h names IH]; intros cols Hs.
  - cbn in Hs. now inversion Hs.
  - cbn [List.map sequence] in Hs.
    apply bind_ok in Hs. destruct Hs as [x [Hx Hs]].
    apply bind_ok in Hs. destruct Hs as [t [Ht Hs]].
    inversion Hs; subst cols. cbn [List.map]. f_equal.
    + apply bind_ok in Hx. destruct Hx as [s [_ Hx]]. now inversion Hx.
    + now apply IH.
Qed.

Lemma process_file_labels
  (to_datetime : cell -> option datetime) (read_csv read_excel : file -> DataFrame)
  (f : file) (out : DataFrame) :
  process_file to_datetime read_csv read_excel f = Ok out ->
  labels out = output_columns.
Proof.
  unfold process_file. intros H.
  apply bind_ok in H. destruct H as [df [_ H]].
  destruct (empty df); [discriminate|].
  destruct (missing (find_columns (labels df))); [|discriminate].
  unfold transform in H.
  do 9 (apply bind_ok in H; destruct H as [? [_ H]]).
  now apply project_labels in H.
Qed.

(** X10: what [process_file] returns is not accepted by [process_file]:
    read back, the table stops it with all five columns missing (or as
    empty, when no row was kept). *)
Theorem output_is_not_an_input
  (to_datetime : cell -> option datetime)
  (read_csv read_excel read_csv' read_excel' : file -> DataFrame)
  (f f' : file) (out : DataFrame) :
  process_file to_datetime read_csv read_excel f = Ok out ->
  read_file read_csv' read_excel' f' = Ok out ->
  process_file to_datetime read_csv' read_excel' f'
  = if empty out then Err EmptyInput
    else Err (MissingColumns (List.map fst required_cols_init)).
Proof.
  intros Hp Hr. apply process_file_labels in Hp.
  unfold process_file. rewrite Hr. cbn [bind].
  destruct (empty out); [reflexivity|].
  rewrite Hp. reflexivity.
Qed.

Lemma output_is_not_an_input_witness :
  process_file (fun _ => None) (fun _ => scenario_result)
               (fun _ => scenario_result) scenario_file
  = Err (MissingColumns (List.map fst required_cols_init)).
Proof.
  apply (@output_is_not_an_input (fun _ => None)
           (fun _ => scenario_table) (fun _ => scenario_table)
           (fun _ => scenario_result) (fun _ => scenario_result)
           scenario_file scenario_file scenario_result).
  - exact scenario_output.
  - reflexivity.
Defined.

Lemma determine_transaction_type_values (balance_str : str) :
  determine_transaction_type balance_str = lit "INV"
  \/ determine_transaction_type balance_str = lit "CRD".
Proof.
  unfold determine_transaction_type.
  destruct (parse balance_str) as [x|]; [|now left].
  destruct (ge0 x); [now left|now right].
Qed.

(** X11: the table that comes out is well formed, each of its rows has
    the five output labels, no cell of it is missing, and every
    Transaction Type is ["INV"] or ["CRD"]. *)
Theorem output_rows_are_filled
  (to_datetime : cell -> option datetime) (read_csv read_excel : file -> DataFrame)
  (f : file) (df : DataFrame) :
  read_file read_csv read_excel f = Ok df ->
  empty df = false ->
  well_formed df ->
  unresolved (labels df) = [] ->
  exists out,
    process_file to_datetime read_csv read_excel f = Ok out
    /\ well_formed out
    /\ Forall (fun rw =>
                 List.map fst rw = output_columns
                 /\ Forall (fun e => isna (snd e) = false) rw
                 /\ (field rw (lit "Transaction Type") = text (lit "INV")
                     \/ field rw (lit "Transaction Type") = text (lit "CRD")))
              (rows out).
Proof.
  intros Hread Hne Hwf Hu.
  destruct (process_file_ok to_datetime read_csv read_excel f df Hread Hne Hwf Hu)
    as [c [o [r [d [a H]]]]].
  cbv zeta in H. destruct H as [_ [_ [_ [_ [_ Hp]]]]].
  eexists. split; [exact Hp|]. split.
  - unfold well_formed. cbn [columns index output_fields List.map].
    repeat constructor; now rewrite !length_map, length_seq.
  - rewrite rows_output by (now rewrite length_map, length_seq).
    apply Forall_forall. intros rw Hin.
    apply in_map_iff in Hin. destruct Hin as [src [<- Hin]].
    apply filter_In in Hin. destruct Hin as [_ Hk].
    unfold kept in Hk. apply andb_true_iff in Hk. destruct Hk as [Hn _].
    unfold notna in Hn. apply negb_true_iff in Hn.
    split; [reflexivity|]. split.
    + cbn [output_fields List.map]. repeat constructor. exact Hn.
    + change (field (List.map (fun '(l, g) => (l, g src))
                              (output_fields to_datetime c o r d a))
                    (lit "Transaction Type"))
        with (text (determine_transaction_type (format_amount (field src a)))).
      destruct (determine_transaction_type_values (format_amount (field src a)))
        as [-> | ->]; auto.
Qed.

Lemma output_rows_are_filled_witness :
  exists out,
    process_file (fun _ => None) (fun _ => scenario_table)
                 (fun _ => scenario_table) scenario_file = Ok out
    /\ well_formed out
    /\ Forall (fun rw =>
                 List.map fst rw = output_columns
                 /\ Forall (fun e => isna (snd e) = false) rw
                 /\ (field rw (lit "Transaction Type") = text (lit "INV")
                     \/ field rw (lit "Transaction Type") = text (lit "CRD")))
              (rows out).
Proof.
  apply (@output_rows_are_filled
           (fun _ => None) (fun _ => scenario_table) (fun _ => scenario_table)
           scenario_file scenario_table).
  - reflexivity.
  - reflexivity.
  - repeat constructor.
  - reflexivity.
Defined.

(** X12: when no row has a customer the result is the table of the five
    columns without rows, not an error. *)
Theorem no_customer_gives_an_empty_table
  (to_datetime : cell -> option datetime) (read_csv read_excel : file -> DataFrame)
  (f : file) (df : DataFrame) :
  read_file read_csv read_excel f = Ok df ->
  empty df = false ->
  well_formed df ->
  unresolved (labels df) = [] ->
  exists c,
    required (find_columns (labels df)) (lit "customer") = Ok c
    /\ ((forall rw, In rw (rows df) ->
                    isna (field rw c) = true \/ strip (to_str (field rw c)) = []) ->
        process_file to_datetime read_csv read_excel f
        = Ok (MkFrame [] (List.map (fun l => (l, [])) output_columns))).
Proof.
  intros Hread Hne Hwf Hu.
  destruct (process_file_ok to_datetime read_csv read_excel f df Hread Hne Hwf Hu)
    as [c [o [r [d [a H]]]]].
  cbv zeta in H. destruct H as [Hc [_ [_ [_ [_ Hp]]]]].
  exists c. split; [exact Hc|]. intros Hall. rewrite Hp.
  assert (E : filter (kept c) (rows df) = []).
  { assert (G : forall l, (forall rw, In rw l -> kept c rw = false) ->
                          filter (kept c) l = []).
    { induction l as [|x l IH]; intros Hl; [reflexivity|].
      cbn [filter]. rewrite (Hl x (or_introl eq_refl)).
      apply IH. intros rw Hin. apply Hl. now right. }
    apply G. intros rw Hin. unfold kept, notna.
    destruct (Hall rw Hin) as [-> | ->]; [reflexivity|].
    cbn [eqb negb]. apply andb_false_r. }
  rewrite E. reflexivity.
Qed.

Lemma no_customer_gives_an_empty_table_witness :
  process_file (fun _ => None) (fun _ => blank_customers)
               (fun _ => blank_customers) scenario_file
  = Ok (MkFrame [] (List.map (fun l => (l, [])) output_columns)).
Proof.
  destruct (@no_customer_gives_an_empty_table
              (fun _ => None) (fun _ => blank_customers) (fun _ => blank_customers)
              scenario_file blank_customers eq_refl eq_refl
              ltac:(repeat constructor) eq_refl) as [c [Hc H]].
  apply H. vm_compute in Hc. inversion Hc; subst c.
  intros rw Hin. vm_compute in Hin.
  destruct Hin as [<-|[<-|[]]]; [left|right]; reflexivity.
Defined.

(** ** Dates in the three usual layouts *)

Section DateLayouts.

Local Open Scope N_scope.

Lemma starts_hd {A} (l : list A) (x : A) : hd_error l = Some x -> starts l x.
Proof.
  destruct l as [|y l]; [discriminate|]. intros H. inversion H. now exists l.
Qed.

Lemma starts_flat_map {A B} (k : A -> list B) (l : list A) (x : A) (y : B) :
  starts l x -> starts (k x) y -> starts (flat_map k l) y.
Proof.
  intros [more ->] [more' E]. cbn [flat_map]. rewrite E.
  now exists (more' ++ flat_map k more).
Qed.

Lemma starts_map {A B} (g : A -> B) (l : list A) (x : A) :
  starts l x -> starts (List.map g l) (g x).
Proof.
  intros [more ->]. now exists (List.map g more).
Qed.

Lemma run_format_numeric (d : directive) (m : matcher N) (ds : list directive)
      (t : datetime) (s r : str) (v : N) (res : datetime * str) :
  numeric d = Some m ->
  starts (m s) (v, r) ->
  starts (run_format ds (set_field d v t) r) res ->
  starts (run_format (d :: ds) t s) res.
Proof.
  intros Hd Hm Hr. cbn [run_format].
  apply (starts_flat_map _ _ (set_field d v t, r)); [|exact Hr].
  destruct d; inversion Hd; subst m; cbn [run_directive];
    apply (starts_map (fun '(v, r) => (set_field _ v t, r)) _ (v, r) Hm).
Qed.

Lemma run_format_literal (c : N) (ds : list directive) (t : datetime)
      (r : str) (res : datetime * str) :
  starts (run_format ds t r) res ->
  starts (run_format (Dlit c :: ds) t (c :: r)) res.
Proof.
  intros Hr. cbn [run_format run_directive re_lit]. rewrite N.eqb_refl.
  cbn [List.map flat_map]. rewrite app_nil_r. exact Hr.
Qed.

Lemma run_format_end (t : datetime) (s : str) : starts (run_format [] t s) (t, s).
Proof. now exists []. Qed.


Lemma in_range (lo len : nat) (n : N) :
  (N.of_nat lo <= n < N.of_nat (lo + len)) ->
  In n (List.map N.of_nat (seq lo len)).
Proof.
  intros H. apply in_map_iff. exists (N.to_nat n). split; [lia|].
  apply in_seq. lia.
Qed.

Ltac each_case H tac :=
  cbv [seq List.map] in H; simpl N.of_nat in H;
  repeat (destruct H as [H|H]; [subst; tac|]); try contradiction.

Lemma re_d_padded (d : N) (rest : str) :
  1 <= d <= 31 -> starts (re_d (zfill 2 (digits d) ++ rest)) (d, rest).
Proof.
  intros H. assert (Hin : In d (List.map N.of_nat (seq 1 31)))
    by (apply in_range; simpl; lia).
  each_case Hin ltac:(apply starts_hd; vm_compute; reflexivity).
Qed.

Lemma re_m_padded (m : N) (rest : str) :
  1 <= m <= 12 -> starts (re_m (zfill 2 (digits m) ++ rest)) (m, rest).
Proof.
  intros H. assert (Hin : In m (List.map N.of_nat (seq 1 12)))
    by (apply in_range; simpl; lia).
  each_case Hin ltac:(apply starts_hd; vm_compute; reflexivity).
Qed.

Lemma four_digits (y : N) :
  y <= 9999 ->
  exists a b c d, zfill 4 (digits y) = [a; b; c; d]
                  /\ forallb is_digit [a; b; c; d] = true
                  /\ 10 * (10 * (10 * (10 * 0 + digit_val a) + digit_val b)
                           + digit_val c) + digit_val d = y.
Proof.
  intros Hy.
  destruct (zfill_digits 3 y) as [L A];
    [change (10 ^ N.of_nat 4) with 10000; lia|].
  pose proof (dval_zfill 4 y 0) as V. rewrite L in V.
  destruct (zfill 4 (digits y)) as [|a [|b [|c [|d [|? ?]]]]]; try discriminate.
  exists a, b, c, d. split; [reflexivity|]. split; [exact A|].
  cbn [dval fold_left] in V. lia.
Qed.

Lemma re_Y_padded (y : N) (rest : str) :
  y <= 9999 -> starts (re_Y (zfill 4 (digits y) ++ rest)) (y, rest).
Proof.
  intros Hy. destruct (four_digits y Hy) as [a [b [c [d [E [A V]]]]]].
  rewrite E. cbn [forallb] in A.
  repeat match goal with
         | H : _ && _ = true |- _ => apply andb_true_iff in H; destruct H
         end.
  apply starts_hd. unfold re_Y, alts. cbn [flat_map app alt].
  change (d09 a) with (is_digit a). change (d09 b) with (is_digit b).
  change (d09 c) with (is_digit c). change (d09 d) with (is_digit d).
  repeat match goal with
         | H : is_digit _ = true |- _ => rewrite H; clear H
         end.
  cbn [app hd_error]. now rewrite V.
Qed.

Variable to_datetime : cell -> option datetime.

Lemma valid_ranges (y m d : N) :
  valid (Datetime y m d 0 0 0) = true ->
  1 <= d <= 31 /\ 1 <= m <= 12 /\ 1 <= y <= 9999.
Proof.
  unfold valid. cbn [year month day hour minute second].
  rewrite !andb_true_iff, !N.leb_le.
  intros [[[[[[[[Hy1 Hy2] Hm1] Hm2] Hd1] Hd2] _] _] _].
  assert (d <= 31).
  { unfold days_in_month in Hd2.
    destruct (m =? 2); [destruct (is_leap y); lia|].
    destruct ((m =? 4) || (m =? 6) || (m =? 9) || (m =? 11)); lia. }
  lia.
Qed.

Lemma padded_head (w : nat) (n : N) (rest : str) :
  exists c t, zfill (S w) (digits n) ++ rest = c :: t /\ isspace c = false.
Proof.
  pose proof (zfill_all (S w) (digits n) (digits_all n)) as A.
  assert (L : zfill (S w) (digits n) <> []).
  { unfold zfill. pose proof (digits_not_nil n).
    destruct (repeat 48 (S w - List.length (digits n))); [exact H|discriminate]. }
  destruct (zfill (S w) (digits n)) as [|c t]; [contradiction|].
  cbn [forallb] in A. apply andb_true_iff in A. destruct A as [Hc _].
  exists c, (t ++ rest). split; [reflexivity|].
  apply plain_not_space. now apply is_digit_plain.
Qed.

Lemma format_date_by_format (s : str) (before after : list str) (fmt : str)
      (t : datetime) :
  date_formats = before ++ fmt :: after ->
  (exists c r, s = c :: r /\ isspace c = false) ->
  Forall (fun f => strptime s f = None) before ->
  strptime s fmt = Some t ->
  format_date to_datetime (text s) = strftime t.
Proof.
  intros Hd [c [r [E Hc]]] Hb Hf. unfold format_date. cbn [isna text to_str orb].
  assert (Hs : eqb (strip s) [] = false).
  { apply eqb_neq. rewrite E. now apply strip_cons_nonspace. }
  rewrite Hs, Hd. now rewrite (try_formats_first _ _ after _ _ Hb Hf).
Qed.

Lemma strptime_of_run (s fmt : str) (ds : list directive) (t : datetime) :
  parse_format false fmt = Some ds ->
  starts (run_format ds epoch s) (t, []) ->
  valid t = true ->
  strptime s fmt = Some t.
Proof.
  intros Hp [more Hr] Hv. unfold strptime. now rewrite Hp, Hr, Hv.
Qed.

(** The text with the year on four digits is the rendering itself from
    the year 1000 on. *)
Lemma day_first_text_rendering (y m d : N) :
  1000 <= y -> day_first_text y m d = day_month_year d m y.
Proof.
  intros Hy. unfold day_first_text, day_month_year.
  rewrite (zfill_long 4 (digits y)); [reflexivity|].
  apply (digits_length_ge y 3). exact Hy.
Qed.

(** X13: a valid date written [DD/MM/YYYY] is read day first, by the
    first format, and comes out with its day and its month on two
    digits and its year without leading zeros: as it went in from the
    year 1000 on, shorter before. *)
Theorem day_first_dates_are_read_day_first (y m d : N) :
  valid (Datetime y m d 0 0 0) = true ->
  format_date to_datetime (text (day_first_text y m d)) = day_month_year d m y
  /\ (1000 <= y ->
      format_date to_datetime (text (day_first_text y m d))
      = day_first_text y m d).
Proof.
  intros Hv. destruct (valid_ranges y m d Hv) as [Hd [Hm Hy]].
  assert (G : format_date to_datetime (text (day_first_text y m d))
              = day_month_year d m y);
    [|split; [exact G|intros H; rewrite G; symmetry;
                      now apply day_first_text_rendering]].
  apply (format_date_by_format _ [] (List.tl date_formats) (lit "%d/%m/%Y")
           (Datetime y m d 0 0 0));
    [reflexivity| |constructor|].
  - unfold day_first_text. destruct (padded_head 1 d
      (lit "/" ++ zfill 2 (digits m) ++ lit "/" ++ zfill 4 (digits y)))
      as [c [t [E Hc]]]. eauto.
  - apply (strptime_of_run _ _ [Dd; Dlit 47; Dm; Dlit 47; DY]);
      [reflexivity| |exact Hv].
    unfold day_first_text.
    apply (run_format_numeric Dd re_d _ _ _ _ d _ eq_refl (re_d_padded d _ Hd)).
    apply run_format_literal.
    apply (run_format_numeric Dm re_m _ _ _ _ m _ eq_refl (re_m_padded m _ Hm)).
    apply run_format_literal.
    rewrite <- (app_nil_r (zfill 4 (digits y))).
    apply (run_format_numeric DY re_Y _ _ _ _ y _ eq_refl
             (re_Y_padded y [] ltac:(lia))).
    apply run_format_end.
Qed.


Lemma alt_rest (shape : list (N -> bool)) (acc : N) (s : str) (v : N) (r : str) :
  alt shape acc s = Some (v, r) -> r = skipn (List.length shape) s.
Proof.
  revert acc s. induction shape as [|p shape IH]; intros acc s H.
  - cbn in H. now inversion H.
  - cbn [alt] in H. destruct s as [|c s]; [discriminate|].
    destruct (p c); [|discriminate]. apply IH in H. exact H.
Qed.

Lemma alts_rest (shapes : list (list (N -> bool))) (s : str) (v : N) (r : str) :
  In (v, r) (alts shapes s) ->
  exists sh, In sh shapes /\ r = skipn (List.length sh) s.
Proof.
  unfold alts. intros H. apply in_flat_map in H. destruct H as [sh [Hs H]].
  exists sh. split; [exact Hs|].
  destruct (alt sh 0 s) as [[v' r']|] eqn:E; [|contradiction].
  destruct H as [H|[]]. inversion H; subst. now apply alt_rest in E.
Qed.

Lemma flat_map_all_nil {A B} (k : A -> list B) (l : list A) :
  (forall x, In x l -> k x = []) -> flat_map k l = [].
Proof.
  induction l as [|x l IH]; intros H; [reflexivity|].
  cbn [flat_map]. rewrite (H x (or_introl eq_refl)), IH; [reflexivity|].
  intros y Hy. apply H. now right.
Qed.

Lemma run_literal_mismatch (c x : N) (ds : list directive) (t : datetime) (r : str) :
  x <> c -> run_format (Dlit c :: ds) t (x :: r) = [].
Proof.
  intros H. cbn [run_format run_directive re_lit].
  apply N.eqb_neq in H. now rewrite H.
Qed.

(** A text that begins with three digits is no day-first date. *)
Lemma day_then_separator_fails (sep a b c : N) (ds : list directive)
      (t : datetime) (rest : str) :
  is_digit sep = false -> is_digit b = true -> is_digit c = true ->
  run_format (Dd :: Dlit sep :: ds) t (a :: b :: c :: rest) = [].
Proof.
  intros Hs Hb Hc. cbn [run_format]. apply flat_map_all_nil.
  intros [t' r] Hin. cbn [run_directive] in Hin.
  apply in_map_iff in Hin. destruct Hin as [[v r'] [E Hin]].
  inversion E; subst t' r'. clear E.
  apply alts_rest in Hin. destruct Hin as [sh [Hsh ->]].
  assert (Hx : forall x, is_digit x = true -> x <> sep) by (intros x Hx ->; congruence).
  cbn [In] in Hsh.
  repeat (destruct Hsh as [<-|Hsh];
          [cbn [List.length skipn]; apply run_literal_mismatch; auto|]).
  contradiction.
Qed.

Lemma iso_is_not_day_first (y : N) (rest : str) :
  y <= 9999 ->
  strptime (zfill 4 (digits y) ++ rest) (lit "%d/%m/%Y") = None.
Proof.
  intros Hy. destruct (four_digits y Hy) as [a [b [c [d [E [A _]]]]]].
  rewrite E. cbn [forallb] in A.
  repeat match goal with
         | H : _ && _ = true |- _ => apply andb_true_iff in H; destruct H
         end.
  unfold strptime.
  change (parse_format false (lit "%d/%m/%Y"))
    with (Some [Dd; Dlit 47; Dm; Dlit 47; DY]).
  cbn [app]. now rewrite day_then_separator_fails.
Qed.

(** X14: a valid date written [YYYY-MM-DD] is read by the second
    format and comes out day first, with slashes: day and month on two
    digits, the year without leading zeros, which is [DD/MM/YYYY] from
    the year 1000 on. *)
Theorem iso_dates_are_converted (y m d : N) :
  valid (Datetime y m d 0 0 0) = true ->
  format_date to_datetime (text (iso_text y m d)) = day_month_year d m y
  /\ (1000 <= y ->
      dd_mm_yyyy (format_date to_datetime (text (iso_text y m d))) = true).
Proof.
  intros Hv. destruct (valid_ranges y m d Hv) as [Hd [Hm Hy]].
  assert (G : format_date to_datetime (text (iso_text y m d))
              = day_month_year d m y);
    [|split; [exact G|intros H; rewrite G;
                      apply day_month_year_shape; lia]].
  apply (format_date_by_format _ [lit "%d/%m/%Y"]
           (List.tl (List.tl date_formats)) (lit "%Y-%m-%d")
           (Datetime y m d 0 0 0));
    [reflexivity| | |].
  - unfold iso_text. destruct (padded_head 3 y
      (lit "-" ++ zfill 2 (digits m) ++ lit "-" ++ zfill 2 (digits d)))
      as [c [t [E Hc]]]. eauto.
  - constructor; [|constructor]. apply iso_is_not_day_first. lia.
  - apply (strptime_of_run _ _ [DY; Dlit 45; Dm; Dlit 45; Dd]);
      [reflexivity| |exact Hv].
    unfold iso_text.
    apply (run_format_numeric DY re_Y _ _ _ _ y _ eq_refl
             (re_Y_padded y _ ltac:(lia))).
    apply run_format_literal.
    apply (run_format_numeric Dm re_m _ _ _ _ m _ eq_refl (re_m_padded m _ Hm)).
    apply run_format_literal.
    rewrite <- (app_nil_r (zfill 2 (digits d))).
    apply (run_format_numeric Dd re_d _ _ _ _ d _ eq_refl (re_d_padded d [] Hd)).
    apply run_format_end.
Qed.


Lemma month_first_other_formats_fail (m d : N) (rest : str) :
  1 <= m <= 12 -> 13 <= d <= 31 ->
  let s := zfill 2 (digits m) ++ lit "/" ++ zfill 2 (digits d) ++ lit "/" ++ rest in
  strptime s (lit "%d/%m/%Y") = None
  /\ strptime s (lit "%Y-%m-%d") = None
  /\ strptime s (lit "%d-%m-%Y") = None.
Proof.
  intros Hm Hd.
  assert (Im : In m (List.map N.of_nat (seq 1 12))) by (apply in_range; simpl; lia).
  assert (Id : In d (List.map N.of_nat (seq 13 19))) by (apply in_range; simpl; lia).
  clear Hm Hd.
  each_case Im ltac:(each_case Id ltac:(vm_compute; repeat split)).
Qed.

(** X15: a slashed date whose second number is above 12 cannot be read
    day first and is read month first, by the fourth format: it comes
    out with the two numbers exchanged and the year without leading
    zeros, which is [DD/MM/YYYY] from the year 1000 on. *)
Theorem month_first_dates_are_swapped (y m d : N) :
  valid (Datetime y m d 0 0 0) = true -> 13 <= d ->
  format_date to_datetime (text (month_first_text y m d))
  = day_month_year d m y
  /\ (1000 <= y ->
      dd_mm_yyyy (format_date to_datetime (text (month_first_text y m d)))
      = true).
Proof.
  intros Hv H13. destruct (valid_ranges y m d Hv) as [Hd [Hm Hy]].
  assert (G : format_date to_datetime (text (month_first_text y m d))
              = day_month_year d m y);
    [|split; [exact G|intros H; rewrite G;
                      apply day_month_year_shape; lia]].
  destruct (month_first_other_formats_fail m d (zfill 4 (digits y)) Hm
              ltac:(lia)) as [F1 [F2 F3]].
  cbv zeta in F1, F2, F3. fold (month_first_text y m d) in F1, F2, F3.
  apply (format_date_by_format _
           (List.map lit ["%d/%m/%Y"; "%Y-%m-%d"; "%d-%m-%Y"]%string)
           (List.skipn 4 date_formats) (lit "%m/%d/%Y")
           (Datetime y m d 0 0 0));
    [reflexivity| | |].
  - unfold month_first_text. destruct (padded_head 1 m
      (lit "/" ++ zfill 2 (digits d) ++ lit "/" ++ zfill 4 (digits y)))
      as [c [t [E Hc]]]. eauto.
  - repeat constructor; assumption.
  - apply (strptime_of_run _ _ [Dm; Dlit 47; Dd; Dlit 47; DY]);
      [reflexivity| |exact Hv].
    unfold month_first_text.
    apply (run_format_numeric Dm re_m _ _ _ _ m _ eq_refl (re_m_padded m _ Hm)).
    apply run_format_literal.
    apply (run_format_numeric Dd re_d _ _ _ _ d _ eq_refl (re_d_padded d _ Hd)).
    apply run_format_literal.
    rewrite <- (app_nil_r (zfill 4 (digits y))).
    apply (run_format_numeric DY re_Y _ _ _ _ y _ eq_refl
             (re_Y_padded y [] ltac:(lia))).
    apply run_format_end.
Qed.


End DateLayouts.

Lemma day_first_dates_are_read_day_first_witness :
  format_date (fun _ => None) (text (day_first_text 2024 2 29))
  = day_first_text 2024 2 29.
Proof.
  apply (proj2 (@day_first_dates_are_read_day_first
                  (fun _ => None) 2024%N 2%N 29%N eq_refl)).
  vm_compute. discriminate.
Defined.

Lemma iso_dates_are_converted_witness :
  dd_mm_yyyy (format_date (fun _ => None) (text (iso_text 2023 12 31))) = true.
Proof.
  apply (proj2 (@iso_dates_are_converted (fun _ => None) 2023%N 12%N 31%N
                  eq_refl)).
  vm_compute. discriminate.
Defined.

Lemma month_first_dates_are_swapped_witness :
  format_date (fun _ => None) (text (month_first_text 2023 2 13))
  = day_month_year 13 2 2023.
Proof.
  apply (proj1 (@month_first_dates_are_swapped (fun _ => None) 2023%N 2%N 13%N
                  eq_refl ltac:(vm_compute; discriminate))).
Defined.

(** ** An empty Document Date *)

Lemma strftime_not_nil (t : datetime) : strftime t <> [].
Proof.
  unfold strftime. intros H.
  apply app_eq_nil in H. destruct H as [_ H]. discriminate.
Qed.

Lemma try_formats_some (fmts : list str) (s r : str) :
  try_formats fmts s = Some r -> exists t, r = strftime t.
Proof.
  induction fmts as [|fmt fmts IH]; [discriminate|].
  cbn [try_formats]. destruct (strptime s fmt) as [t|]; [|exact IH].
  intros H. inversion H. now exists t.
Qed.

(** X16: the Document Date is empty for a missing or blank date cell and
    for no other. *)
Theorem document_date_empty_iff_blank
  (to_datetime : cell -> option datetime) (val : cell) :
  format_date to_datetime val = []
  <-> (isna val = true \/ strip (to_str val) = []).
Proof.
  unfold format_date. destruct (isna val); cbn [orb].
  { split; auto. }
  destruct (eqb (strip (to_str val)) []) eqn:E.
  { apply eqb_eq in E. split; auto. }
  apply eqb_neq in E. split.
  - intros H. exfalso.
    destruct (try_formats date_formats (to_str val)) as [r|] eqn:T.
    + apply try_formats_some in T. destruct T as [t ->].
      now apply strftime_not_nil in H.
    + destruct (to_datetime val) as [t|].
      * now apply strftime_not_nil in H.
      * rewrite H in E. now apply E.
  - intros [H|H]; [discriminate|contradiction].
Qed.

(** ** The choice of the reader *)

Lemma endswith_app (a b : str) : endswith (a ++ b) b = true.
Proof.
  induction a as [|c a IH].
  - destruct b; cbn [app endswith]; now rewrite eqb_refl.
  - cbn [app endswith]. rewrite IH. apply orb_true_r.
Qed.

Lemma endswith_suffix (s suffix : str) :
  endswith s suffix = true -> exists pre, s = pre ++ suffix.
Proof.
  induction s as [|c s IH]; cbn [endswith].
  - rewrite orb_false_r. intros H. apply eqb_eq in H. exists []. now subst.
  - intros H. apply orb_true_iff in H. destruct H as [H|H].
    + apply eqb_eq in H. exists []. now rewrite H.
    + destruct (IH H) as [pre ->]. now exists (c :: pre).
Qed.

Lemma last_char (a : str) (x : N) (b : str) (y : N) :
  a ++ [x] = b ++ [y] -> x = y.
Proof.
  intros H. apply (f_equal (@rev N)) in H.
  rewrite !rev_app_distr in H. cbn in H. now inversion H.
Qed.

Lemma lower_app (a b : str) : lower (a ++ b) = lower a ++ lower b.
Proof. unfold lower. apply map_app. Qed.

(** X17: the reader is chosen by the extension of the file name, in any
    letter case: [.csv] gives the CSV reader, [.xls] and [.xlsx] the
    spreadsheet reader. *)
Theorem reader_chosen_by_extension
  (read_csv read_excel : file -> DataFrame) (f : file) (stem ext : str) :
  name f = stem ++ ext ->
  (lower ext = lit ".csv" ->
   read_file read_csv read_excel f = Ok (read_csv f))
  /\ (lower ext = lit ".xls" \/ lower ext = lit ".xlsx" ->
      read_file read_csv read_excel f = Ok (read_excel f)).
Proof.
  intros Hn. unfold read_file. rewrite Hn, lower_app. split.
  - intros ->. now rewrite endswith_app.
  - intros He.
    assert (Hx : endswith (lower stem ++ lower ext) (lit ".xls")
                 || endswith (lower stem ++ lower ext) (lit ".xlsx") = true).
    { destruct He as [-> | ->]; rewrite endswith_app;
        [reflexivity|apply orb_true_r]. }
    rewrite Hx.
    destruct (endswith (lower stem ++ lower ext) (lit ".csv")) eqn:Ec;
      [|reflexivity].
    exfalso. apply endswith_suffix in Ec. destruct Ec as [pre Ec].
    destruct He as [He|He]; rewrite He in Ec.
    + change (lit ".xls") with (lit ".xl" ++ [115%N]) in Ec.
      change (lit ".csv") with (lit ".cs" ++ [118%N]) in Ec.
      rewrite !app_assoc in Ec. apply last_char in Ec. discriminate.
    + change (lit ".xlsx") with (lit ".xls" ++ [120%N]) in Ec.
      change (lit ".csv") with (lit ".cs" ++ [118%N]) in Ec.
      rewrite !app_assoc in Ec. apply last_char in Ec. discriminate.
Qed.

Lemma reader_chosen_by_extension_witness :
  read_file (fun _ => scenario_table) (fun _ => blank_customers)
            (MkFile (lit "Book1.XLSX") [])
  = Ok blank_customers.
Proof.
  apply (proj2 (@reader_chosen_by_extension
                  (fun _ => scenario_table) (fun _ => blank_customers)
                  (MkFile (lit "Book1.XLSX") []) (lit "Book1") (lit ".XLSX")
                  eq_refl)).
  right. reflexivity.
Defined.

(** ** The shape, the sign and the stability of a balance *)

Lemma format_amount_two_decimals_witness :
  two_decimals (format_amount (text (lit "$1,200.5"))) = true.
Proof.
  apply (@format_amount_two_decimals (text (lit "$1,200.5")));
    vm_compute; discriminate.
Defined.

Lemma determine_transaction_type_by_sign_witness :
  (determine_transaction_type (lit "-50.00") = lit "CRD"
   <-> exists x, parse (lit "-50.00") = Some x /\ lt0 x = true)
  /\ (determine_transaction_type (lit "-50.00") = lit "INV"
      <-> parse (lit "-50.00") = None
          \/ exists x, parse (lit "-50.00") = Some x /\ ge0 x = true).
Proof.
  apply (@determine_transaction_type_by_sign (lit "-50.00")).
  vm_compute. discriminate.
Defined.

Lemma format_amount_idempotent_witness :
  format_amount (text (format_amount (text (lit "$1,200.5"))))
  = format_amount (text (lit "$1,200.5")).
Proof.
  apply (@format_amount_idempotent (text (lit "$1,200.5"))).
  vm_compute. discriminate.
Defined.
